(** * Jamboree: scroll/hover animation glue for a marketing site

    A shallow embedding of the three revisions of the presentation script
    ([src/unnamed/part_000], [src/jamboree.js], [src/script.js]) and the
    properties of its scheduling, caching and menu layers.

    Conventions of the embedding.
    - A DOM element is its identity, a [nat].
    - JavaScript objects that the script mutates (caches, timelines, the
      observer) are fields of an explicit state record that every
      operation takes and returns.
    - A call that can raise finishes in a [Completion]: [Normal] or
      [Throw], both carrying the state reached.
    - [requestAnimationFrame] is a queue of the host; a frame of the host
      is an event of the model carrying the timestamp the host passes.
    - A number the script is handed (a timestamp, a coordinate, a frame
      rate) is the rational that the finite double denotes, and the
      arithmetic the script does on such numbers is that of IEEE 754
      binary64: every operation rounds its exact result to the nearest
      double ([round64]). There is one zero, the positive one.
    - The times of the host's timers and the literal parameters of the
      animation tables are rationals. *)

From Stdlib Require Import ZArith QArith Qround Qabs Qpower Lqa Lia String List Bool.
From stdpp Require Import gmap strings list.

Local Open Scope string_scope.
Local Open Scope list_scope.
Set Warnings "-register-all".

(** ** JavaScript values and completions *)

(** DOM elements are compared by identity. *)
Abbreviation Elem := nat (only parsing).

(** The numbers the capability detector and the diagnostics deal with. *)
Inductive JSNumber :=
| NaN
| Finite (z : Z).

Inductive JSValue :=
| VUndefined
| VNumber (n : JSNumber).

(** [ToNumber] of ECMAScript, on the values above. *)
Definition ToNumber (v : JSValue) : JSNumber :=
  match v with
  | VUndefined => NaN
  | VNumber n => n
  end.

(** The abstract relational comparison [x < y]: [None] is the
    [undefined] answer given when an operand is [NaN]. *)
Definition IsLessThan (x y : JSValue) : option bool :=
  match ToNumber x, ToNumber y with
  | Finite a, Finite b => Some (a <? b)%Z
  | _, _ => None
  end.

(** [x <= y] evaluates [y < x] and answers [false] when that is [true]
    or [undefined]. *)
Definition js_le (x y : JSValue) : bool :=
  match IsLessThan y x with
  | Some false => true
  | _ => false
  end.

(** ** Double-precision arithmetic

    The values of the Number type the script computes with. *)
Inductive Double :=
| DNaN
| DInf (negative : bool)
| DFin (q : Q).

(** The exponent of the binade of a positive rational: the [e] with
    [2 ^ e <= q < 2 ^ (e + 1)]. *)
Definition Qlog2 (q : Q) : Z :=
  let c := (Z.log2 (Qnum q) - Z.log2 (Zpos (Qden q)))%Z in
  if Qle_bool (2 ^ c) q then c else (c - 1)%Z.

(** Rounding to the nearest integer, a tie going to the even one. *)
Definition rne (q : Q) : Z :=
  let f := Qfloor q in
  match Qcompare (q - inject_Z f) (1 # 2) with
  | Lt => f
  | Gt => (f + 1)%Z
  | Eq => if Z.even f then f else (f + 1)%Z
  end.

(** The exponent of the unit in the last place of the doubles around a
    positive [q]: 53 bits of precision, and the subnormal doubles below
    [2 ^ -1022] all have the unit [2 ^ -1074]. *)
Definition ulp_exp (q : Q) : Z := Z.max (Qlog2 q - 52) (-1074).

(** The multiple of that unit nearest to a positive [q]. *)
Definition round_pos (q : Q) : Q :=
  (inject_Z (rne (q / 2 ^ ulp_exp q)) * 2 ^ ulp_exp q)%Q.

Definition Qltb (a b : Q) : bool := negb (Qle_bool b a).

(** The double nearest to [q], ties to even; a magnitude that rounds to
    [2 ^ 1024] or more is an infinity. *)
Definition round64 (q : Q) : Double :=
  if Qeq_bool q 0 then DFin 0
  else
    let v := Qred (round_pos (Qabs q)) in
    if Qle_bool (2 ^ 1024) v then DInf (Qltb q 0)
    else DFin (if Qltb q 0 then (- v)%Q else v).

(** [x - y], [x / y], [x * y] and [x >= y] on numbers. *)
Definition js_sub (x y : Double) : Double :=
  match x, y with
  | DNaN, _ | _, DNaN => DNaN
  | DInf a, DInf b => if Bool.eqb a b then DNaN else DInf a
  | DInf a, DFin _ => DInf a
  | DFin _, DInf b => DInf (negb b)
  | DFin a, DFin b => round64 (a - b)
  end.

Definition js_div (x y : Double) : Double :=
  match x, y with
  | DNaN, _ | _, DNaN => DNaN
  | DInf _, DInf _ => DNaN
  | DInf a, DFin b => DInf (xorb a (Qltb b 0))
  | DFin _, DInf _ => DFin 0
  | DFin a, DFin b =>
      if Qeq_bool b 0 then
        (if Qeq_bool a 0 then DNaN else DInf (Qltb a 0))
      else round64 (a / b)
  end.

Definition js_mul (x y : Double) : Double :=
  match x, y with
  | DNaN, _ | _, DNaN => DNaN
  | DInf a, DInf b => DInf (xorb a b)
  | DInf a, DFin b =>
      if Qeq_bool b 0 then DNaN else DInf (xorb a (Qltb b 0))
  | DFin a, DInf b =>
      if Qeq_bool a 0 then DNaN else DInf (xorb (Qltb a 0) b)
  | DFin a, DFin b => round64 (a * b)
  end.

Definition js_ge (x y : Double) : bool :=
  match x, y with
  | DNaN, _ | _, DNaN => false
  | DInf a, DInf b => negb a || b
  | DInf a, DFin _ => negb a
  | DFin _, DInf b => b
  | DFin a, DFin b => Qle_bool b a
  end.

Inductive JSError :=
| TypeError (msg : string).

Inductive Completion (S : Type) :=
| Normal (s : S)
| Throw (e : JSError) (s : S).
Arguments Normal {S} s.
Arguments Throw {S} e s.

(** The state a completion ends in, whether it raised or not. *)
Definition final {S : Type} (c : Completion S) : S :=
  match c with
  | Normal s => s
  | Throw _ s => s
  end.

Definition throws {S : Type} (c : Completion S) : bool :=
  match c with
  | Normal _ => false
  | Throw _ _ => true
  end.

(** Statement sequencing: a raise skips the statements that follow. *)
Definition seq {S : Type} (c : Completion S) (k : S -> Completion S)
  : Completion S :=
  match c with
  | Normal s => k s
  | Throw e s => Throw e s
  end.
Notation "c >>> k" := (seq c k) (at level 61, left associativity).

(** ** The ambient environment read at start-up *)

Record Env := {
  innerWidth : Z;
  (** [window.matchMedia], when the host has it, applied to
      ['(prefers-reduced-motion: reduce)'] and read at [.matches]. *)
  matchMedia_reduce : option bool;
  (** [navigator.hardwareConcurrency]; [VUndefined] on hosts without the
      core-count API. *)
  hardwareConcurrency : JSValue;
  (** ['IntersectionObserver' in window]. *)
  hasIntersectionObserver : bool;
  (** The two tests on [navigator.userAgent]. *)
  isSafari : bool;
  isIOS : bool
}.

(** The part of the document the script only reads. *)
Record Page := {
  (** [parent.querySelectorAll(selector)], in document order; the parent
      [None] is [document]. *)
  querySelectorAll : string -> option Elem -> list Elem;
  (** [element.textContent.length]. *)
  textLength : Elem -> nat;
  (** [element.dataset.animationTrigger]; [None] when the attribute is
      absent. *)
  animationTrigger : Elem -> option string
}.

(** [parent.querySelector(selector)]: the first match or [null]. *)
Definition querySelector (page : Page) (selector : string)
    (parent : option Elem) : option Elem :=
  head (querySelectorAll page selector parent).

(** The attribute selector [[name="value"]]. *)
Definition attr_sel (name value : string) : string :=
  let quote := String (Ascii.ascii_of_nat 34) EmptyString in
  "[" +:+ name +:+ "=" +:+ quote +:+ value +:+ quote +:+ "]".

(** ** The animation library as the script drives it *)

(** Values of the literal parameter objects handed to the library. *)
Inductive Val :=
| VNum (q : Q)
| VStr (s : string)
| VBool (b : bool)
| VElem (e : Elem)
| VObj (fields : list (string * Val)).

Abbreviation Vars := (list (string * Val)) (only parsing).

(** The position argument of a timeline call: omitted, a number of
    seconds, or a label such as ["<"] or ["<+=0.35"]. *)
Inductive Position :=
| AtEnd
| At (t : Q)
| Rel (label : string).

(** What a tween animates: elements themselves, or one of the fragment
    arrays ([chars], [lines], [masks], ...) of a split. *)
Inductive Targets :=
| Elems (l : list Elem)
| Fragments (split : nat) (part : string).

Inductive Step :=
| StepSet (t : Targets) (vars : Vars) (pos : Position)
| StepFrom (t : Targets) (vars : Vars) (pos : Position)
| StepTo (t : Targets) (vars : Vars) (pos : Position)
| StepFromTo (t : Targets) (fromVars toVars : Vars) (pos : Position).

(** A timeline object: [tl_id] is its identity, [tl_options] the object
    passed to [gsap.timeline], [tl_steps] the tweens added so far. *)
Record Timeline := {
  tl_id : nat;
  tl_options : Vars;
  tl_steps : list Step
}.

(** The result of one [SplitText.create(targets, {type, mask})]. *)
Record Split := {
  split_id : nat;
  split_targets : list Elem;
  split_type : string;
  split_mask : string
}.

(** Everything besides its timeline that a section handler can touch. *)
Record Libs := {
  (** [cache.splitTexts] of script.js, a [WeakMap]. *)
  splitTexts : gmap Elem Split;
  (** The calls of [SplitText.create] so far, oldest first. *)
  splitCreated : list Split;
  (** [classList.add] on the fragments of a split. *)
  classAdded : list (Targets * string);
  (** The calls of [gsap.set] outside any timeline. *)
  gsapSet : list (Targets * Vars)
}.

Definition no_libs : Libs :=
  {| splitTexts := ∅; splitCreated := []; classAdded := []; gsapSet := [] |}.

(** A ScrollTrigger instance of the library's registry. *)
Record ScrollTrigger := {
  st_trigger : Elem;
  st_start : string;
  st_alive : bool
}.

Definition kill (t : ScrollTrigger) : ScrollTrigger :=
  {| st_trigger := st_trigger t; st_start := st_start t; st_alive := false |}.

(** *** Handlers: code that builds one timeline

    A handler receives the section and its timeline and may call the
    helpers; it threads the timeline under construction and [Libs]. *)

Definition Build (A : Type) : Type := list Step * Libs -> A * (list Step * Libs).

Definition ret {A : Type} (a : A) : Build A := fun s => (a, s).

Definition bind {A B : Type} (c : Build A) (k : A -> Build B) : Build B :=
  fun s => let '(a, s') := c s in k a s'.

Notation "'let*' x ':=' c 'in' k" := (bind c (fun x => k))
  (at level 10, x pattern, c at level 100, k at level 200).
Notation "c ';;;' k" := (bind c (fun _ => k))
  (at level 100, k at level 200, right associativity).

Definition exec (c : Build unit) (s : list Step * Libs) : list Step * Libs :=
  snd (c s).

(** [timeline.from], [timeline.to], [timeline.set], [timeline.fromTo]. *)
Definition timeline_add (st : Step) : Build unit :=
  fun '(steps, libs) => (tt, (steps ++ [st], libs)).

(** [SplitText.create(targets, { type, mask })]. *)
Definition SplitText_create (targets : list Elem) (type mask : string)
  : Build Split :=
  fun '(steps, libs) =>
    let split := {| split_id := length (splitCreated libs);
                    split_targets := targets;
                    split_type := type;
                    split_mask := mask |} in
    (split, (steps, {| splitTexts := splitTexts libs;
                       splitCreated := splitCreated libs ++ [split];
                       classAdded := classAdded libs;
                       gsapSet := gsapSet libs |})).

(** [split.<part>?.forEach(x => x.classList.add(cls))]. *)
Definition classList_add (t : Targets) (cls : string) : Build unit :=
  fun '(steps, libs) =>
    (tt, (steps, {| splitTexts := splitTexts libs;
                    splitCreated := splitCreated libs;
                    classAdded := classAdded libs ++ [(t, cls)];
                    gsapSet := gsapSet libs |})).

(** [gsap.set(targets, vars)]. *)
Definition gsap_set (t : Targets) (vars : Vars) : Build unit :=
  fun '(steps, libs) =>
    (tt, (steps, {| splitTexts := splitTexts libs;
                    splitCreated := splitCreated libs;
                    classAdded := classAdded libs;
                    gsapSet := gsapSet libs ++ [(t, vars)] |})).

(** [cache.splitTexts.get(element)] and [cache.splitTexts.set]. *)
Definition splitTexts_get (el : Elem) : Build (option Split) :=
  fun '(steps, libs) => (splitTexts libs !! el, (steps, libs)).

Definition splitTexts_set (el : Elem) (split : Split) : Build unit :=
  fun '(steps, libs) =>
    (tt, (steps, {| splitTexts := <[el := split]> (splitTexts libs);
                    splitCreated := splitCreated libs;
                    classAdded := classAdded libs;
                    gsapSet := gsapSet libs |})).

(** [if (cond) body]. *)
Definition when (cond : bool) (body : Build unit) : Build unit :=
  if cond then body else ret tt.

(** Truthiness of [list.length]. *)
Definition nonempty {A : Type} (l : list A) : bool :=
  match l with [] => false | _ => true end.

(** Truthiness of a possibly-null reference. *)
Definition truthy {A : Type} (o : option A) : bool :=
  match o with Some _ => true | None => false end.

(** A possibly-null element as the target list of a tween. *)
Definition targets_of (e : option Elem) : list Elem :=
  match e with Some x => [x] | None => [] end.

(** ** The built-in collections behind the caches

    A cache is a [Map] or a [WeakMap]; which methods and properties
    exist on it is decided by that alone. A [WeakMap] cannot be
    enumerated: its prototype has neither [clear] nor [size]. (Early
    drafts of the language had [WeakMap.prototype.clear]; no engine that
    parses the optional chaining the script uses still has it.) *)
Inductive Builtin :=
| MapObject
| WeakMapObject.

Definition methods (b : Builtin) : list string :=
  match b with
  | MapObject =>
      ["clear"; "delete"; "entries"; "forEach"; "get"; "has"; "keys";
       "set"; "values"]
  | WeakMapObject => ["delete"; "get"; "has"; "set"]
  end.

Definition has_method (b : Builtin) (name : string) : bool :=
  existsb (String.eqb name) (methods b).

(** [obj.clear()]: calling a property that is [undefined] is a
    [TypeError]. *)
Definition call_clear {S : Type} (b : Builtin) (clear : S -> S) (st : S)
  : Completion S :=
  if has_method b "clear" then Normal (clear st)
  else Throw (TypeError "clear is not a function") st.

(** [obj.size], for a collection holding [n] entries. *)
Definition get_size (b : Builtin) (n : nat) : JSValue :=
  match b with
  | MapObject => VNumber (Finite (Z.of_nat n))
  | WeakMapObject => VUndefined
  end.

(** ** The hover ripple of the buttons (jamboree.js and script.js)

    [handleButtonEnter] and [handleButtonLeave] are the same in both
    files. *)

Record MouseEvent := {
  event_target : Elem;
  clientX : Q;
  clientY : Q
}.

Record Rect := {
  rect_left : Q;
  rect_top : Q;
  rect_width : Q;
  rect_height : Q
}.

(** What the handlers ask of the layout: [target.closest("[data-btn='wrap']")]
    and [wrap.getBoundingClientRect()]. *)
Record Layout := {
  closest_wrap : Elem -> option Elem;
  getBoundingClientRect : Elem -> Rect
}.

(** The value [circle(<radius>% at <x>% <y>%)] of [clipPath]: the radius
    is a literal of the template, the centre two computed numbers. *)
Record ClipPath := {
  circle_radius : Q;
  circle_x : Double;
  circle_y : Double
}.

(** The calls the handlers make on the animation library. *)
Inductive RippleCall :=
| RippleSet (clip : Elem) (vars : Vars)
| RippleFromTo (clip : Elem) (from to : ClipPath) (duration : Q) (ease : string)
| RippleTo (clip : Elem) (to : ClipPath) (overwrite : bool) (duration : Q)
    (ease : string).

(** [((e.clientX - rect.left) / rect.width) * 100] and the same for the
    vertical axis. *)
Definition percentLeft (rect : Rect) (e : MouseEvent) : Double :=
  js_mul
    (js_div (js_sub (DFin (clientX e)) (DFin (rect_left rect)))
       (DFin (rect_width rect)))
    (DFin 100).

Definition percentTop (rect : Rect) (e : MouseEvent) : Double :=
  js_mul
    (js_div (js_sub (DFin (clientY e)) (DFin (rect_top rect)))
       (DFin (rect_height rect)))
    (DFin 100).

Definition handleButtonEnter (page : Page) (layout : Layout) (e : MouseEvent)
  : list RippleCall :=
  match closest_wrap layout (event_target e) with
  | None => []
  | Some wrap =>
      match querySelector page "[data-btn='clip']" (Some wrap) with
      | None => []
      | Some clipEl =>
          let rect := getBoundingClientRect layout wrap in
          let x := percentLeft rect e in
          let y := percentTop rect e in
          [ RippleSet clipEl [("display", VStr "flex")];
            RippleFromTo clipEl
              {| circle_radius := 0; circle_x := x; circle_y := y |}
              {| circle_radius := 141.4; circle_x := x; circle_y := y |}
              0.4 "power2.out" ]
      end
  end.

Definition handleButtonLeave (page : Page) (layout : Layout) (e : MouseEvent)
  : list RippleCall :=
  match closest_wrap layout (event_target e) with
  | None => []
  | Some wrap =>
      match querySelector page "[data-btn='clip']" (Some wrap) with
      | None => []
      | Some clipEl =>
          let rect := getBoundingClientRect layout wrap in
          [ RippleTo clipEl
              {| circle_radius := 0;
                 circle_x := percentLeft rect e;
                 circle_y := percentTop rect e |}
              true 0.4 "power2.out" ]
      end
  end.




(** ** Timers of the host

    [setTimeout] and [clearTimeout]: the timers still to fire, each with
    the time it is due and what its callback closed over. *)
Record Timers (A : Type) := {
  pending : list (nat * (Q * A));
  timerNext : nat
}.
Arguments pending {A} _.
Arguments timerNext {A} _.

Definition no_timers (A : Type) : Timers A :=
  {| pending := []; timerNext := 1 |}.

(** [setTimeout(callback, wait)] at time [now]; the result is the handle. *)
Definition setTimeout {A : Type} (now wait : Q) (payload : A) (h : Timers A)
  : nat * Timers A :=
  (timerNext h,
   {| pending := pending h ++ [(timerNext h, ((now + wait)%Q, payload))];
      timerNext := S (timerNext h) |}).

(** [clearTimeout(id)]; [undefined], [null] and the handle of a timer that
    has fired clear nothing. *)
Definition clearTimeout {A : Type} (id : option nat) (h : Timers A) : Timers A :=
  match id with
  | None => h
  | Some i =>
      {| pending := List.filter (fun t => negb (Nat.eqb (fst t) i)) (pending h);
         timerNext := timerNext h |}
  end.

Definition is_due {A : Type} (now : Q) (t : nat * (Q * A)) : bool :=
  Qle_bool (fst (snd t)) now.

(** The timers the host fires when the clock reaches [now], and the host
    without them. *)
Definition due_timers {A : Type} (now : Q) (h : Timers A) : list (nat * (Q * A)) :=
  List.filter (is_due now) (pending h).

Definition without_due {A : Type} (now : Q) (h : Timers A) : Timers A :=
  {| pending := List.filter (fun t => negb (is_due now t)) (pending h);
     timerNext := timerNext h |}.

(** What can happen to a debounced function: a call at a time, and the
    clock reaching a time. *)
Inductive TimerEvent (A : Type) :=
| Invoke (now : Q) (args : A)
| Elapse (now : Q).
Arguments Invoke {A} now args.
Arguments Elapse {A} now.

(** The closure variable [timeout] of a debounced function (or
    [resizeTimer] of a resize listener), with the host's timers. *)
Record Debounce (A : Type) := {
  timeout : option nat;
  host : Timers A
}.
Arguments timeout {A} _.
Arguments host {A} _.

Definition no_debounce (A : Type) : Debounce A :=
  {| timeout := None; host := no_timers A |}.

(** ** The expandable navigation menu (jamboree.js and script.js)

    [openNav], [closeNav] and the [keydown] listener are the same in both
    files; what differs is the throttle that wraps the toggle. *)

(** The elements [initMenu] looks up once. *)
Record MenuElements := {
  navWrap : Elem;
  overlay : option Elem;
  menu : option Elem;
  bgPanels : list Elem;
  menuLinks : list Elem;
  fadeTargets : list Elem;
  menuButton : option Elem;
  (** [menuButtonElements.texts] and [.icon], read when there is a button. *)
  buttonTexts : list Elem;
  buttonIcon : option Elem
}.

(** The closure variable [isOpen], the attributes the transitions write,
    and the steps of the single timeline [tl]. *)
Record Menu := {
  isOpen : bool;
  (** [navWrap.getAttribute("data-nav")]. *)
  data_nav : option string;
  (** Whether the button's class list holds ["is-opened"]. *)
  is_opened : bool;
  (** The button's [aria-label]. *)
  aria_label : option string;
  menu_tl : list Step
}.

(** [tl.clear()] empties the timeline and returns it for chaining. *)
Definition tl_clear (steps : list Step) : list Step := [].

Definition open_steps (els : MenuElements) (tl : list Step) : list Step :=
  tl_clear tl
  ++ [ StepSet (Elems [navWrap els]) [("display", VStr "block")] AtEnd;
       StepSet (Elems (targets_of (menu els))) [("xPercent", VNum 0)] (Rel "<") ]
  ++ (if truthy (menuButton els) then
        [ StepFromTo (Elems (buttonTexts els))
            [("yPercent", VNum 0)]
            [("yPercent", VNum (-100)); ("stagger", VNum 0.2)] AtEnd;
          StepFromTo (Elems (targets_of (buttonIcon els)))
            [("rotate", VNum 0)] [("rotate", VNum 315)] (Rel "<") ]
      else [])
  ++ [ StepFromTo (Elems (targets_of (overlay els)))
         [("autoAlpha", VNum 0)] [("autoAlpha", VNum 1)] (Rel "<");
       StepFromTo (Elems (bgPanels els))
         [("xPercent", VNum 101)]
         [("xPercent", VNum 0); ("stagger", VNum 0.12); ("duration", VNum 0.575)]
         (Rel "<");
       StepFromTo (Elems (menuLinks els))
         [("yPercent", VNum 140); ("rotate", VNum 10); ("autoAlpha", VNum 0)]
         [("yPercent", VNum 0); ("autoAlpha", VNum 1); ("rotate", VNum 0);
          ("stagger", VNum 0.05)]
         (Rel "<+=0.35") ]
  ++ (if nonempty (fadeTargets els) then
        [ StepFromTo (Elems (fadeTargets els))
            [("autoAlpha", VNum 0); ("yPercent", VNum 50)]
            [("autoAlpha", VNum 1); ("yPercent", VNum 0); ("stagger", VNum 0.04)]
            (Rel "<+=0.2") ]
      else []).

Definition close_steps (els : MenuElements) (tl : list Step) : list Step :=
  tl_clear tl
  ++ [ StepTo (Elems (targets_of (overlay els))) [("autoAlpha", VNum 0)] AtEnd;
       StepTo (Elems (targets_of (menu els))) [("xPercent", VNum 120)] (Rel "<") ]
  ++ (if truthy (menuButton els) then
        [ StepTo (Elems (buttonTexts els)) [("yPercent", VNum 0)] (Rel "<");
          StepTo (Elems (targets_of (buttonIcon els))) [("rotate", VNum 0)] (Rel "<") ]
      else [])
  ++ [ StepSet (Elems [navWrap els]) [("display", VStr "none")] AtEnd ].

Definition openNav (els : MenuElements) (m : Menu) : Menu :=
  if isOpen m then m
  else {| isOpen := true;
          data_nav := Some "open";
          is_opened := if truthy (menuButton els) then true else is_opened m;
          aria_label := if truthy (menuButton els) then Some "Close menu"
                        else aria_label m;
          menu_tl := open_steps els (menu_tl m) |}.

Definition closeNav (els : MenuElements) (m : Menu) : Menu :=
  if negb (isOpen m) then m
  else {| isOpen := false;
          data_nav := Some "closed";
          is_opened := if truthy (menuButton els) then false else is_opened m;
          aria_label := if truthy (menuButton els) then Some "Open menu"
                        else aria_label m;
          menu_tl := close_steps els (menu_tl m) |}.

(** The callback handed to [rafThrottle]: [isOpen ? closeNav() : openNav()]. *)
Definition toggle (els : MenuElements) (m : Menu) : Menu :=
  if isOpen m then closeNav els m else openNav els m.

(** The [keydown] listener. *)
Definition keydown (els : MenuElements) (key : string) (m : Menu) : Menu :=
  if String.eqb key "Escape" && isOpen m then closeNav els m else m.

(** The state [initMenu] leaves: [isOpen] is [false], the attributes are
    those of the markup ([attr0], [cls0], [aria0]) except the button's
    [aria-label], which is set when there is a button. *)
Definition initMenu (els : MenuElements) (attr0 : option string)
    (cls0 : bool) (aria0 : option string) : Menu :=
  {| isOpen := false;
     data_nav := attr0;
     is_opened := cls0;
     aria_label := if truthy (menuButton els) then Some "Open menu" else aria0;
     menu_tl := [] |}.

(** What can happen to a throttled function, and to the menu. *)
Inductive ThrottleEvent (A : Type) :=
| Call (args : A)
| Paint (currentTime : Q).
Arguments Call {A} args.
Arguments Paint {A} currentTime.

Inductive MenuEvent :=
| Click (event : nat)
| Frame (currentTime : Q)
| KeyDown (key : string).

(** ** jamboree.js *)

Module Jamboree.

(** *** [utils.rafThrottle(callback)]

    The closure variable [requestId], together with the callbacks the
    wrapped function has registered with [requestAnimationFrame] and are
    still to run ([rafQueue], each closed over the [args] of the call
    that registered it), the next handle of the host, and the log [ran]
    of the executions of [callback]. *)
Record Throttle (A : Type) := {
  requestId : option nat;
  rafQueue : list (nat * A);
  rafNext : nat;
  ran : list (Q * A)
}.
Arguments requestId {A} _.
Arguments rafQueue {A} _.
Arguments rafNext {A} _.
Arguments ran {A} _.

Definition rafThrottle (A : Type) : Throttle A :=
  {| requestId := None; rafQueue := []; rafNext := 1; ran := [] |}.

(** The wrapped function [(...args) => { if (requestId === null) ... }]. *)
Definition wrapped {A : Type} (args : A) (t : Throttle A) : Throttle A :=
  match requestId t with
  | None =>
      {| requestId := Some (rafNext t);
         rafQueue := rafQueue t ++ [(rafNext t, args)];
         rafNext := S (rafNext t);
         ran := ran t |}
  | Some _ => t
  end.

(** The function passed to [requestAnimationFrame]. *)
Definition onFrame {A S : Type} (callback : A -> S -> S) (args : A)
    (currentTime : Q) (ts : Throttle A * S) : Throttle A * S :=
  let '(t, s) := ts in
  ({| requestId := None;
      rafQueue := rafQueue t;
      rafNext := rafNext t;
      ran := ran t ++ [(currentTime, args)] |},
   callback args s).

(** One frame of the host: the callbacks registered so far run, in order,
    with the timestamp of the frame. *)
Definition frame {A S : Type} (callback : A -> S -> S) (currentTime : Q)
    (ts : Throttle A * S) : Throttle A * S :=
  let '(t, s) := ts in
  fold_left (fun acc '(_, args) => onFrame callback args currentTime acc)
    (rafQueue t)
    ({| requestId := requestId t; rafQueue := [];
        rafNext := rafNext t; ran := ran t |}, s).

Definition throttle_step {A S : Type} (callback : A -> S -> S)
    (ts : Throttle A * S) (ev : ThrottleEvent A) : Throttle A * S :=
  match ev with
  | Call args => (wrapped args (fst ts), snd ts)
  | Paint currentTime => frame callback currentTime ts
  end.

(** *** The menu: [toggleMenu = utils.rafThrottle(() => ...)] *)

Definition menu_step (els : MenuElements) (s : Throttle nat * Menu)
    (ev : MenuEvent) : Throttle nat * Menu :=
  match ev with
  | Click e => (wrapped e (fst s), snd s)
  | Frame currentTime => frame (fun _ => toggle els) currentTime s
  | KeyDown key => (fst s, keydown els key (snd s))
  end.

Definition menu_run (els : MenuElements) (evs : list MenuEvent)
    (s : Throttle nat * Menu) : Throttle nat * Menu :=
  fold_left (menu_step els) evs s.

(** *** [utils.debounce(func, wait)] *)

(** The wrapped function [executedFunction(...args)], called at [now]. *)
Definition debounced {A U : Type} (wait : Q) (now : Q) (args : A)
    (ds : Debounce A * U) : Debounce A * U :=
  let '(d, u) := ds in
  let '(id, h) := setTimeout now wait args (clearTimeout (timeout d) (host d)) in
  ({| timeout := Some id; host := h |}, u).

(** [later]: [clearTimeout(timeout); func(...args)]. *)
Definition later {A U : Type} (func : A -> U -> U) (args : A)
    (ds : Debounce A * U) : Debounce A * U :=
  let '(d, u) := ds in
  ({| timeout := timeout d; host := clearTimeout (timeout d) (host d) |},
   func args u).

(** The clock reaches [now]: the timers due fire, in the order they were
    set. *)
Definition elapse {A U : Type} (func : A -> U -> U) (now : Q)
    (ds : Debounce A * U) : Debounce A * U :=
  let '(d, u) := ds in
  fold_left (fun acc t => later func (snd (snd t)) acc)
    (due_timers now (host d))
    ({| timeout := timeout d; host := without_due now (host d) |}, u).

Definition debounce_step {A U : Type} (func : A -> U -> U) (wait : Q)
    (ds : Debounce A * U) (ev : TimerEvent A) : Debounce A * U :=
  match ev with
  | Invoke now args => debounced wait now args ds
  | Elapse now => elapse func now ds
  end.

(** *** The section initialiser and its cache *)

(** A section handler such as [animateHeroMain(section, timeline)]. *)
Definition Handler : Type := Elem -> Build unit.

(** An entry of [animationConfigs]. *)
Record AnimationConfig := {
  selector : string;
  handler : Handler;
  start : option string
}.

Record State := {
  (** [element.style.visibility], where the script has set it. *)
  visibility : gmap Elem string;
  (** [animationCache], a [WeakMap] from sections to timelines. *)
  animationCache : gmap Elem Timeline;
  (** The section each call of [gsap.timeline] so far was made for; the
      position in the list is the identity of the timeline. *)
  created : list Elem;
  (** [ScrollTrigger.getAll()], with the instances already killed. *)
  scrollTriggers : list ScrollTrigger;
  libs : Libs
}.

Definition initial : State :=
  {| visibility := ∅; animationCache := ∅; created := [];
     scrollTriggers := []; libs := no_libs |}.

(** [config.start || CONFIG.scrollTrigger.start]. *)
Definition start_of (config : AnimationConfig) : string :=
  default "top 70%" (start config).

Definition setupAnimation (section : Elem) (config : AnimationConfig)
    (st : State) : State :=
  if truthy (animationCache st !! section) then st
  else
    let options :=
      [("scrollTrigger",
        VObj [("trigger", VElem section);
              ("start", VStr (start_of config));
              ("end", VStr (start_of config));
              ("toggleActions", VStr "play none none none");
              ("once", VBool true)]);
       ("defaults", VObj [("ease", VStr "back.inOut")])] in
    let '(steps, libs') := exec (handler config section) ([], libs st) in
    let timeline := {| tl_id := length (created st);
                       tl_options := options;
                       tl_steps := steps |} in
    {| visibility := <[section := "visible"]> (visibility st);
       animationCache := <[section := timeline]> (animationCache st);
       created := created st ++ [section];
       scrollTriggers :=
         scrollTriggers st
         ++ [{| st_trigger := section; st_start := start_of config;
                st_alive := true |}];
       libs := libs' |}.

(** The timelines constructed for [section] so far. *)
Definition constructed_for (section : Elem) (st : State) : nat :=
  length (filter (fun s => s = section) (created st)).

(** [initAnimations] and any later calls of [setupAnimation]. *)
Definition setups (l : list (Elem * AnimationConfig)) (st : State) : State :=
  fold_left (fun st sc => setupAnimation (fst sc) (snd sc) st) l st.

(** [window.cleanupAnimations]. *)
Definition kill_all (st : State) : State :=
  {| visibility := visibility st;
     animationCache := animationCache st;
     created := created st;
     scrollTriggers := map kill (scrollTriggers st);
     libs := libs st |}.

Definition clear_animationCache (st : State) : State :=
  {| visibility := visibility st;
     animationCache := ∅;
     created := created st;
     scrollTriggers := scrollTriggers st;
     libs := libs st |}.

Definition cleanupAnimations (st : State) : Completion State :=
  Normal (kill_all st)
  >>> call_clear WeakMapObject clear_animationCache.

(** *** [animationHelpers] *)

Section Helpers.

Variable env : Env.
(** [CONFIG.mobile.reducedMotion]. *)
Variable reducedMotion : bool.

Definition isMobile : bool := (innerWidth env <=? 768)%Z.

Definition fade_vars : Vars :=
  [("opacity", VNum 0); ("y", VNum 20); ("duration", VNum 0.5)].

Definition splitHeading (element : option Elem) (delay : Q)
  : Build (option Split) :=
  match element with
  | None => ret None
  | Some el =>
      if reducedMotion then
        timeline_add (StepFrom (Elems [el]) fade_vars (At delay)) ;;;
        ret None
      else
        let* split := SplitText_create [el] "chars, lines, words" "chars" in
        classList_add (Fragments (split_id split) "chars") "split-char" ;;;
        classList_add (Fragments (split_id split) "masks") "split-mask" ;;;
        timeline_add
          (StepFrom (Fragments (split_id split) "chars")
             [("opacity", VNum 0); ("yPercent", VNum 100);
              ("duration", VNum 0.5);
              ("stagger", VObj [("amount", VNum 0.3); ("from", VStr "start")])]
             (At delay)) ;;;
        ret (Some split)
  end.

(** [elements] is [null] or a list; the guard is
    [!elements || !elements.length]. *)
Definition splitParagraph (elements : option (list Elem)) (delay : Q)
  : Build (option Split) :=
  match elements with
  | None => ret None
  | Some [] => ret None
  | Some els =>
      if reducedMotion then
        timeline_add (StepFrom (Elems els) fade_vars (At delay)) ;;;
        ret None
      else
        let* split := SplitText_create els "lines" "lines" in
        classList_add (Fragments (split_id split) "lines") "split-line" ;;;
        classList_add (Fragments (split_id split) "masks") "split-mask" ;;;
        timeline_add
          (StepFrom (Fragments (split_id split) "lines")
             [("opacity", VNum 0); ("yPercent", VNum 100);
              ("duration", VNum 0.45);
              ("stagger", VNum (if isMobile then 0.1 else 0.15))]
             (At delay)) ;;;
        ret (Some split)
  end.

Definition animateButtons (buttons : list Elem) (delay : Q) : Build unit :=
  when (nonempty buttons)
    (timeline_add
       (StepFrom (Elems buttons)
          [("opacity", VNum 0); ("yPercent", VNum 100); ("stagger", VNum 0.15)]
          (At delay))).

Definition animateImage (image : option Elem) (delay : Q) (scale : Q)
  : Build unit :=
  match image with
  | None => ret tt
  | Some img =>
      let willChange := isSafari env || isIOS env in
      when willChange
        (gsap_set (Elems [img]) [("willChange", VStr "transform, opacity")]) ;;;
      timeline_add
        (StepFrom (Elems [img])
           [("opacity", VNum 0); ("yPercent", VNum 50); ("scale", VNum scale);
            ("duration", VNum 0.7)]
           (At delay)) ;;;
      when willChange
        (timeline_add (StepSet (Elems [img]) [("willChange", VStr "auto")] AtEnd))
  end.

(** *** The section handlers *)

Variable page : Page.

Definition qs (selector : string) (section : Elem) : option Elem :=
  querySelector page selector (Some section).

Definition qsa (selector : string) (section : Elem) : list Elem :=
  querySelectorAll page selector (Some section).

Definition data_animate : string := attr_sel "data-animate" "true".

(** [timeline.from(targets, vars, at)] as the handlers call it directly. *)
Definition from (targets : list Elem) (vars : Vars) (at_ : Q) : Build unit :=
  timeline_add (StepFrom (Elems targets) vars (At at_)).

(** [x ? [x] : null]. *)
Definition array_of (e : option Elem) : option (list Elem) :=
  match e with Some x => Some [x] | None => None end.

Definition animateHeroMain : Handler := fun section =>
  animateImage (qs ".hero_main_content" section) 0 0.85 ;;;
  splitHeading (qs ".c-heading > *" section) 0.68 ;;;
  splitParagraph (array_of (qs (data_animate +:+ " p") section)) 1 ;;;
  animateButtons (qsa ".u-button-group > * > *" section) 1.25 ;;;
  animateImage (qs ".hero_main_visual" section) 1.4 0.85.

Definition animateStackedContent : Handler := fun section =>
  let tagWrap := qs ".tag_wrap" section in
  let cards := qsa ".card_primary_wrap, .card_img-bottom_outer" section in
  when (truthy tagWrap)
    (from (targets_of tagWrap)
       [("opacity", VNum 0); ("yPercent", VNum 100); ("duration", VNum 0.7)] 0) ;;;
  splitHeading (qs ".c-heading > *" section) 0.3 ;;;
  splitParagraph (Some (qsa (data_animate +:+ " p") section)) 0.4 ;;;
  animateButtons (qsa ".u-button-group > * > *" section) 0.9 ;;;
  when (nonempty cards)
    (from cards
       [("opacity", VNum 0); ("yPercent", VNum 30); ("stagger", VNum 0.15)] 0.65).

Definition animateImageSplit : Handler := fun section =>
  let listItems := qsa ".c-text > ul > li" section in
  splitHeading (qs ".c-heading > *" section) 0 ;;;
  splitParagraph (Some (qsa (data_animate +:+ " > *:not(ul)") section)) 0.4 ;;;
  when (nonempty listItems)
    (from listItems
       [("opacity", VNum 0); ("yPercent", VNum 100); ("duration", VNum 0.75);
        ("stagger", VNum 0.05)] 0.4) ;;;
  animateButtons (qsa ".u-button-group > * > *" section) 0.6 ;;;
  animateImage (qs ".c-image-wrap" section) 0.15 0.85.

Definition animateIconsGrid : Handler := fun section =>
  let cards := qsa ".card_primary_wrap" section in
  splitHeading (qs ".c-heading > *" section) 0 ;;;
  splitParagraph (Some (qsa (data_animate +:+ " p") section)) 0.6 ;;;
  animateButtons (qsa ".u-button-group > * > *" section) 0.3 ;;;
  when (nonempty cards)
    (from cards
       [("opacity", VNum 0); ("yPercent", VNum 40); ("duration", VNum 0.7);
        ("stagger", VNum 0.05)] 0.4).

Definition animateCTA : Handler := fun section =>
  animateImage (qs ".c-image-wrap" section) 0 0.85 ;;;
  splitHeading (qs ".c-heading > *" section) 0.5 ;;;
  splitParagraph (Some (qsa (data_animate +:+ " p") section)) 0.6 ;;;
  animateButtons (qsa ".u-button-group > * > *" section) 0.7.

Definition animateFooter : Handler := fun section =>
  let logoWrap := qs ".footer_logo_wrap" section in
  let menuItems := qsa ".footer_nav > *" section in
  let logoPaths := qsa ".footer_logo > *" section in
  when (truthy logoWrap)
    (from (targets_of logoWrap)
       [("opacity", VNum 0); ("yPercent", VNum 100); ("duration", VNum 0.4)] 0) ;;;
  splitParagraph (array_of (qs (data_animate +:+ " p") section)) 0.3 ;;;
  when (nonempty menuItems)
    (from menuItems
       [("opacity", VNum 0); ("yPercent", VNum 100); ("stagger", VNum 0.15);
        ("duration", VNum 0.7)] 0.5) ;;;
  when (nonempty logoPaths)
    (from logoPaths
       [("opacity", VNum 0); ("yPercent", VNum 100); ("stagger", VNum 0.05);
        ("ease", VStr "elastic.inOut(1,0.4)"); ("duration", VNum 1.5)] 0.16).

Definition animateDownload : Handler := fun section =>
  let logo := qs ".download_main_logo" section in
  let buttons :=
    qsa ".download_main_button_wrap > *, .u-button-group > * > *" section in
  when (truthy logo)
    (from (targets_of logo)
       [("opacity", VNum 0); ("yPercent", VNum 100); ("duration", VNum 0.4)] 0) ;;;
  splitHeading (qs ".c-heading > *" section) 0.3 ;;;
  splitParagraph (Some (qsa (data_animate +:+ " p") section)) 0.5 ;;;
  when (nonempty buttons)
    (from buttons
       [("opacity", VNum 0); ("yPercent", VNum 20); ("stagger", VNum 0.15)] 0.7) ;;;
  animateImage (qs ".c-image-cs-wrap" section) 0.15 0.85 ;;;
  animateImage (qs ".download_main_play-icon" section) 0.65 0.85.

Definition animateHeroBanner : Handler := fun section =>
  animateImage (qs ".hero_banner_contain" section) 0 0.85 ;;;
  splitHeading (qs ".c-heading > *" section) 0.7 ;;;
  splitParagraph (Some (qsa (data_animate +:+ " p") section)) 0.9 ;;;
  animateButtons (qsa ".u-button-group > * > *" section) 0.95.

Definition animateLandingPageHero : Handler := fun section =>
  let svgElements := qsa ".hero_lp_svg" section in
  splitHeading (qs ".c-heading > *" section) 0.68 ;;;
  splitParagraph (array_of (qs (data_animate +:+ " p") section)) 1 ;;;
  animateButtons (qsa ".u-button-group > * > *" section) 1.25 ;;;
  animateImage (qs ".c-image-wrap" section) 1.4 0.85 ;;;
  when (nonempty svgElements)
    (from svgElements
       [("opacity", VNum 0); ("yPercent", VNum 100); ("stagger", VNum 0.15)] 1.6).

(** The array [animationConfigs] of [initAnimations]. *)
Definition config (kind : string) (h : Handler) (start : option string)
  : AnimationConfig :=
  {| selector := attr_sel "data-animation-trigger" kind;
     handler := h;
     start := start |}.

Definition animationConfigs : list AnimationConfig :=
  [ config "hero-main" animateHeroMain None;
    config "stacked-content" animateStackedContent None;
    config "image-split" animateImageSplit None;
    config "icons-grid" animateIconsGrid None;
    config "cta" animateCTA None;
    config "footer" animateFooter (Some "top 80%");
    config "download" animateDownload (Some "top 80%");
    config "hero-banner" animateHeroBanner (Some "top 80%");
    config "landingpage-hero" animateLandingPageHero None ].

(** The sections [initAnimations] visits, each with its configuration,
    in the order of the two nested [forEach]. *)
Definition sections_of (configs : list AnimationConfig)
  : list (Elem * AnimationConfig) :=
  flat_map (fun c => map (fun s => (s, c)) (querySelectorAll page (selector c) None))
    configs.

Definition initAnimations (st : State) : State :=
  setups (sections_of animationConfigs) st.

End Helpers.

End Jamboree.

(** ** script.js *)

Module Script.

(** *** [CONFIG] and the capability detector *)

(** [CONFIG.mobile] and [CONFIG.performance]: the fields computed from the
    environment and the constants the modelled code reads. *)
Record Config := {
  breakpoint : Z;
  reducedMotion : bool;
  isLowEnd : bool;
  useIntersectionObserver : bool;
  maxSplitChars : nat;
  batchSize : Z
}.

Inductive Result (A : Type) :=
| Ok (a : A)
| Raise (e : JSError).
Arguments Ok {A} a.
Arguments Raise {A} e.

(** The object literal [CONFIG]. Calling [window.matchMedia] on a host
    that lacks it is a [TypeError]; the comparison on
    [navigator.hardwareConcurrency] cannot raise. *)
Definition CONFIG (env : Env) : Result Config :=
  match matchMedia_reduce env with
  | None => Raise (TypeError "window.matchMedia is not a function")
  | Some rm =>
      Ok {| breakpoint := 768;
            reducedMotion := rm;
            isLowEnd := js_le (hardwareConcurrency env) (VNumber (Finite 4));
            useIntersectionObserver := hasIntersectionObserver env;
            maxSplitChars := 100;
            batchSize := 5 |}
  end.

(** [utils.isMobile] and [utils.isLowEndDevice]. *)
Definition isMobile (env : Env) (cfg : Config) : bool :=
  (innerWidth env <=? breakpoint cfg)%Z.

Definition isLowEndDevice (cfg : Config) : bool :=
  isLowEnd cfg || reducedMotion cfg.

(** The three ways [init] can wire the sections. *)
Inductive Strategy :=
| SimpleAnimations
| IntersectionObserverAnimations
| ScrollTriggerAnimations.

(** The [if] / [else if] / [else] at the end of the callback [init]
    hands to [Promise.race(...).then] (script.js 155-161). [init] gets
    there only when the animation library is loaded: see [init]. *)
Definition init_strategy (cfg : Config) : Strategy :=
  if isLowEndDevice cfg then SimpleAnimations
  else if useIntersectionObserver cfg then IntersectionObserverAnimations
  else ScrollTriggerAnimations.

(** The globals [init] looks for: [window.gsap], and the identifiers
    [ScrollTrigger] and [SplitText] it hands to [gsap.registerPlugin]. *)
Record Globals := {
  has_gsap : bool;
  has_ScrollTrigger : bool;
  has_SplitText : bool
}.

(** How [init] ends: it returns early with the class ['gsap-not-found']
    on the document element, or evaluating an identifier that is not
    declared raises a ReferenceError, or the callback that wires the
    page runs (when the fonts are ready, after two seconds at the
    latest) and takes one of the three strategies. *)
Inductive InitOutcome :=
| GsapNotFound
| NotDefined (identifier : string)
| Wired (strategy : Strategy).

Definition init (g : Globals) (cfg : Config) : InitOutcome :=
  if negb (has_gsap g) then GsapNotFound
  else if negb (has_ScrollTrigger g) then NotDefined "ScrollTrigger"
  else if negb (has_SplitText g) then NotDefined "SplitText"
  else Wired (init_strategy cfg).

(** *** [utils.rafThrottle(callback, fps = 60)]

    The closure variables [requestId] and [lastTime], with the host's
    side as in [Jamboree.Throttle]. *)
Record Throttle (A : Type) := {
  requestId : option nat;
  lastTime : Q;
  rafQueue : list (nat * A);
  rafNext : nat;
  ran : list (Q * A)
}.
Arguments requestId {A} _.
Arguments lastTime {A} _.
Arguments rafQueue {A} _.
Arguments rafNext {A} _.
Arguments ran {A} _.

Definition rafThrottle (A : Type) : Throttle A :=
  {| requestId := None; lastTime := 0; rafQueue := [];
     rafNext := 1; ran := [] |}.

(** [const interval = 1000 / fps]: a double, [Infinity] when [fps] is
    zero. *)
Definition interval (fps : Q) : Double := js_div (DFin 1000) (DFin fps).

(** [currentTime - lastTime >= interval], the difference rounded as the
    subtraction of two doubles is. *)
Definition due (fps : Q) (currentTime last : Q) : bool :=
  js_ge (js_sub (DFin currentTime) (DFin last)) (interval fps).

Definition wrapped {A : Type} (args : A) (t : Throttle A) : Throttle A :=
  match requestId t with
  | None =>
      {| requestId := Some (rafNext t);
         lastTime := lastTime t;
         rafQueue := rafQueue t ++ [(rafNext t, args)];
         rafNext := S (rafNext t);
         ran := ran t |}
  | Some _ => t
  end.

(** The function passed to [requestAnimationFrame]. *)
Definition onFrame {A S : Type} (fps : Q) (callback : A -> S -> S) (args : A)
    (currentTime : Q) (ts : Throttle A * S) : Throttle A * S :=
  let '(t, s) := ts in
  if due fps currentTime (lastTime t) then
    ({| requestId := None;
        lastTime := currentTime;
        rafQueue := rafQueue t;
        rafNext := rafNext t;
        ran := ran t ++ [(currentTime, args)] |},
     callback args s)
  else
    ({| requestId := None;
        lastTime := lastTime t;
        rafQueue := rafQueue t;
        rafNext := rafNext t;
        ran := ran t |},
     s).

Definition frame {A S : Type} (fps : Q) (callback : A -> S -> S)
    (currentTime : Q) (ts : Throttle A * S) : Throttle A * S :=
  let '(t, s) := ts in
  fold_left (fun acc '(_, args) => onFrame fps callback args currentTime acc)
    (rafQueue t)
    ({| requestId := requestId t; lastTime := lastTime t; rafQueue := [];
        rafNext := rafNext t; ran := ran t |}, s).

Definition throttle_step {A S : Type} (fps : Q) (callback : A -> S -> S)
    (ts : Throttle A * S) (ev : ThrottleEvent A) : Throttle A * S :=
  match ev with
  | Call args => (wrapped args (fst ts), snd ts)
  | Paint currentTime => frame fps callback currentTime ts
  end.

(** *** The menu: [toggleMenu = utils.rafThrottle(() => ..., 30)] *)

Definition menu_step (els : MenuElements) (s : Throttle nat * Menu)
    (ev : MenuEvent) : Throttle nat * Menu :=
  match ev with
  | Click e => (wrapped e (fst s), snd s)
  | Frame currentTime => frame 30 (fun _ => toggle els) currentTime s
  | KeyDown key => (fst s, keydown els key (snd s))
  end.

Definition menu_run (els : MenuElements) (evs : list MenuEvent)
    (s : Throttle nat * Menu) : Throttle nat * Menu :=
  fold_left (menu_step els) evs s.

(** *** [utils.processBatch(items, processor, batchSize)] *)

(** [items.slice(start, end)]: negative bounds count from the end, and
    both are clamped to the array. *)
Definition js_slice {A : Type} (items : list A) (start end_ : Z) : list A :=
  let len := Z.of_nat (length items) in
  let clamp (i : Z) := if (i <? 0)%Z then Z.max (len + i) 0 else Z.min i len in
  let k := clamp start in
  let final := clamp end_ in
  firstn (Z.to_nat (final - k)) (skipn (Z.to_nat k) items).

(** The closure variable [index], whether [processNext] is registered
    with [requestAnimationFrame], and two logs: the items handed to
    [processor] so far and the batches they came in. *)
Record Batch (A : Type) := {
  index : Z;
  scheduled : bool;
  visited : list A;
  batches : list (list A)
}.
Arguments index {A} _.
Arguments scheduled {A} _.
Arguments visited {A} _.
Arguments batches {A} _.

Definition processNext {A : Type} (items : list A) (batchSize : Z)
    (b : Batch A) : Batch A :=
  let batch := js_slice items (index b) (index b + batchSize) in
  {| index := index b + batchSize;
     scheduled := (index b + batchSize <? Z.of_nat (length items))%Z;
     visited := visited b ++ batch;
     batches := batches b ++ [batch] |}.

Definition processBatch {A : Type} (items : list A) (batchSize : Z) : Batch A :=
  let b := {| index := 0; scheduled := false; visited := []; batches := [] |} in
  if (0 <? Z.of_nat (length items))%Z then processNext items batchSize b else b.

(** One frame of the host: a registered [processNext] runs. *)
Definition batch_frame {A : Type} (items : list A) (batchSize : Z)
    (b : Batch A) : Batch A :=
  if scheduled b then processNext items batchSize b else b.

(** The batch processor after [n] frames. *)
Definition batch_after {A : Type} (items : list A) (batchSize : Z) (n : nat)
  : Batch A :=
  Nat.iter n (batch_frame items batchSize) (processBatch items batchSize).

(** *** [animationHelpers] and the section handlers *)

Section WithPage.

Variable env : Env.
Variable cfg : Config.
Variable page : Page.

(** [utils.qs(selector, section)] and [utils.qsa(selector, section)]. *)
Definition qs (selector : string) (section : Elem) : option Elem :=
  querySelector page selector (Some section).

Definition qsa (selector : string) (section : Elem) : list Elem :=
  querySelectorAll page selector (Some section).

(** The tween every text reveal falls back to on a low-end device. *)
Definition fade_vars : Vars :=
  [("opacity", VNum 0); ("y", VNum 20); ("duration", VNum 0.5)].

Definition chars_vars : Vars :=
  [("opacity", VNum 0); ("yPercent", VNum 100); ("duration", VNum 0.5);
   ("stagger", VObj [("amount", VNum 0.3); ("from", VStr "start")])].

Definition splitHeading (element : option Elem) (delay : Q)
  : Build (option Split) :=
  match element with
  | None => ret None
  | Some el =>
      if isLowEndDevice cfg then
        timeline_add (StepFrom (Elems [el]) fade_vars (At delay)) ;;;
        ret None
      else
        let* cached := splitTexts_get el in
        match cached with
        | Some split =>
            timeline_add
              (StepFrom (Fragments (split_id split) "chars") chars_vars
                 (At delay)) ;;;
            ret (Some split)
        | None =>
            let splitType :=
              if (maxSplitChars cfg <? textLength page el)%nat then "words"
              else "chars, lines, words" in
            let* split := SplitText_create [el] splitType "chars" in
            classList_add (Fragments (split_id split) "chars") "split-char" ;;;
            classList_add (Fragments (split_id split) "masks") "split-mask" ;;;
            splitTexts_set el split ;;;
            timeline_add
              (StepFrom (Fragments (split_id split) "chars || words")
                 chars_vars (At delay)) ;;;
            ret (Some split)
        end
  end.

(** [elements] is [null], an array or a node list; a node list is wrapped
    in an array before it reaches [SplitText.create], which flattens it. *)
Definition splitParagraph (elements : option (list Elem)) (delay : Q)
  : Build (option Split) :=
  match elements with
  | None => ret None
  | Some [] => ret None
  | Some els =>
      if isLowEndDevice cfg then
        timeline_add (StepFrom (Elems els) fade_vars (At delay)) ;;;
        ret None
      else
        let* split := SplitText_create els "lines" "lines" in
        classList_add (Fragments (split_id split) "lines") "split-line" ;;;
        classList_add (Fragments (split_id split) "masks") "split-mask" ;;;
        timeline_add
          (StepFrom (Fragments (split_id split) "lines")
             [("opacity", VNum 0); ("yPercent", VNum 100);
              ("duration", VNum 0.45);
              ("stagger", VNum (if isMobile env cfg then 0.1 else 0.15))]
             (At delay)) ;;;
        ret (Some split)
  end.

Definition animateButtons (buttons : list Elem) (delay : Q) : Build unit :=
  when (nonempty buttons)
    (timeline_add
       (StepFrom (Elems buttons)
          [("opacity", VNum 0); ("yPercent", VNum 100); ("stagger", VNum 0.15);
           ("duration", VNum 0.7)]
          (At delay))).

Definition animateImage (image : option Elem) (delay : Q) (scale : Q)
  : Build unit :=
  match image with
  | None => ret tt
  | Some img =>
      when (isSafari env || isIOS env)
        (gsap_set (Elems [img]) [("willChange", VStr "transform, opacity")]) ;;;
      timeline_add
        (StepFrom (Elems [img])
           [("opacity", VNum 0); ("yPercent", VNum 50); ("scale", VNum scale);
            ("duration", VNum 0.7);
            ("clearProps", VStr (if isSafari env then "willChange" else ""))]
           (At delay))
  end.

Definition animateCards (cards : list Elem) (delay : Q) (yPercent : Q)
  : Build unit :=
  when (nonempty cards)
    (timeline_add
       (StepFrom (Elems cards)
          [("opacity", VNum 0); ("yPercent", VNum yPercent);
           ("stagger", VNum 0.15); ("duration", VNum 0.7)]
          (At delay))).

(** [timeline.from(targets, vars, at)] as the handlers call it directly. *)
Definition from (targets : list Elem) (vars : Vars) (at_ : Q) : Build unit :=
  timeline_add (StepFrom (Elems targets) vars (At at_)).

Definition data_animate : string := attr_sel "data-animate" "true".

(** [x ? [x] : null]. *)
Definition array_of (e : option Elem) : option (list Elem) :=
  match e with Some x => Some [x] | None => None end.

Definition Handler : Type := Elem -> Build unit.

Definition animateHeroMain : Handler := fun section =>
  animateImage (qs ".hero_main_content" section) 0 0.85 ;;;
  splitHeading (qs ".c-heading > *" section) 0.68 ;;;
  splitParagraph (array_of (qs (data_animate +:+ " p") section)) 1 ;;;
  animateButtons (qsa ".u-button-group > * > *" section) 1.25 ;;;
  animateImage (qs ".hero_main_visual" section) 1.4 0.85.

Definition animateStackedContent : Handler := fun section =>
  let tagWrap := qs ".tag_wrap" section in
  when (truthy tagWrap)
    (from (targets_of tagWrap)
       [("opacity", VNum 0); ("yPercent", VNum 100); ("duration", VNum 0.7)] 0) ;;;
  splitHeading (qs ".c-heading > *" section) 0.3 ;;;
  splitParagraph (Some (qsa (data_animate +:+ " p") section)) 0.4 ;;;
  animateButtons (qsa ".u-button-group > * > *" section) 0.9 ;;;
  animateCards (qsa ".card_primary_wrap, .card_img-bottom_outer" section) 0.65 30.

Definition animateImageSplit : Handler := fun section =>
  let listItems := qsa ".c-text > ul > li" section in
  splitHeading (qs ".c-heading > *" section) 0 ;;;
  splitParagraph (Some (qsa (data_animate +:+ " > *:not(ul)") section)) 0.4 ;;;
  when (nonempty listItems)
    (from listItems
       [("opacity", VNum 0); ("yPercent", VNum 100); ("duration", VNum 0.75);
        ("stagger", VNum 0.05)] 0.4) ;;;
  animateButtons (qsa ".u-button-group > * > *" section) 0.6 ;;;
  animateImage (qs ".c-image-wrap" section) 0.15 0.85.

Definition animateIconsGrid : Handler := fun section =>
  splitHeading (qs ".c-heading > *" section) 0 ;;;
  splitParagraph (Some (qsa (data_animate +:+ " p") section)) 0.6 ;;;
  animateButtons (qsa ".u-button-group > * > *" section) 0.3 ;;;
  animateCards (qsa ".card_primary_wrap" section) 0.4 40.

Definition animateCTA : Handler := fun section =>
  animateImage (qs ".c-image-wrap" section) 0 0.85 ;;;
  splitHeading (qs ".c-heading > *" section) 0.5 ;;;
  splitParagraph (Some (qsa (data_animate +:+ " p") section)) 0.6 ;;;
  animateButtons (qsa ".u-button-group > * > *" section) 0.7.

Definition animateFooter : Handler := fun section =>
  let logoWrap := qs ".footer_logo_wrap" section in
  let menuItems := qsa ".footer_nav > *" section in
  let logoPaths := qsa ".footer_logo > *" section in
  when (truthy logoWrap)
    (from (targets_of logoWrap)
       [("opacity", VNum 0); ("yPercent", VNum 100); ("duration", VNum 0.4)] 0) ;;;
  splitParagraph (array_of (qs (data_animate +:+ " p") section)) 0.3 ;;;
  when (nonempty menuItems)
    (from menuItems
       [("opacity", VNum 0); ("yPercent", VNum 100); ("stagger", VNum 0.15);
        ("duration", VNum 0.7)] 0.5) ;;;
  when (nonempty logoPaths)
    (from logoPaths
       [("opacity", VNum 0); ("yPercent", VNum 100); ("stagger", VNum 0.05);
        ("ease", VStr "elastic.inOut(1,0.4)"); ("duration", VNum 1.5)] 0.16).

Definition animateDownload : Handler := fun section =>
  let logo := qs ".download_main_logo" section in
  let buttons :=
    qsa ".download_main_button_wrap > *, .u-button-group > * > *" section in
  when (truthy logo)
    (from (targets_of logo)
       [("opacity", VNum 0); ("yPercent", VNum 100); ("duration", VNum 0.4)] 0) ;;;
  splitHeading (qs ".c-heading > *" section) 0.3 ;;;
  splitParagraph (Some (qsa (data_animate +:+ " p") section)) 0.5 ;;;
  when (nonempty buttons)
    (from buttons
       [("opacity", VNum 0); ("yPercent", VNum 20); ("stagger", VNum 0.15)] 0.7) ;;;
  animateImage (qs ".c-image-cs-wrap" section) 0.15 0.85 ;;;
  animateImage (qs ".download_main_play-icon" section) 0.65 0.85.

Definition animateHeroBanner : Handler := fun section =>
  animateImage (qs ".hero_banner_contain" section) 0 0.85 ;;;
  splitHeading (qs ".c-heading > *" section) 0.7 ;;;
  splitParagraph (Some (qsa (data_animate +:+ " p") section)) 0.9 ;;;
  animateButtons (qsa ".u-button-group > * > *" section) 0.95.

Definition animateLandingPageHero : Handler := fun section =>
  let svgElements := qsa ".hero_lp_svg" section in
  splitHeading (qs ".c-heading > *" section) 0.68 ;;;
  splitParagraph (array_of (qs (data_animate +:+ " p") section)) 1 ;;;
  animateButtons (qsa ".u-button-group > * > *" section) 1.25 ;;;
  animateImage (qs ".c-image-wrap" section) 1.4 0.85 ;;;
  when (nonempty svgElements)
    (from svgElements
       [("opacity", VNum 0); ("yPercent", VNum 100); ("stagger", VNum 0.15)] 1.6).

Definition animateTabs : Handler := fun section =>
  let tabButtons := qsa ".tab_button_item" section in
  splitHeading (qs ".tab_left .c-heading > *" section) 0 ;;;
  when (nonempty tabButtons)
    (from tabButtons
       [("opacity", VNum 0); ("yPercent", VNum 100); ("stagger", VNum 0.05);
        ("duration", VNum 0.7)] 0.3) ;;;
  splitParagraph (Some (qsa (".tab_left " +:+ data_animate +:+ " p") section)) 0.4 ;;;
  animateButtons (qsa ".u-button-group > * > *" section) 0.9 ;;;
  animateCards (qsa ".card_primary_wrap, .card_img-bottom_outer" section) 0.65 30.

Definition animateFeaturedTestimonials : Handler := fun section =>
  let cards := qsa ".card_primary_wrap" section in
  when (nonempty cards)
    (from cards
       [("opacity", VNum 0); ("yPercent", VNum 100); ("stagger", VNum 0.15)] 0) ;;;
  animateImage (qs ".c-image-wrap" section) 0.15 0.85.

Definition animateFAQ : Handler := fun section =>
  let accordionItems := qsa ".accordion_list > *" section in
  when (nonempty accordionItems)
    (from accordionItems
       [("opacity", VNum 0); ("yPercent", VNum 100); ("stagger", VNum 0.15)] 0).

(** The object literal [animationMap] of the observer strategy. *)
Definition animationMap : list (string * Handler) :=
  [ ("hero-main", animateHeroMain);
    ("stacked-content", animateStackedContent);
    ("image-split", animateImageSplit);
    ("icons-grid", animateIconsGrid);
    ("cta", animateCTA);
    ("footer", animateFooter);
    ("download", animateDownload);
    ("hero-banner", animateHeroBanner);
    ("landingpage-hero", animateLandingPageHero);
    ("tabs", animateTabs);
    ("featured-testimonials", animateFeaturedTestimonials);
    ("faq", animateFAQ) ].

(** The property names [animationMap] inherits from [Object.prototype]:
    [animationMap[name]] is truthy for each of them. *)
Definition Object_prototype : list string :=
  [ "constructor"; "__defineGetter__"; "__defineSetter__"; "hasOwnProperty";
    "__lookupGetter__"; "__lookupSetter__"; "isPrototypeOf";
    "propertyIsEnumerable"; "toString"; "valueOf"; "__proto__";
    "toLocaleString" ].

Inductive Registered :=
| Own (h : Handler)
| Inherited (name : string)
| Missing.

Fixpoint assoc {A : Type} (key : string) (l : list (string * A)) : option A :=
  match l with
  | [] => None
  | (k, v) :: rest => if String.eqb key k then Some v else assoc key rest
  end.

(** [animationMap[trigger]]; an absent attribute reads the key
    ["undefined"]. *)
Definition animationMap_get (trigger : option string) : Registered :=
  let key := default "undefined" trigger in
  match assoc key animationMap with
  | Some h => Own h
  | None =>
      if existsb (String.eqb key) Object_prototype then Inherited key
      else Missing
  end.

(** [handler(section, timeline)] for an inherited value, called with
    [this] undefined: [Object] returns its argument and [toString]
    answers for [undefined]; [__proto__] is not callable and the other
    methods coerce [this] to an object, each a [TypeError]. *)
Definition inherited_call_raises (name : string) : bool :=
  negb (String.eqb name "constructor" || String.eqb name "toString").

(** *** The caches and the session state *)

(** An [IntersectionObserver]: the elements it watches. *)
Record Observer := {
  observed : gset Elem;
  disconnected : bool
}.

Record State := {
  (** [element.style.visibility], where the script has set it. *)
  visibility : gmap Elem string;
  (** [cache.animations], a [WeakMap] from sections to timelines. *)
  animations : gmap Elem Timeline;
  (** [cache.timelines], a [Map] from names to timeline identities. *)
  timelines : gmap string nat;
  (** [cache.observers], a [Map] from names to observer objects, which
      live in [observer_heap]. *)
  observers : gmap string nat;
  observer_heap : gmap nat Observer;
  (** [utils.domCache], a [Map]. *)
  domCache : gmap string Elem;
  (** The section each call of [gsap.timeline] for a section was made
      for; the position in the list is the identity of the timeline. *)
  created : list Elem;
  (** [ScrollTrigger.getAll()], with the instances already killed. *)
  scrollTriggers : list ScrollTrigger;
  (** Whether [gsap.globalTimeline.clear()] has run. *)
  globalTimeline_cleared : bool;
  libs : Libs
}.

(** The kind of each cache, as the object literal [cache] and
    [utils.domCache] construct them. *)
Definition animations_kind : Builtin := WeakMapObject.
Definition splitTexts_kind : Builtin := WeakMapObject.
Definition timelines_kind : Builtin := MapObject.
Definition observers_kind : Builtin := MapObject.
Definition domCache_kind : Builtin := MapObject.

Definition initial : State :=
  {| visibility := ∅; animations := ∅; timelines := ∅; observers := ∅;
     observer_heap := ∅; domCache := ∅; created := [];
     scrollTriggers := []; globalTimeline_cleared := false;
     libs := no_libs |}.

(** [section.style.visibility = "visible"]. *)
Definition reveal (section : Elem) (st : State) : State :=
  {| visibility := <[section := "visible"]> (visibility st);
     animations := animations st;
     timelines := timelines st;
     observers := observers st;
     observer_heap := observer_heap st;
     domCache := domCache st;
     created := created st;
     scrollTriggers := scrollTriggers st;
     globalTimeline_cleared := globalTimeline_cleared st;
     libs := libs st |}.

(** [gsap.timeline(options)], called while initialising [section];
    [trigger] is the ScrollTrigger the options ask for, if any. *)
Definition gsap_timeline (section : Elem) (options : Vars)
    (trigger : option ScrollTrigger) (st : State) : Timeline * State :=
  ({| tl_id := length (created st); tl_options := options; tl_steps := [] |},
   {| visibility := visibility st;
      animations := animations st;
      timelines := timelines st;
      observers := observers st;
      observer_heap := observer_heap st;
      domCache := domCache st;
      created := created st ++ [section];
      scrollTriggers :=
        scrollTriggers st ++ match trigger with Some t => [t] | None => [] end;
      globalTimeline_cleared := globalTimeline_cleared st;
      libs := libs st |}).

(** [handler(section, timeline)]. *)
Definition run_handler (h : Handler) (section : Elem) (timeline : Timeline)
    (st : State) : Timeline * State :=
  let '(steps, libs') := exec (h section) (tl_steps timeline, libs st) in
  ({| tl_id := tl_id timeline; tl_options := tl_options timeline;
      tl_steps := steps |},
   {| visibility := visibility st;
      animations := animations st;
      timelines := timelines st;
      observers := observers st;
      observer_heap := observer_heap st;
      domCache := domCache st;
      created := created st;
      scrollTriggers := scrollTriggers st;
      globalTimeline_cleared := globalTimeline_cleared st;
      libs := libs' |}).

(** [cache.animations.set(section, timeline)]. *)
Definition animations_set (section : Elem) (timeline : Timeline) (st : State)
  : State :=
  {| visibility := visibility st;
     animations := <[section := timeline]> (animations st);
     timelines := timelines st;
     observers := observers st;
     observer_heap := observer_heap st;
     domCache := domCache st;
     created := created st;
     scrollTriggers := scrollTriggers st;
     globalTimeline_cleared := globalTimeline_cleared st;
     libs := libs st |}.

(** [observer.unobserve(target)] on the observer object [obs]. *)
Definition unobserve (obs : nat) (target : Elem) (st : State) : State :=
  {| visibility := visibility st;
     animations := animations st;
     timelines := timelines st;
     observers := observers st;
     observer_heap :=
       alter (fun o => {| observed := observed o ∖ {[target]};
                          disconnected := disconnected o |})
         obs (observer_heap st);
     domCache := domCache st;
     created := created st;
     scrollTriggers := scrollTriggers st;
     globalTimeline_cleared := globalTimeline_cleared st;
     libs := libs st |}.

Definition defaults_only : Vars :=
  [("defaults", VObj [("ease", VStr "back.inOut")])].

(** An entry of [animationConfigs]. *)
Record AnimationConfig := {
  selector : string;
  handler : Handler;
  start : option string
}.

(** [config.start || CONFIG.scrollTrigger.start]. *)
Definition start_of (config : AnimationConfig) : string :=
  default "top 70%" (start config).

(** *** The three initialisers *)

(** [setupScrollTrigger(section, config)]. *)
Definition setupScrollTrigger (section : Elem) (config : AnimationConfig)
    (st : State) : State :=
  if truthy (animations st !! section) then st
  else
    let st1 := reveal section st in
    let options :=
      [("scrollTrigger",
        VObj [("trigger", VElem section);
              ("start", VStr (start_of config));
              ("once", VBool true);
              ("fastScrollEnd", VBool true);
              ("preventOverlaps", VBool true)]);
       ("defaults", VObj [("ease", VStr "back.inOut")])] in
    let '(timeline, st2) :=
      gsap_timeline section options
        (Some {| st_trigger := section; st_start := start_of config;
                 st_alive := true |}) st1 in
    let '(timeline', st3) := run_handler (handler config) section timeline st2 in
    animations_set section timeline' st3.

(** The [onEnter] callback of [ScrollTrigger.batch]. *)
Definition batch_section (config : AnimationConfig) (st : State)
    (section : Elem) : State :=
  if truthy (animations st !! section) then st
  else
    let st1 := reveal section st in
    let '(timeline, st2) := gsap_timeline section defaults_only None st1 in
    let '(timeline', st3) := run_handler (handler config) section timeline st2 in
    animations_set section timeline' st3.

Definition batch_onEnter (config : AnimationConfig) (batch : list Elem)
    (st : State) : State :=
  fold_left (batch_section config) batch st.

(** An [IntersectionObserverEntry]. *)
Record Entry := {
  target : Elem;
  isIntersecting : bool
}.

(** The body of [entries.forEach(entry => ...)] in the callback of the
    observer object [obs]. *)
Definition on_entry (obs : nat) (entry : Entry) (st : State)
  : Completion State :=
  if isIntersecting entry && negb (truthy (animations st !! target entry)) then
    match animationMap_get (animationTrigger page (target entry)) with
    | Missing => Normal st
    | Own h =>
        let st1 := reveal (target entry) st in
        let '(timeline, st2) :=
          gsap_timeline (target entry) defaults_only None st1 in
        let '(timeline', st3) := run_handler h (target entry) timeline st2 in
        Normal (unobserve obs (target entry)
                  (animations_set (target entry) timeline' st3))
    | Inherited name =>
        let st1 := reveal (target entry) st in
        let '(timeline, st2) :=
          gsap_timeline (target entry) defaults_only None st1 in
        if inherited_call_raises name then
          Throw (TypeError "handler cannot be called") st2
        else
          Normal (unobserve obs (target entry)
                    (animations_set (target entry) timeline st2))
    end
  else Normal st.

Definition observer_callback (obs : nat) (entries : list Entry) (st : State)
  : Completion State :=
  fold_left (fun c entry => c >>> on_entry obs entry) entries (Normal st).

(** An attempt to initialise sections, by whichever strategy. *)
Inductive Attempt :=
| SetupScrollTrigger (section : Elem) (config : AnimationConfig)
| BatchEnter (config : AnimationConfig) (batch : list Elem)
| Intersection (obs : nat) (entries : list Entry).

Definition attempt (st : State) (a : Attempt) : State :=
  match a with
  | SetupScrollTrigger section config => setupScrollTrigger section config st
  | BatchEnter config batch => batch_onEnter config batch st
  | Intersection obs entries => final (observer_callback obs entries st)
  end.

Definition attempts (l : list Attempt) (st : State) : State :=
  fold_left attempt l st.

(** The attempts that reach the initialising branch for [section]: the
    two ScrollTrigger paths always do, the observer's callback when the
    entry intersects and [animationMap] has a handler of its own for the
    section's kind. *)
Inductive initialises (section : Elem) : Attempt -> Prop :=
| init_setup config :
    initialises section (SetupScrollTrigger section config)
| init_batch config :
    initialises section (BatchEnter config [section])
| init_entry obs h :
    animationMap_get (animationTrigger page section) = Own h ->
    initialises section
      (Intersection obs [{| target := section; isIntersecting := true |}]).

(** The attempts made on [section] alone. *)
Inductive retries (section : Elem) : Attempt -> Prop :=
| retry_setup config :
    retries section (SetupScrollTrigger section config)
| retry_batch config :
    retries section (BatchEnter config [section])
| retry_entry obs intersecting :
    retries section
      (Intersection obs [{| target := section; isIntersecting := intersecting |}]).

(** The timelines constructed for [section] so far. *)
Definition constructed_for (section : Elem) (st : State) : nat :=
  length (filter (fun s => s = section) (created st)).

(** *** [cleanup] *)

Definition kill_all (st : State) : State :=
  {| visibility := visibility st;
     animations := animations st;
     timelines := timelines st;
     observers := observers st;
     observer_heap := observer_heap st;
     domCache := domCache st;
     created := created st;
     scrollTriggers := map kill (scrollTriggers st);
     globalTimeline_cleared := globalTimeline_cleared st;
     libs := libs st |}.

Definition clear_animations (st : State) : State :=
  {| visibility := visibility st;
     animations := ∅;
     timelines := timelines st;
     observers := observers st;
     observer_heap := observer_heap st;
     domCache := domCache st;
     created := created st;
     scrollTriggers := scrollTriggers st;
     globalTimeline_cleared := globalTimeline_cleared st;
     libs := libs st |}.

Definition clear_timelines (st : State) : State :=
  {| visibility := visibility st;
     animations := animations st;
     timelines := ∅;
     observers := observers st;
     observer_heap := observer_heap st;
     domCache := domCache st;
     created := created st;
     scrollTriggers := scrollTriggers st;
     globalTimeline_cleared := globalTimeline_cleared st;
     libs := libs st |}.

Definition disconnect (o : Observer) : Observer :=
  {| observed := ∅; disconnected := true |}.

(** [cache.observers.forEach(observer => observer.disconnect())]. *)
Definition disconnect_all (st : State) : State :=
  {| visibility := visibility st;
     animations := animations st;
     timelines := timelines st;
     observers := observers st;
     observer_heap :=
       foldr (fun entry heap => alter disconnect (snd entry) heap)
         (observer_heap st) (map_to_list (observers st));
     domCache := domCache st;
     created := created st;
     scrollTriggers := scrollTriggers st;
     globalTimeline_cleared := globalTimeline_cleared st;
     libs := libs st |}.

Definition clear_observers (st : State) : State :=
  {| visibility := visibility st;
     animations := animations st;
     timelines := timelines st;
     observers := ∅;
     observer_heap := observer_heap st;
     domCache := domCache st;
     created := created st;
     scrollTriggers := scrollTriggers st;
     globalTimeline_cleared := globalTimeline_cleared st;
     libs := libs st |}.

Definition clear_domCache (st : State) : State :=
  {| visibility := visibility st;
     animations := animations st;
     timelines := timelines st;
     observers := observers st;
     observer_heap := observer_heap st;
     domCache := ∅;
     created := created st;
     scrollTriggers := scrollTriggers st;
     globalTimeline_cleared := globalTimeline_cleared st;
     libs := libs st |}.

Definition globalTimeline_clear (st : State) : State :=
  {| visibility := visibility st;
     animations := animations st;
     timelines := timelines st;
     observers := observers st;
     observer_heap := observer_heap st;
     domCache := domCache st;
     created := created st;
     scrollTriggers := scrollTriggers st;
     globalTimeline_cleared := true;
     libs := libs st |}.

Definition cleanup (st : State) : Completion State :=
  Normal (kill_all st)
  >>> call_clear animations_kind clear_animations
  >>> call_clear timelines_kind clear_timelines
  >>> (fun st => Normal (disconnect_all st))
  >>> call_clear observers_kind clear_observers
  >>> call_clear domCache_kind clear_domCache
  >>> (fun st => Normal (globalTimeline_clear st)).

(** *** [WebflowAnimations.getPerformanceMetrics] *)

Record Metrics := {
  animationCount : JSValue;
  timelineCount : JSValue;
  observerCount : JSValue;
  domCacheSize : JSValue
}.

Definition getPerformanceMetrics (st : State) : Metrics :=
  {| animationCount := get_size animations_kind (size (animations st));
     timelineCount := get_size timelines_kind (size (timelines st));
     observerCount := get_size observers_kind (size (observers st));
     domCacheSize := get_size domCache_kind (size (domCache st)) |}.

End WithPage.

(** *** [utils.qs(selector, parent, useCache)] and [utils.domCache] *)

(** The key: [parent === document ? 'doc' : 'el'], a dash, the selector. *)
Definition qs_key (selector : string) (parent : option Elem) : string :=
  (if parent is None then "doc" else "el") +:+ "-" +:+ selector.

(** The lookup with its third argument; the result is the element and the
    cache afterwards. *)
Definition qs_useCache (page : Page) (selector : string) (parent : option Elem)
    (useCache : bool) (domCache : gmap string Elem)
  : option Elem * gmap string Elem :=
  let key := qs_key selector parent in
  if useCache && truthy (domCache !! key) then (domCache !! key, domCache)
  else
    let element := querySelector page selector parent in
    (element,
     match element with
     | Some el => if useCache then <[key := el]> domCache else domCache
     | None => domCache
     end).

(** *** [utils.debounce(func, wait, immediate = false)] *)

(** The wrapped function, called at [now]. *)
Definition debounced {A U : Type} (func : A -> U -> U) (wait : Q)
    (immediate : bool) (now : Q) (args : A) (ds : Debounce A * U)
  : Debounce A * U :=
  let '(d, u) := ds in
  let callNow := immediate && negb (truthy (timeout d)) in
  let '(id, h) := setTimeout now wait args (clearTimeout (timeout d) (host d)) in
  ({| timeout := Some id; host := h |}, if callNow then func args u else u).

(** [later]: [timeout = null; if (!immediate) func(...args)]. *)
Definition later {A U : Type} (func : A -> U -> U) (immediate : bool)
    (args : A) (ds : Debounce A * U) : Debounce A * U :=
  let '(d, u) := ds in
  ({| timeout := None; host := host d |},
   if immediate then u else func args u).

Definition elapse {A U : Type} (func : A -> U -> U) (immediate : bool)
    (now : Q) (ds : Debounce A * U) : Debounce A * U :=
  let '(d, u) := ds in
  fold_left (fun acc t => later func immediate (snd (snd t)) acc)
    (due_timers now (host d))
    ({| timeout := timeout d; host := without_due now (host d) |}, u).

Definition debounce_step {A U : Type} (func : A -> U -> U) (wait : Q)
    (immediate : bool) (ds : Debounce A * U) (ev : TimerEvent A)
  : Debounce A * U :=
  match ev with
  | Invoke now args => debounced func wait immediate now args ds
  | Elapse now => elapse func immediate now ds
  end.

(** *** [setupGlobalHandlers]: the resize listener *)

(** Besides [resizeTimer]: whether [document.body] has the class
    ['is-resizing'], and the calls of [ScrollTrigger.refresh(true)]. *)
Record Resizing := {
  resizeTimer : Debounce unit;
  is_resizing : bool;
  refreshes : nat
}.

Definition not_resizing : Resizing :=
  {| resizeTimer := no_debounce unit; is_resizing := false; refreshes := 0 |}.

(** [handleResize], on a [resize] event at [now]. *)
Definition handleResize (now : Q) (rs : Resizing * State) : Resizing * State :=
  let '(r, st) := rs in
  let '(id, h) :=
    setTimeout now 250 tt
      (clearTimeout (timeout (resizeTimer r)) (host (resizeTimer r))) in
  ({| resizeTimer := {| timeout := Some id; host := h |};
      is_resizing := true;
      refreshes := refreshes r |},
   st).

(** The function handed to [setTimeout]. *)
Definition resize_settled (rs : Resizing * State) : Resizing * State :=
  let '(r, st) := rs in
  ({| resizeTimer := resizeTimer r;
      is_resizing := false;
      refreshes := S (refreshes r) |},
   clear_domCache st).

Definition resize_elapse (now : Q) (rs : Resizing * State) : Resizing * State :=
  let '(r, st) := rs in
  fold_left (fun acc _ => resize_settled acc)
    (due_timers now (host (resizeTimer r)))
    ({| resizeTimer :=
          {| timeout := timeout (resizeTimer r);
             host := without_due now (host (resizeTimer r)) |};
        is_resizing := is_resizing r;
        refreshes := refreshes r |},
     st).

Definition resize_step (rs : Resizing * State) (ev : TimerEvent unit)
  : Resizing * State :=
  match ev with
  | Invoke now _ => handleResize now rs
  | Elapse now => resize_elapse now rs
  end.

(** *** The three strategies of [init] *)

Section Init.

Variable env : Env.
Variable cfg : Config.
Variable page : Page.

(** The array [animationConfigs] of [initScrollTriggerAnimations]. *)
Definition config (kind : string) (h : Handler) (start : option string)
  : AnimationConfig :=
  {| selector := attr_sel "data-animation-trigger" kind;
     handler := h;
     start := start |}.

Definition animationConfigs : list AnimationConfig :=
  [ config "hero-main" (animateHeroMain env cfg page) None;
    config "stacked-content" (animateStackedContent env cfg page) None;
    config "image-split" (animateImageSplit env cfg page) None;
    config "icons-grid" (animateIconsGrid env cfg page) None;
    config "cta" (animateCTA env cfg page) None;
    config "footer" (animateFooter env cfg page) (Some "top 80%");
    config "download" (animateDownload env cfg page) (Some "top 80%");
    config "hero-banner" (animateHeroBanner env cfg page) (Some "top 80%");
    config "landingpage-hero" (animateLandingPageHero env cfg page) None;
    config "tabs" (animateTabs env cfg page) None;
    config "featured-testimonials" (animateFeaturedTestimonials env page) None;
    config "faq" (animateFAQ page) None ].

(** The fallback branch of [initScrollTriggerAnimations]: one
    [setupScrollTrigger] per section of each configuration. *)
Definition setup_sections (st : State) (config : AnimationConfig) : State :=
  fold_left (fun st section => setupScrollTrigger section config st)
    (querySelectorAll page (selector config) None) st.

(** The batch branch: [ScrollTrigger.batch] makes one trigger for each
    element of a configuration that matches something. *)
Definition batch_sections (st : State) (config : AnimationConfig) : State :=
  {| visibility := visibility st;
     animations := animations st;
     timelines := timelines st;
     observers := observers st;
     observer_heap := observer_heap st;
     domCache := domCache st;
     created := created st;
     scrollTriggers :=
       scrollTriggers st
       ++ map (fun el => {| st_trigger := el; st_start := start_of config;
                            st_alive := true |})
            (querySelectorAll page (selector config) None);
     globalTimeline_cleared := globalTimeline_cleared st;
     libs := libs st |}.

(** [hasBatch] is whether [ScrollTrigger.batch] exists;
    [CONFIG.scrollTrigger.batch] is [true]. *)
Definition initScrollTriggerAnimations (hasBatch : bool) (st : State) : State :=
  if hasBatch then fold_left batch_sections animationConfigs st
  else fold_left setup_sections animationConfigs st.

(** The elements [initIntersectionObserverAnimations] hands to
    [observer.observe], for the keys of [animationMap] in order. *)
Definition observed_elements : list Elem :=
  flat_map
    (fun kh => querySelectorAll page
                 (attr_sel "data-animation-trigger" (fst kh)) None)
    (animationMap env cfg page).

(** [initIntersectionObserverAnimations]: a new observer object watches
    those elements and is stored under ['main']. *)
Definition initIntersectionObserverAnimations (st : State) : State :=
  let obs := fresh (dom (observer_heap st)) in
  {| visibility := visibility st;
     animations := animations st;
     timelines := timelines st;
     observers := <["main" := obs]> (observers st);
     observer_heap :=
       <[obs := {| observed := list_to_set observed_elements;
                   disconnected := false |}]> (observer_heap st);
     domCache := domCache st;
     created := created st;
     scrollTriggers := scrollTriggers st;
     globalTimeline_cleared := globalTimeline_cleared st;
     libs := libs st |}.

(** The tween [initSimpleAnimations] gives a section. *)
Definition simple_tween (section : Elem) : Step :=
  StepFromTo (Elems [section])
    [("opacity", VNum 0); ("y", VNum 30)]
    [("opacity", VNum 1); ("y", VNum 0); ("duration", VNum 0.8);
     ("ease", VStr "power2.out");
     ("scrollTrigger",
      VObj [("trigger", VElem section); ("start", VStr "top 80%");
            ("once", VBool true)])]
    AtEnd.

Definition simple_section (acc : State * list Step) (section : Elem)
  : State * list Step :=
  let st := reveal section (fst acc) in
  ({| visibility := visibility st;
      animations := animations st;
      timelines := timelines st;
      observers := observers st;
      observer_heap := observer_heap st;
      domCache := domCache st;
      created := created st;
      scrollTriggers :=
        scrollTriggers st
        ++ [{| st_trigger := section; st_start := "top 80%";
               st_alive := true |}];
      globalTimeline_cleared := globalTimeline_cleared st;
      libs := libs st |},
   snd acc ++ [simple_tween section]).

(** [initSimpleAnimations]: the state afterwards and the tweens made. *)
Definition initSimpleAnimations (st : State) : State * list Step :=
  fold_left simple_section
    (querySelectorAll page "[data-animation-trigger]" None) (st, []).

(** The branch of [init] that wires the sections. *)
Definition init_animations (hasBatch : bool) (st : State) : State :=
  match init_strategy cfg with
  | SimpleAnimations => fst (initSimpleAnimations st)
  | IntersectionObserverAnimations => initIntersectionObserverAnimations st
  | ScrollTriggerAnimations => initScrollTriggerAnimations hasBatch st
  end.

End Init.

End Script.

(** ** The first revision (src/unnamed/part_000)

    It has no capability descriptor and no cache: every section
    initialiser splits its heading through [createSplitText]. *)

Module Legacy.

Definition createSplitText (el : list Elem) (type : string) : Build Split :=
  let* split := SplitText_create el type type in
  classList_add (Fragments (split_id split) "chars") "split-char" ;;;
  classList_add (Fragments (split_id split) "words") "split-word" ;;;
  classList_add (Fragments (split_id split) "lines") "split-line" ;;;
  classList_add (Fragments (split_id split) "masks") "split-mask" ;;;
  ret split.

(** The heading reveal each initialiser repeats:
    [if (heading) { const split = createSplitText(...); tl.from(split.chars, ...) }]. *)
Definition reveal_heading (heading : option Elem) (at_ : Q) : Build unit :=
  match heading with
  | None => ret tt
  | Some h =>
      let* split := createSplitText [h] "chars, lines, words" in
      timeline_add
        (StepFrom (Fragments (split_id split) "chars")
           [("opacity", VNum 0); ("yPercent", VNum 100); ("duration", VNum 0.5);
            ("stagger", VObj [("amount", VNum 0.3); ("from", VStr "start")])]
           (At at_))
  end.

(** *** The navigation menu of the first revision

    There is no [isOpen] flag and no throttle: the [data-nav] attribute is
    the state, read at every click and key press. *)

Record NavState := {
  nav_data_nav : option string;
  nav_is_opened : bool;
  nav_aria_label : option string;
  nav_tl : list Step
}.

(** [btn?.querySelectorAll("p") || []] and [btn?.querySelector(...)]. *)
Definition btnTexts (els : MenuElements) : list Elem :=
  if truthy (menuButton els) then buttonTexts els else [].

Definition btnIcon (els : MenuElements) : option Elem :=
  if truthy (menuButton els) then buttonIcon els else None.

Definition closeMenu (els : MenuElements) (n : NavState) : NavState :=
  {| nav_data_nav := Some "closed";
     nav_is_opened := if truthy (menuButton els) then false else nav_is_opened n;
     nav_aria_label := if truthy (menuButton els) then Some "Open menu"
                       else nav_aria_label n;
     nav_tl :=
       tl_clear (nav_tl n)
       ++ [ StepTo (Elems (targets_of (overlay els))) [("autoAlpha", VNum 0)] AtEnd;
            StepTo (Elems (targets_of (menu els))) [("xPercent", VNum 120)] (Rel "<");
            StepTo (Elems (btnTexts els)) [("yPercent", VNum 0)] (Rel "<");
            StepTo (Elems (targets_of (btnIcon els))) [("rotate", VNum 0)] (Rel "<");
            StepSet (Elems [navWrap els]) [("display", VStr "none")] AtEnd ] |}.

Definition openMenu (els : MenuElements) (n : NavState) : NavState :=
  {| nav_data_nav := Some "open";
     nav_is_opened := if truthy (menuButton els) then true else nav_is_opened n;
     nav_aria_label := if truthy (menuButton els) then Some "Close menu"
                       else nav_aria_label n;
     nav_tl :=
       tl_clear (nav_tl n)
       ++ [ StepSet (Elems [navWrap els]) [("display", VStr "block")] AtEnd;
            StepSet (Elems (targets_of (menu els))) [("xPercent", VNum 0)] (Rel "<");
            StepFromTo (Elems (btnTexts els))
              [("yPercent", VNum 0)]
              [("yPercent", VNum (-100)); ("stagger", VNum 0.2)] AtEnd;
            StepFromTo (Elems (targets_of (btnIcon els)))
              [("rotate", VNum 0)] [("rotate", VNum 315)] (Rel "<");
            StepFromTo (Elems (targets_of (overlay els)))
              [("autoAlpha", VNum 0)] [("autoAlpha", VNum 1)] (Rel "<");
            StepFromTo (Elems (bgPanels els))
              [("xPercent", VNum 101)]
              [("xPercent", VNum 0); ("stagger", VNum 0.12);
               ("duration", VNum 0.575)]
              (Rel "<");
            StepFromTo (Elems (menuLinks els))
              [("yPercent", VNum 140); ("rotate", VNum 10); ("autoAlpha", VNum 0)]
              [("yPercent", VNum 0); ("autoAlpha", VNum 1); ("rotate", VNum 0);
               ("stagger", VNum 0.05)]
              (Rel "<+=0.35");
            StepFromTo (Elems (fadeTargets els))
              [("autoAlpha", VNum 0); ("yPercent", VNum 50)]
              [("autoAlpha", VNum 1); ("yPercent", VNum 0); ("stagger", VNum 0.04)]
              (Rel "<+=0.2") ] |}.

(** The [click] listener of a toggle. *)
Definition click (els : MenuElements) (n : NavState) : NavState :=
  if decide (nav_data_nav n = Some "open") then closeMenu els n
  else openMenu els n.

(** The [keydown] listener. *)
Definition keydown (els : MenuElements) (key : string) (n : NavState) : NavState :=
  if String.eqb key "Escape" && bool_decide (nav_data_nav n = Some "open")
  then closeMenu els n
  else n.

(** The state after the [DOMContentLoaded] listener: the attributes are
    those of the markup, and the button gets a label only when it has
    none. *)
Definition initNav (els : MenuElements) (attr0 : option string) (cls0 : bool)
    (aria0 : option string) : NavState :=
  {| nav_data_nav := attr0;
     nav_is_opened := cls0;
     nav_aria_label :=
       if truthy (menuButton els) && negb (truthy aria0) then Some "Open menu"
       else aria0;
     nav_tl := [] |}.

(** *** Screen size helpers *)

Definition isLargeScreen (env : Env) : bool := (568 <? innerWidth env)%Z.

Definition getTriggerStart (env : Env) : string :=
  if isLargeScreen env then "top 70%" else "top 85%".

Definition getDelay (env : Env) (delay : Q) : Q :=
  if isLargeScreen env then delay else 0.

End Legacy.

(** * Vocabulary of the properties *)

(** ** Scheduling *)

(** At most one callback of the wrapped function is registered with the
    host, and [requestId] is its handle. *)
Definition one_pending {A : Type} (t : Script.Throttle A) : Prop :=
  match Script.requestId t with
  | None => Script.rafQueue t = []
  | Some h => exists args, Script.rafQueue t = [(h, args)]
  end.

(** The same for the throttle of jamboree.js. *)
Definition jone_pending {A : Type} (t : Jamboree.Throttle A) : Prop :=
  match Jamboree.requestId t with
  | None => Jamboree.rafQueue t = []
  | Some h => exists args, Jamboree.rafQueue t = [(h, args)]
  end.


(** A rational that is a double. *)
Definition representable (d : Q) : Prop :=
  exists d', round64 d = DFin d' /\ (d' == d)%Q.



(** The batch processor with a size that is not positive: the index
    never advances into the array. *)
Definition stalled {A : Type} (items : list A) (b : Script.Batch A) : Prop :=
  (Script.index b <= 0)%Z
  /\ (Script.index b = 0%Z -> Script.visited b = [])
  /\ exists m, Script.visited b = take m items.

(** After [n] frames, [c] batches of [size] items each have gone through,
    one per frame while more remain. *)
Definition chunked {A : Type} (items : list A) (size n : nat)
    (b : Script.Batch A) : Prop :=
  exists c,
    Script.index b = Z.of_nat (c * size)
    /\ Script.visited b = take (c * size) items
    /\ length (Script.batches b) = c
    /\ (forall i batch, Script.batches b !! i = Some batch ->
                        batch = take size (drop (i * size) items))
    /\ Script.scheduled b = (Z.of_nat (c * size) <? Z.of_nat (length items))%Z
    /\ (c <= S n)%nat
    /\ (Script.scheduled b = true -> c = S n).

(** ** The menu *)

(** The attribute says ["open"] exactly when the flag is set. *)
Definition in_sync (m : Menu) : Prop :=
  data_nav m = Some "open" <-> isOpen m = true.

(** The timeline holds the steps of the latest transition and nothing
    else. *)
Definition one_transition (els : MenuElements) (m : Menu) : Prop :=
  menu_tl m = [] \/ menu_tl m = open_steps els [] \/ menu_tl m = close_steps els [].

(** ** Section initialisation *)

(** What initialising a fresh section does to the cache and the log. *)
Definition initialised (sec : Elem) (st st' : Script.State) : Prop :=
  exists tl,
    Script.animations st' = <[sec := tl]> (Script.animations st)
    /\ tl_id tl = length (Script.created st)
    /\ Script.created st' = Script.created st ++ [sec]
    /\ Script.visibility st' = <[sec := "visible"]> (Script.visibility st)
    /\ Script.timelines st' = Script.timelines st
    /\ Script.observers st' = Script.observers st.

(** The entry of a section and the number of timelines built for it. *)
Definition settled (sec : Elem) (tl : Timeline) (st : Script.State) : Prop :=
  Script.animations st !! sec = Some tl
  /\ Script.constructed_for sec st = 1%nat.

(** The same for [animationCache] of jamboree.js. *)
Definition jsettled (sec : Elem) (tl : Timeline) (st : Jamboree.State) : Prop :=
  Jamboree.animationCache st !! sec = Some tl
  /\ Jamboree.constructed_for sec st = 1%nat.

(** ** Handlers *)

(** A computation that never calls [SplitText.create]. *)
Definition unsplit {A : Type} (c : Build A) : Prop :=
  forall s, splitCreated (snd (snd (c s))) = splitCreated (snd s).

(** ** Hosts, pages and sessions used as examples *)

Definition host_without_core_count : Env :=
  {| innerWidth := 1280; matchMedia_reduce := Some false;
     hardwareConcurrency := VUndefined; hasIntersectionObserver := true;
     isSafari := false; isIOS := false |}.

Definition desktop : Env :=
  {| innerWidth := 1280; matchMedia_reduce := Some false;
     hardwareConcurrency := VNumber (Finite 8);
     hasIntersectionObserver := true; isSafari := false; isIOS := false |}.

(** The animation library with its two plug-ins, and a page whose
    library failed to load. *)
Definition all_loaded : Script.Globals :=
  {| Script.has_gsap := true; Script.has_ScrollTrigger := true;
     Script.has_SplitText := true |}.

Definition without_gsap : Script.Globals :=
  {| Script.has_gsap := false; Script.has_ScrollTrigger := false;
     Script.has_SplitText := false |}.

Definition desktop_cfg : Script.Config :=
  {| Script.breakpoint := 768; Script.reducedMotion := false;
     Script.isLowEnd := false; Script.useIntersectionObserver := true;
     Script.maxSplitChars := 100; Script.batchSize := 5 |}.

(** A page whose sections all declare the kind [kind] and have no
    descendants the handlers look for. *)
Definition bare_page (kind : string) : Page :=
  {| querySelectorAll := fun _ _ => [];
     textLength := fun _ => 0%nat;
     animationTrigger := fun _ => Some kind |}.

Definition faq_config : Script.AnimationConfig :=
  {| Script.selector := attr_sel "data-animation-trigger" "faq";
     Script.handler := Script.animateFAQ (bare_page "faq");
     Script.start := None |}.

Definition hero_config : Jamboree.AnimationConfig :=
  {| Jamboree.selector := attr_sel "data-animation-trigger" "hero-banner";
     Jamboree.handler := fun _ => ret tt;
     Jamboree.start := Some "top 80%" |}.

(** A configuration with the reduced-motion preference set. *)
Definition reduced_cfg : Script.Config :=
  {| Script.breakpoint := 768; Script.reducedMotion := true;
     Script.isLowEnd := false; Script.useIntersectionObserver := true;
     Script.maxSplitChars := 100; Script.batchSize := 5 |}.

(** A session whose observer [0], registered as ['main'], watches
    section [5]. *)
Definition watching : Script.State :=
  {| Script.visibility := ∅; Script.animations := ∅; Script.timelines := ∅;
     Script.observers := {[ "main" := 0%nat ]};
     Script.observer_heap :=
       {[ 0%nat := {| Script.observed := {[ 5%nat ]};
                      Script.disconnected := false |} ]};
     Script.domCache := ∅; Script.created := [];
     Script.scrollTriggers := []; Script.globalTimeline_cleared := false;
     Script.libs := no_libs |}.

Definition sample_menu : MenuElements :=
  {| navWrap := 1; overlay := Some 2%nat; menu := Some 3%nat;
     bgPanels := [4%nat; 5%nat]; menuLinks := [6%nat; 7%nat; 8%nat];
     fadeTargets := [9%nat]; menuButton := Some 10%nat;
     buttonTexts := [11%nat; 12%nat]; buttonIcon := Some 13%nat |}.

(** Calls that each come less than [wait] after the one before; [last]
    is the time of the call before the first of [calls]. *)
Fixpoint tight {A : Type} (wait last : Q) (calls : list (Q * A)) : Prop :=
  match calls with
  | [] => True
  | (t, _) :: rest => (t < last + wait)%Q /\ tight wait t rest
  end.

(** The events of a burst: the clock reaches the time of each call, and
    the call is made. *)
Definition burst_events {A : Type} (calls : list (Q * A)) : list (TimerEvent A) :=
  flat_map (fun ta => [Elapse (fst ta); Invoke (fst ta) (snd ta)]) calls.

(** A debounced function with one timer pending, set by a call at [t]
    with [args]. *)
Definition armed {A : Type} (wait t : Q) (args : A) (d : Debounce A) : Prop :=
  exists id,
    timeout d = Some id
    /\ pending (host d) = [(id, ((t + wait)%Q, args))].

(** The sections [initScrollTriggerAnimations] visits, in order, each
    with the configuration whose selector matched it. *)
Definition flat_sections (page : Page) (configs : list Script.AnimationConfig)
  : list (Elem * Script.AnimationConfig) :=
  flat_map (fun c => map (fun s => (s, c))
                       (querySelectorAll page (Script.selector c) None))
    configs.

(** A page with one button wrapper, [1], that holds the clip [2]. *)
Definition button_page : Page :=
  {| querySelectorAll := fun selector parent =>
       if String.eqb selector "[data-btn='wrap']" then
         (if parent is None then [1%nat] else [])
       else if String.eqb selector "[data-btn='clip']" then [2%nat]
       else [];
     textLength := fun _ => 0%nat;
     animationTrigger := fun _ => None |}.

(** Element [3] lies inside the wrapper [1], a box of 200 by 50 pixels
    at (10, 20). *)
Definition button_layout : Layout :=
  {| closest_wrap := fun e => if decide (e = 3%nat) then Some 1%nat else None;
     getBoundingClientRect := fun _ =>
       {| rect_left := 10; rect_top := 20;
          rect_width := 200; rect_height := 50 |} |}.

(** A page whose only section, [7], is of the kind [hero-main]. *)
Definition hero_page : Page :=
  {| querySelectorAll := fun selector parent =>
       if parent is None then
         (if String.eqb selector (attr_sel "data-animation-trigger" "hero-main")
          then [7%nat] else [])
       else [];
     textLength := fun _ => 0%nat;
     animationTrigger := fun e =>
       if decide (e = 7%nat) then Some "hero-main" else None |}.

(** * Properties *)

(** ** Rounding to a double

    [round64] keeps the order of the numbers it rounds, so it never steps
    over a double. *)

Section Rounding.

Local Open Scope Q_scope.

Lemma rne_floor (q : Q) : (Qfloor q <= rne q <= Qfloor q + 1)%Z.
Proof.
  unfold rne. destruct (Qcompare _ _); [destruct (Z.even _)| |]; lia.
Qed.

Lemma rne_mono (x y : Q) : x <= y -> (rne x <= rne y)%Z.
Proof.
  intros Hxy. pose proof (Qfloor_resp_le _ _ Hxy) as Hf.
  pose proof (rne_floor x) as Hx. pose proof (rne_floor y) as Hy.
  destruct (Z.eq_dec (Qfloor x) (Qfloor y)) as [E|NE]; [|lia].
  assert (Hfrac : x - inject_Z (Qfloor x) <= y - inject_Z (Qfloor x)) by lra.
  unfold rne. rewrite <- E.
  destruct (Qcompare (x - inject_Z (Qfloor x)) (1 # 2)) eqn:Cx;
    destruct (Qcompare (y - inject_Z (Qfloor x)) (1 # 2)) eqn:Cy;
    repeat match goal with
           | H : Qcompare _ _ = Eq |- _ => apply Qeq_alt in H
           | H : Qcompare _ _ = Lt |- _ => apply Qlt_alt in H
           | H : Qcompare _ _ = Gt |- _ => apply Qgt_alt in H
           end;
    try (exfalso; lra);
    try (destruct (Z.even (Qfloor x))); lia.
Qed.

Lemma rne_Z (k : Z) : rne (inject_Z k) = k.
Proof.
  unfold rne. rewrite Qfloor_Z.
  assert (H : Qcompare (inject_Z k - inject_Z k) (1 # 2) = Lt).
  { apply Qlt_alt. unfold Qminus. rewrite Qplus_opp_r. reflexivity. }
  rewrite H. reflexivity.
Qed.

Lemma pow2_pos (z : Z) : 0 < 2 ^ z.
Proof. apply Qpower_0_lt. reflexivity. Qed.

Lemma pow2_le (a b : Z) : (a <= b)%Z -> 2 ^ a <= 2 ^ b.
Proof. intros H. apply Qpower_le_compat_l; [exact H|discriminate]. Qed.

Lemma pow2_lt (a b : Z) : (a < b)%Z -> 2 ^ a < 2 ^ b.
Proof. intros H. apply Qpower_lt_compat_l; [exact H|reflexivity]. Qed.

Lemma pow2_lt_inv (a b : Z) : 2 ^ a < 2 ^ b -> (a < b)%Z.
Proof. intros H. apply (Qpower_lt_compat_l_inv 2); [exact H|reflexivity]. Qed.

Lemma pow2_plus (a b : Z) : 2 ^ (a + b) == 2 ^ a * 2 ^ b.
Proof. apply Qpower_plus. discriminate. Qed.

Lemma pow2_Z (k : Z) : (0 <= k)%Z -> inject_Z (2 ^ k) == 2 ^ k.
Proof. intros H. rewrite (Zpower_Qpower 2 k H). reflexivity. Qed.

(** [Qlog2 q] is the exponent of the binade of [q]. *)
Lemma Qlog2_spec (q : Q) : 0 < q -> 2 ^ Qlog2 q <= q /\ q < 2 ^ (Qlog2 q + 1).
Proof.
  intros Hq. destruct q as [n d]. 
  assert (Hn : (0 < n)%Z).
  { unfold Qlt in Hq. cbn in Hq. lia. }
  unfold Qlog2. cbn [Qnum Qden].
  set (ln := Z.log2 n). set (ld := Z.log2 (Z.pos d)).
  destruct (Z.log2_spec n Hn) as [Hn1 Hn2]. fold ln in Hn1, Hn2.
  destruct (Z.log2_spec (Z.pos d) (Pos2Z.is_pos d)) as [Hd1 Hd2].
  fold ld in Hd1, Hd2.
  assert (Hln : (0 <= ln)%Z) by apply Z.log2_nonneg.
  assert (Hld : (0 <= ld)%Z) by apply Z.log2_nonneg.
  assert (Qn1 : 2 ^ ln <= inject_Z n).
  { rewrite <- pow2_Z by exact Hln. rewrite <- Zle_Qle. exact Hn1. }
  assert (Qn2 : inject_Z n < 2 ^ (ln + 1)).
  { rewrite <- pow2_Z by lia. rewrite <- Zlt_Qlt. exact Hn2. }
  assert (Qd1 : 2 ^ ld <= inject_Z (Z.pos d)).
  { rewrite <- pow2_Z by exact Hld. rewrite <- Zle_Qle. exact Hd1. }
  assert (Qd2 : inject_Z (Z.pos d) < 2 ^ (ld + 1)).
  { rewrite <- pow2_Z by lia. rewrite <- Zlt_Qlt. exact Hd2. }
  assert (Hnd : n # d == inject_Z n / inject_Z (Z.pos d)) by apply Qmake_Qdiv.
  assert (Hdpos : 0 < inject_Z (Z.pos d)).
  { rewrite <- (Zlt_Qlt 0). apply Pos2Z.is_pos. }
  assert (Hub : n # d < 2 ^ (ln - ld + 1)).
  { rewrite Hnd. apply Qlt_shift_div_r; [exact Hdpos|].
    apply Qlt_le_trans with (2 ^ (ln + 1)); [exact Qn2|].
    replace (ln + 1)%Z with ((ln - ld + 1) + ld)%Z by lia.
    rewrite pow2_plus. apply Qmult_le_l; [apply pow2_pos|exact Qd1]. }
  assert (Hlb : 2 ^ (ln - ld - 1) < n # d).
  { rewrite Hnd. apply Qlt_shift_div_l; [exact Hdpos|].
    apply Qlt_le_trans with (2 ^ ln); [|exact Qn1].
    replace ln with ((ln - ld - 1) + (ld + 1))%Z at 2 by lia.
    rewrite pow2_plus. apply Qmult_lt_l; [apply pow2_pos|exact Qd2]. }
  destruct (Qle_bool (2 ^ (ln - ld)) (n # d)) eqn:E.
  - apply Qle_bool_iff in E. split; [exact E|exact Hub].
  - split; [apply Qlt_le_weak, Hlb|].
    replace (ln - ld - 1 + 1)%Z with (ln - ld)%Z by lia.
    apply Qnot_le_lt. intros H. apply Qle_bool_iff in H. congruence.
Qed.

Lemma Qlog2_mono (x y : Q) : 0 < x -> x <= y -> (Qlog2 x <= Qlog2 y)%Z.
Proof.
  intros Hx Hxy.
  destruct (Qlog2_spec x Hx) as [Hx1 _].
  destruct (Qlog2_spec y) as [_ Hy2]; [lra|].
  assert (H : 2 ^ Qlog2 x < 2 ^ (Qlog2 y + 1)) by lra.
  apply pow2_lt_inv in H. lia.
Qed.

Lemma ulp_exp_mono (x y : Q) : 0 < x -> x <= y -> (ulp_exp x <= ulp_exp y)%Z.
Proof.
  intros Hx Hxy. pose proof (Qlog2_mono x y Hx Hxy). unfold ulp_exp. lia.
Qed.

(** Scaled by its unit in the last place, a number is below [2 ^ 53]. *)
Lemma scaled_below (x : Q) : 0 < x -> x / 2 ^ ulp_exp x < 2 ^ 53.
Proof.
  intros Hx. destruct (Qlog2_spec x Hx) as [_ H2].
  apply Qlt_shift_div_r; [apply pow2_pos|].
  rewrite <- pow2_plus.
  apply Qlt_le_trans with (2 ^ (Qlog2 x + 1)); [exact H2|].
  apply pow2_le. unfold ulp_exp. lia.
Qed.

(** Above the subnormal range it is at least [2 ^ 52]. *)
Lemma scaled_above (x : Q) :
  0 < x -> (-1074 < ulp_exp x)%Z -> 2 ^ 52 <= x / 2 ^ ulp_exp x.
Proof.
  intros Hx He. destruct (Qlog2_spec x Hx) as [H1 _].
  apply Qle_shift_div_l; [apply pow2_pos|].
  rewrite <- pow2_plus.
  apply Qle_trans with (2 ^ Qlog2 x); [|exact H1].
  apply pow2_le. unfold ulp_exp in *. lia.
Qed.

Lemma round_pos_nonneg (x : Q) : 0 < x -> 0 <= round_pos x.
Proof.
  intros Hx. unfold round_pos.
  apply Qmult_le_0_compat; [|apply Qlt_le_weak, pow2_pos].
  rewrite <- (Zle_Qle 0).
  pose proof (rne_floor (x / 2 ^ ulp_exp x)) as [H _].
  assert (0 <= Qfloor (x / 2 ^ ulp_exp x))%Z; [|lia].
  rewrite <- (Qfloor_Z 0). apply Qfloor_resp_le.
  apply Qle_shift_div_l; [apply pow2_pos|].
  change (inject_Z 0) with 0. rewrite Qmult_0_l. apply Qlt_le_weak, Hx.
Qed.

(** Rounding keeps the order. *)
Lemma round_pos_mono (x y : Q) : 0 < x -> x <= y -> round_pos x <= round_pos y.
Proof.
  intros Hx Hxy. assert (Hy : 0 < y) by lra.
  pose proof (ulp_exp_mono x y Hx Hxy) as He.
  unfold round_pos.
  destruct (Z.eq_dec (ulp_exp x) (ulp_exp y)) as [E|NE].
  - rewrite E. apply Qmult_le_compat_r; [|apply Qlt_le_weak, pow2_pos].
    rewrite <- Zle_Qle. apply rne_mono.
    apply Qmult_le_compat_r; [exact Hxy|].
    apply Qlt_le_weak, Qinv_lt_0_compat, pow2_pos.
  - assert (Hlt : (ulp_exp x < ulp_exp y)%Z) by lia.
    apply Qle_trans with (2 ^ (52 + ulp_exp y)).
    + apply Qle_trans with (2 ^ (53 + ulp_exp x)); [|apply pow2_le; lia].
      rewrite pow2_plus.
      apply Qmult_le_compat_r; [|apply Qlt_le_weak, pow2_pos].
      rewrite <- (pow2_Z 53) by lia. rewrite <- Zle_Qle.
      rewrite <- (rne_Z (2 ^ 53)). apply rne_mono.
      rewrite (pow2_Z 53) by lia. apply Qlt_le_weak, scaled_below, Hx.
    + rewrite pow2_plus.
      apply Qmult_le_compat_r; [|apply Qlt_le_weak, pow2_pos].
      rewrite <- (pow2_Z 52) by lia. rewrite <- Zle_Qle.
      rewrite <- (rne_Z (2 ^ 52)) at 1. apply rne_mono.
      rewrite (pow2_Z 52) by lia. apply scaled_above; [exact Hy|].
      unfold ulp_exp in *. lia.
Qed.

Lemma Qabs_pos_eq (x : Q) : 0 < x -> Qabs x = x.
Proof.
  destruct x as [[|p|p] d]; intros H; try reflexivity; discriminate H.
Qed.

Lemma round64_pos (x : Q) :
  0 < x ->
  round64 x = if Qle_bool (2 ^ 1024) (Qred (round_pos x)) then DInf false
              else DFin (Qred (round_pos x)).
Proof.
  intros Hx. unfold round64.
  assert (E0 : Qeq_bool x 0 = false).
  { destruct (Qeq_bool x 0) eqn:E; [|reflexivity].
    apply Qeq_bool_eq in E. lra. }
  rewrite E0, (Qabs_pos_eq x Hx).
  assert (En : Qltb x 0 = false).
  { unfold Qltb. apply negb_false_iff, Qle_bool_iff. lra. }
  rewrite En. reflexivity.
Qed.

(** Rounding does not step over a double: a number between [0] and the
    double [hi] rounds to a double between [0] and [hi]. *)
Lemma round64_between (x hi : Q) :
  0 <= x -> x <= hi -> representable hi ->
  exists x', round64 x = DFin x' /\ 0 <= x' /\ x' <= hi.
Proof.
  intros H0 Hhi (hi' & Hr & Heq).
  destruct (Qeq_bool x 0) eqn:E0.
  - exists 0. unfold round64. rewrite E0. apply Qeq_bool_eq in E0.
    split; [reflexivity|]. split; lra.
  - assert (Hx : 0 < x).
    { apply Qeq_bool_neq in E0. lra. }
    assert (Hh : 0 < hi) by lra.
    rewrite (round64_pos hi Hh) in Hr.
    destruct (Qle_bool (2 ^ 1024) (Qred (round_pos hi))) eqn:Eo;
      [discriminate|].
    injection Hr as Hr. rewrite <- Hr in Heq. rewrite Qred_correct in Heq.
    pose proof (round_pos_mono x hi Hx Hhi) as Hm.
    pose proof (round_pos_nonneg x Hx) as Hn.
    exists (Qred (round_pos x)). rewrite (round64_pos x Hx).
    assert (Ex : Qle_bool (2 ^ 1024) (Qred (round_pos x)) = false).
    { apply not_true_iff_false. intros H. apply Qle_bool_iff in H.
      rewrite Qred_correct in H.
      apply not_true_iff_false in Eo. apply Eo. apply Qle_bool_iff.
      rewrite Qred_correct. lra. }
    rewrite Ex. split; [reflexivity|]. rewrite Qred_correct. split; lra.
Qed.

End Rounding.

(** ** Capability detection *)

Lemma js_le_undefined (v : JSValue) : js_le VUndefined v = false.
Proof. unfold js_le, IsLessThan. simpl. destruct (ToNumber v); reflexivity. Qed.

(** C8. On a host whose [navigator.hardwareConcurrency] is undefined,
    building [CONFIG] raises nothing and computes [isLowEnd = false];
    [isLowEndDevice] is then the reduced-motion preference alone, and
    without that preference [init] does not take the simple, degraded
    strategy. *)
Theorem absent_core_count_is_not_low_end (env : Env) (rm : bool) :
  hardwareConcurrency env = VUndefined ->
  matchMedia_reduce env = Some rm ->
  exists cfg,
    Script.CONFIG env = Script.Ok cfg
    /\ Script.isLowEnd cfg = false
    /\ Script.isLowEndDevice cfg = rm
    /\ (rm = false -> Script.init_strategy cfg <> Script.SimpleAnimations).
Proof.
  intros Hhc Hmm. unfold Script.CONFIG. rewrite Hmm, Hhc.
  eexists. split; [reflexivity|].
  cbn [Script.isLowEnd]. rewrite js_le_undefined.
  split; [reflexivity|]. split; [reflexivity|].
  intros ->. unfold Script.init_strategy, Script.isLowEndDevice. cbn.
  destruct (hasIntersectionObserver env); discriminate.
Qed.

Lemma absent_core_count_is_not_low_end_witness :
  exists cfg,
    Script.CONFIG host_without_core_count = Script.Ok cfg
    /\ Script.isLowEnd cfg = false
    /\ Script.isLowEndDevice cfg = false
    /\ (false = false -> Script.init_strategy cfg <> Script.SimpleAnimations).
Proof.
  apply (absent_core_count_is_not_low_end host_without_core_count false);
    reflexivity.
Defined.

(** ** Section initialisation and its cache *)

Section ScriptCore.
Variable env : Env.
Variable cfg : Script.Config.
Variable page : Page.

Lemma constructed_for_snoc (sec s : Elem) (st : list Elem) :
  length (filter (fun x => x = sec) (st ++ [s]))
  = (length (filter (fun x => x = sec) st) + if decide (s = sec) then 1 else 0)%nat.
Proof.
  rewrite filter_app, length_app. f_equal.
  rewrite filter_cons, filter_nil. destruct (decide (s = sec)); reflexivity.
Qed.

Lemma setupScrollTrigger_cached sec config st :
  is_Some (Script.animations st !! sec) ->
  Script.setupScrollTrigger sec config st = st.
Proof.
  intros [tl H]. unfold Script.setupScrollTrigger. rewrite H. reflexivity.
Qed.

Lemma setupScrollTrigger_fresh sec config st :
  Script.animations st !! sec = None ->
  initialised sec st (Script.setupScrollTrigger sec config st).
Proof.
  intros H. unfold Script.setupScrollTrigger. rewrite H. cbn.
  unfold Script.run_handler. cbn.
  destruct (exec _ _) as [steps libs']. cbn.
  eexists. repeat split.
Qed.

Lemma batch_section_cached sec config st :
  is_Some (Script.animations st !! sec) ->
  Script.batch_section config st sec = st.
Proof.
  intros [tl H]. unfold Script.batch_section. rewrite H. reflexivity.
Qed.

Lemma batch_section_fresh sec config st :
  Script.animations st !! sec = None ->
  initialised sec st (Script.batch_section config st sec).
Proof.
  intros H. unfold Script.batch_section. rewrite H. cbn.
  unfold Script.run_handler. cbn.
  destruct (exec _ _) as [steps libs']. cbn.
  eexists. repeat split.
Qed.

Lemma on_entry_cached obs e st :
  is_Some (Script.animations st !! Script.target e) ->
  Script.on_entry env cfg page obs e st = Normal st.
Proof.
  intros [tl H]. unfold Script.on_entry. rewrite H. cbn.
  rewrite andb_false_r. reflexivity.
Qed.

Lemma on_entry_own obs sec h st :
  Script.animations st !! sec = None ->
  Script.animationMap_get env cfg page (animationTrigger page sec) = Script.Own h ->
  exists st', Script.on_entry env cfg page obs
                {| Script.target := sec; Script.isIntersecting := true |} st
              = Normal st'
              /\ initialised sec st st'.
Proof.
  intros H Hh. unfold Script.on_entry. cbn. rewrite H, Hh. cbn.
  unfold Script.run_handler. cbn.
  destruct (exec _ _) as [steps libs']. cbn.
  eexists. split; [reflexivity|].
  eexists. repeat split.
Qed.

Lemma initialised_settled sec st st' :
  Script.animations st !! sec = None ->
  Script.constructed_for sec st = 0%nat ->
  initialised sec st st' ->
  exists tl, settled sec tl st'.
Proof.
  intros _ Hc (tl & Ha & _ & Hcr & _).
  exists tl. split.
  - rewrite Ha. apply lookup_insert_eq.
  - unfold Script.constructed_for in *. rewrite Hcr, constructed_for_snoc, Hc.
    rewrite decide_True by reflexivity. reflexivity.
Qed.

Lemma initialised_other sec tl s st st' :
  s <> sec ->
  settled sec tl st -> initialised s st st' -> settled sec tl st'.
Proof.
  intros Hne [Ha Hc] (tl' & Ha' & _ & Hcr & _). split.
  - rewrite Ha', lookup_insert_ne by exact Hne. exact Ha.
  - unfold Script.constructed_for in *. rewrite Hcr, constructed_for_snoc, Hc.
    rewrite decide_False by exact Hne. lia.
Qed.

Lemma setupScrollTrigger_settled sec tl s config st :
  settled sec tl st -> settled sec tl (Script.setupScrollTrigger s config st).
Proof.
  intros H. destruct (Script.animations st !! s) as [x|] eqn:E.
  - rewrite setupScrollTrigger_cached by (rewrite E; eauto). exact H.
  - apply (initialised_other sec tl s st); [|exact H|].
    + intros ->. destruct H as [H _]. congruence.
    + apply setupScrollTrigger_fresh, E.
Qed.

Lemma batch_section_settled sec tl s config st :
  settled sec tl st -> settled sec tl (Script.batch_section config st s).
Proof.
  intros H. destruct (Script.animations st !! s) as [x|] eqn:E.
  - rewrite batch_section_cached by (rewrite E; eauto). exact H.
  - apply (initialised_other sec tl s st); [|exact H|].
    + intros ->. destruct H as [H _]. congruence.
    + apply batch_section_fresh, E.
Qed.

Lemma batch_onEnter_settled sec tl config batch st :
  settled sec tl st -> settled sec tl (Script.batch_onEnter config batch st).
Proof.
  unfold Script.batch_onEnter. revert st.
  induction batch as [|s batch IH]; intros st H; cbn; [exact H|].
  apply IH, batch_section_settled, H.
Qed.

Lemma on_entry_settled sec tl obs e st :
  settled sec tl st ->
  settled sec tl (final (Script.on_entry env cfg page obs e st)).
Proof.
  intros H. destruct (Script.animations st !! Script.target e) as [x|] eqn:E.
  - rewrite on_entry_cached by (rewrite E; eauto). exact H.
  - assert (Hne : Script.target e <> sec).
    { intros Heq. destruct H as [H _]. rewrite Heq in E. congruence. }
    destruct H as [Ha Hc].
    unfold Script.on_entry. rewrite E. cbn.
    destruct (Script.isIntersecting e); cbn; [|split; assumption].
    destruct (Script.animationMap_get _ _ _ _) as [h|name|]; cbn.
    + unfold Script.run_handler. cbn. destruct (exec _ _) as [steps libs']. cbn.
      split; cbn.
      * rewrite lookup_insert_ne by exact Hne. exact Ha.
      * unfold Script.constructed_for in *. cbn.
        rewrite constructed_for_snoc, Hc, decide_False by exact Hne. lia.
    + destruct (Script.inherited_call_raises name); cbn; split; cbn.
      * exact Ha.
      * unfold Script.constructed_for in *. cbn.
        rewrite constructed_for_snoc, Hc, decide_False by exact Hne. lia.
      * rewrite lookup_insert_ne by exact Hne. exact Ha.
      * unfold Script.constructed_for in *. cbn.
        rewrite constructed_for_snoc, Hc, decide_False by exact Hne. lia.
    + split; assumption.
Qed.

Lemma observer_callback_settled sec tl obs entries st :
  settled sec tl st ->
  settled sec tl (final (Script.observer_callback env cfg page obs entries st)).
Proof.
  unfold Script.observer_callback.
  assert (G : forall c, settled sec tl (final c) ->
    settled sec tl (final (fold_left
      (fun c entry => c >>> Script.on_entry env cfg page obs entry) entries c))).
  { induction entries as [|e entries IH]; intros c Hc; cbn; [exact Hc|].
    apply IH. destruct c as [s|err s]; cbn in *; [|exact Hc].
    apply on_entry_settled, Hc. }
  intros H. apply G. exact H.
Qed.

Lemma attempt_settled sec tl a st :
  settled sec tl st -> settled sec tl (Script.attempt env cfg page st a).
Proof.
  intros H. destruct a as [s config|config batch|obs entries]; cbn.
  - apply setupScrollTrigger_settled, H.
  - apply batch_onEnter_settled, H.
  - apply observer_callback_settled, H.
Qed.

Lemma attempts_settled sec tl l st :
  settled sec tl st -> settled sec tl (Script.attempts env cfg page l st).
Proof.
  unfold Script.attempts. revert st.
  induction l as [|a l IH]; intros st H; cbn; [exact H|].
  apply IH, attempt_settled, H.
Qed.

Lemma retry_is_noop sec a st :
  Script.retries sec a ->
  is_Some (Script.animations st !! sec) ->
  Script.attempt env cfg page st a = st.
Proof.
  intros Hr Hs. destruct Hr as [config|config|obs b]; cbn.
  - apply setupScrollTrigger_cached, Hs.
  - apply batch_section_cached, Hs.
  - rewrite on_entry_cached by exact Hs. reflexivity.
Qed.

Lemma first_attempt_initialises sec a st :
  Script.initialises env cfg page sec a ->
  Script.animations st !! sec = None ->
  initialised sec st (Script.attempt env cfg page st a).
Proof.
  intros Hi Hf. destruct Hi as [config|config|obs h Hh]; cbn.
  - apply setupScrollTrigger_fresh, Hf.
  - apply batch_section_fresh, Hf.
  - destruct (on_entry_own obs sec h st Hf Hh) as (st' & -> & Hst'). exact Hst'.
Qed.

End ScriptCore.

Section JamboreeCore.

Lemma setupAnimation_cached sec config st :
  is_Some (Jamboree.animationCache st !! sec) ->
  Jamboree.setupAnimation sec config st = st.
Proof.
  intros [tl H]. unfold Jamboree.setupAnimation. rewrite H. reflexivity.
Qed.

Lemma setupAnimation_fresh sec config st :
  Jamboree.animationCache st !! sec = None ->
  exists tl,
    Jamboree.animationCache (Jamboree.setupAnimation sec config st)
    = <[sec := tl]> (Jamboree.animationCache st)
    /\ Jamboree.created (Jamboree.setupAnimation sec config st)
       = Jamboree.created st ++ [sec].
Proof.
  intros H. unfold Jamboree.setupAnimation. rewrite H. cbn.
  destruct (exec _ _) as [steps libs']. cbn.
  eexists. split; reflexivity.
Qed.

Lemma setupAnimation_settled sec tl s config st :
  jsettled sec tl st -> jsettled sec tl (Jamboree.setupAnimation s config st).
Proof.
  intros [Ha Hc]. destruct (Jamboree.animationCache st !! s) as [x|] eqn:E.
  - rewrite setupAnimation_cached by (rewrite E; eauto). split; assumption.
  - assert (Hne : s <> sec) by (intros ->; congruence).
    destruct (setupAnimation_fresh s config st E) as (tl' & Ha' & Hcr).
    split.
    + rewrite Ha', lookup_insert_ne by exact Hne. exact Ha.
    + unfold Jamboree.constructed_for in *.
      rewrite Hcr, constructed_for_snoc, Hc, decide_False by exact Hne. lia.
Qed.

Lemma setups_settled sec tl l st :
  jsettled sec tl st -> jsettled sec tl (Jamboree.setups l st).
Proof.
  unfold Jamboree.setups. revert st.
  induction l as [|[s c] l IH]; intros st H; cbn; [exact H|].
  apply IH, setupAnimation_settled, H.
Qed.

End JamboreeCore.

(** C1. An initialisation that reaches a section not yet cached caches
    one timeline for it; a second attempt on the section changes nothing,
    and after any further attempts the section still has that same cache
    entry and exactly one timeline was ever constructed for it. This
    holds for [setupScrollTrigger], the batch callback and the observer
    callback of script.js and for [setupAnimation] of jamboree.js. *)
Theorem initialisation_is_idempotent
    (env : Env) (cfg : Script.Config) (page : Page) (sec : Elem)
    (first second : Script.Attempt) (st : Script.State)
    (c1 c2 : Jamboree.AnimationConfig) (jst : Jamboree.State) :
  Script.initialises env cfg page sec first ->
  Script.retries sec second ->
  Script.animations st !! sec = None ->
  Script.constructed_for sec st = 0%nat ->
  Jamboree.animationCache jst !! sec = None ->
  Jamboree.constructed_for sec jst = 0%nat ->
  (let s1 := Script.attempt env cfg page st first in
   let s2 := Script.attempt env cfg page s1 second in
   s2 = s1
   /\ exists tl,
        Script.animations s1 !! sec = Some tl
        /\ Script.constructed_for sec s2 = 1%nat
        /\ forall later,
             Script.animations (Script.attempts env cfg page later s2) !! sec
             = Some tl
             /\ Script.constructed_for sec
                  (Script.attempts env cfg page later s2) = 1%nat)
  /\
  (let s1 := Jamboree.setupAnimation sec c1 jst in
   let s2 := Jamboree.setupAnimation sec c2 s1 in
   s2 = s1
   /\ exists tl,
        Jamboree.animationCache s1 !! sec = Some tl
        /\ Jamboree.constructed_for sec s2 = 1%nat
        /\ forall later,
             Jamboree.animationCache (Jamboree.setups later s2) !! sec = Some tl
             /\ Jamboree.constructed_for sec (Jamboree.setups later s2) = 1%nat).
Proof.
  intros Hi Hr Hf Hc Hjf Hjc. split.
  - cbn zeta.
    pose proof (first_attempt_initialises env cfg page sec first st Hi Hf) as Hinit.
    destruct (initialised_settled sec st _ Hf Hc Hinit) as (tl & Hs).
    assert (Hnoop : Script.attempt env cfg page
                      (Script.attempt env cfg page st first) second
                    = Script.attempt env cfg page st first).
    { apply (retry_is_noop env cfg page sec); [exact Hr|]. destruct Hs as [-> _]. eauto. }
    split; [exact Hnoop|].
    exists tl. rewrite Hnoop.
    split; [apply Hs|]. split; [apply Hs|].
    intros later. apply attempts_settled, Hs.
  - cbn zeta.
    destruct (setupAnimation_fresh sec c1 jst Hjf) as (tl & Ha & Hcr).
    assert (Hs : jsettled sec tl (Jamboree.setupAnimation sec c1 jst)).
    { split.
      - rewrite Ha. apply lookup_insert_eq.
      - unfold Jamboree.constructed_for in *.
        rewrite Hcr, constructed_for_snoc, Hjc, decide_True by reflexivity.
        reflexivity. }
    assert (Hnoop : Jamboree.setupAnimation sec c2
                      (Jamboree.setupAnimation sec c1 jst)
                    = Jamboree.setupAnimation sec c1 jst).
    { apply setupAnimation_cached. destruct Hs as [-> _]. eauto. }
    split; [exact Hnoop|].
    exists tl. rewrite Hnoop.
    split; [apply Hs|]. split; [apply Hs|].
    intros later. apply setups_settled, Hs.
Qed.

Lemma initialisation_is_idempotent_witness :
  let first :=
    Script.Intersection 0 [{| Script.target := 7; Script.isIntersecting := true |}] in
  let second := Script.SetupScrollTrigger 7 faq_config in
  let s1 := Script.attempt desktop desktop_cfg (bare_page "faq") Script.initial first in
  let j1 := Jamboree.setupAnimation 7 hero_config Jamboree.initial in
  Script.attempt desktop desktop_cfg (bare_page "faq") s1 second = s1
  /\ Script.constructed_for 7 s1 = 1%nat
  /\ Jamboree.setupAnimation 7 hero_config j1 = j1
  /\ Jamboree.constructed_for 7 j1 = 1%nat.
Proof.
  cbn zeta.
  destruct (initialisation_is_idempotent desktop desktop_cfg (bare_page "faq") 7
              (Script.Intersection 0
                 [{| Script.target := 7; Script.isIntersecting := true |}])
              (Script.SetupScrollTrigger 7 faq_config) Script.initial
              hero_config hero_config Jamboree.initial)
    as [[Hs (tl & _ & Hc & _)] [Hj (tl' & _ & Hjc & _)]].
  - eapply Script.init_entry. vm_compute. reflexivity.
  - apply Script.retry_setup.
  - reflexivity.
  - reflexivity.
  - reflexivity.
  - reflexivity.
  - cbn zeta in *. rewrite Hs in Hc. rewrite Hj in Hjc.
    split; [exact Hs|]. split; [exact Hc|]. split; [exact Hj|exact Hjc].
Defined.

(** C2, as stated, fails: a section of an unregistered kind that
    intersects is neither made visible nor taken off the observer. *)
Lemma unregistered_kind_is_left_untouched :
  let entry := {| Script.target := 5; Script.isIntersecting := true |} in
  let st' := final (Script.on_entry desktop desktop_cfg (bare_page "carousel")
                      0 entry watching) in
  Script.animationMap_get desktop desktop_cfg (bare_page "carousel")
    (animationTrigger (bare_page "carousel") 5) = Script.Missing
  /\ Script.visibility st' !! 5%nat <> Some "visible"
  /\ exists o, Script.observer_heap st' !! 0%nat = Some o
               /\ 5%nat ∈ Script.observed o.
Proof.
  cbn zeta. split; [vm_compute; reflexivity|].
  split; [vm_compute; discriminate|].
  exists {| Script.observed := {[ 5%nat ]}; Script.disconnected := false |}.
  split; [vm_compute; reflexivity|].
  cbn [Script.observed]. set_solver.
Qed.

(** C2, amended. When [animationMap] has no value for the kind of the
    section, the callback's body for that entry completes normally and
    leaves the whole state as it was: no style is written, no timeline
    built, no cache entry added, and the observer keeps the section. *)
Theorem unregistered_kind_is_a_noop (env : Env) (cfg : Script.Config)
    (page : Page) (obs : nat) (entry : Script.Entry) (st : Script.State) :
  Script.animationMap_get env cfg page
    (animationTrigger page (Script.target entry)) = Script.Missing ->
  Script.on_entry env cfg page obs entry st = Normal st.
Proof.
  intros H. unfold Script.on_entry. rewrite H.
  destruct (_ && _); reflexivity.
Qed.

Lemma unregistered_kind_is_a_noop_witness :
  Script.on_entry desktop desktop_cfg (bare_page "carousel") 0
    {| Script.target := 5; Script.isIntersecting := true |} watching
  = Normal watching.
Proof.
  apply unregistered_kind_is_a_noop. vm_compute. reflexivity.
Defined.

(** ** Diagnostics and cleanup *)

(** C9. [getPerformanceMetrics] reports the sizes of the two [Map]
    caches as numbers, but [animationCount] reads [size] on a [WeakMap]
    and is [undefined] whatever the cache holds, as after one section has
    been initialised. *)
Theorem animationCount_is_undefined (st : Script.State) :
  Script.animationCount (Script.getPerformanceMetrics st) = VUndefined
  /\ Script.timelineCount (Script.getPerformanceMetrics st)
     = VNumber (Finite (Z.of_nat (size (Script.timelines st))))
  /\ Script.observerCount (Script.getPerformanceMetrics st)
     = VNumber (Finite (Z.of_nat (size (Script.observers st))))
  /\ (let st1 := Script.setupScrollTrigger 7 faq_config Script.initial in
      size (Script.animations st1) = 1%nat
      /\ Script.animationCount (Script.getPerformanceMetrics st1) = VUndefined).
Proof.
  split; [reflexivity|]. split; [reflexivity|]. split; [reflexivity|].
  cbn zeta. split; [|reflexivity].
  destruct (setupScrollTrigger_fresh 7 faq_config Script.initial eq_refl)
    as (tl & Ha & _).
  rewrite Ha. cbn [Script.animations Script.initial].
  rewrite insert_empty. apply map_size_singleton.
Qed.

(** C3. [cleanup] kills the ScrollTriggers and then raises: its second
    statement calls [clear] on a [WeakMap]. No observer is disconnected
    and no cache is emptied; [cleanupAnimations] of jamboree.js raises at
    the same call. *)
Theorem cleanup_raises (st : Script.State) (st' : Jamboree.State) :
  throws (Script.cleanup st) = true
  /\ Script.cleanup st
     = Throw (TypeError "clear is not a function") (Script.kill_all st)
  /\ Script.observer_heap (final (Script.cleanup st)) = Script.observer_heap st
  /\ Script.animations (final (Script.cleanup st)) = Script.animations st
  /\ Script.timelines (final (Script.cleanup st)) = Script.timelines st
  /\ Script.observers (final (Script.cleanup st)) = Script.observers st
  /\ Jamboree.cleanupAnimations st'
     = Throw (TypeError "clear is not a function") (Jamboree.kill_all st').
Proof. repeat split. Qed.

(** ** Text reveals under reduced motion *)

Lemma unsplit_ret {A : Type} (a : A) : unsplit (ret a).
Proof. intros s. reflexivity. Qed.

Lemma unsplit_bind {A B : Type} (c : Build A) (k : A -> Build B) :
  unsplit c -> (forall a, unsplit (k a)) -> unsplit (bind c k).
Proof.
  intros Hc Hk s. unfold bind. specialize (Hc s).
  destruct (c s) as [a s']. cbn in Hc. rewrite <- Hc. apply Hk.
Qed.

Lemma unsplit_timeline_add (st : Step) : unsplit (timeline_add st).
Proof. intros [steps libs]. reflexivity. Qed.

Lemma unsplit_gsap_set (t : Targets) (vars : list (string * Val)) :
  unsplit (gsap_set t vars).
Proof. intros [steps libs]. reflexivity. Qed.

Lemma unsplit_when (b : bool) (c : Build unit) : unsplit c -> unsplit (when b c).
Proof. intros H. destruct b; [exact H|apply unsplit_ret]. Qed.

Create HintDb unsplit.
#[local] Hint Resolve unsplit_ret unsplit_timeline_add unsplit_gsap_set
  unsplit_when : unsplit.
#[local] Hint Extern 2 (unsplit (bind _ _)) =>
  apply unsplit_bind; [|intros ?] : unsplit.

Section LowEnd.

Variable env : Env.
Variable cfg : Script.Config.
Variable page : Page.
Hypothesis low_end : Script.isLowEndDevice cfg = true.

Lemma splitHeading_low_end (element : option Elem) (delay : Q)
    (s : list Step * Libs) :
  Script.splitHeading cfg page element delay s
  = (None,
     (fst s ++ match element with
               | Some el => [StepFrom (Elems [el]) Script.fade_vars (At delay)]
               | None => []
               end,
      snd s)).
Proof.
  destruct s as [steps libs]. unfold Script.splitHeading.
  destruct element as [el|]; cbn.
  - rewrite low_end. reflexivity.
  - rewrite app_nil_r. reflexivity.
Qed.

Lemma splitParagraph_low_end (elements : option (list Elem)) (delay : Q)
    (s : list Step * Libs) :
  Script.splitParagraph env cfg elements delay s
  = (None,
     (fst s ++ match elements with
               | Some (e :: l) =>
                   [StepFrom (Elems (e :: l)) Script.fade_vars (At delay)]
               | _ => []
               end,
      snd s)).
Proof.
  destruct s as [steps libs]. unfold Script.splitParagraph.
  destruct elements as [[|e l]|]; cbn; rewrite ?app_nil_r; try reflexivity.
  rewrite low_end. reflexivity.
Qed.

Lemma unsplit_splitHeading element delay :
  unsplit (Script.splitHeading cfg page element delay).
Proof. intros s. rewrite splitHeading_low_end. reflexivity. Qed.

Lemma unsplit_splitParagraph elements delay :
  unsplit (Script.splitParagraph env cfg elements delay).
Proof. intros s. rewrite splitParagraph_low_end. reflexivity. Qed.

Lemma unsplit_animateButtons buttons delay :
  unsplit (Script.animateButtons buttons delay).
Proof. unfold Script.animateButtons. auto with unsplit. Qed.

Lemma unsplit_animateCards cards delay y :
  unsplit (Script.animateCards cards delay y).
Proof. unfold Script.animateCards. auto with unsplit. Qed.

Lemma unsplit_animateImage image delay scale :
  unsplit (Script.animateImage env image delay scale).
Proof.
  unfold Script.animateImage. destruct image; auto with unsplit.
Qed.

Lemma unsplit_from targets vars at_ : unsplit (Script.from targets vars at_).
Proof. unfold Script.from. auto with unsplit. Qed.

#[local] Hint Resolve unsplit_splitHeading unsplit_splitParagraph
  unsplit_animateButtons unsplit_animateCards unsplit_animateImage
  unsplit_from : unsplit.

Lemma unsplit_animationMap :
  Forall (fun kh => forall section, unsplit (snd kh section))
    (Script.animationMap env cfg page).
Proof.
  unfold Script.animationMap.
  repeat first [apply List.Forall_cons | apply List.Forall_nil].
  all: intros section; cbn [snd].
  all: unfold Script.animateHeroMain, Script.animateStackedContent,
    Script.animateImageSplit, Script.animateIconsGrid, Script.animateCTA,
    Script.animateFooter, Script.animateDownload, Script.animateHeroBanner,
    Script.animateLandingPageHero, Script.animateTabs,
    Script.animateFeaturedTestimonials, Script.animateFAQ.
  all: cbn zeta; auto 20 with unsplit.
Qed.

Lemma assoc_Forall {A : Type} (P : A -> Prop) key (l : list (string * A)) v :
  Forall (fun kv => P (snd kv)) l -> Script.assoc key l = Some v -> P v.
Proof.
  induction 1 as [|[k x] l Hx _ IH]; cbn; [discriminate|].
  destruct (String.eqb key k); [|exact IH].
  intros [= <-]. exact Hx.
Qed.

Lemma unsplit_registered kind h section :
  Script.animationMap_get env cfg page kind = Script.Own h ->
  unsplit (h section).
Proof.
  unfold Script.animationMap_get.
  destruct (Script.assoc _ _) as [h'|] eqn:E.
  - intros [= <-].
    apply (assoc_Forall (fun h => forall section, unsplit (h section))
             _ _ _ unsplit_animationMap E).
  - destruct (existsb _ _); discriminate.
Qed.

End LowEnd.

Lemma jamboree_splitHeading_reduced (element : option Elem) (delay : Q)
    (s : list Step * Libs) :
  Jamboree.splitHeading true element delay s
  = (None,
     (fst s ++ match element with
               | Some el => [StepFrom (Elems [el]) Jamboree.fade_vars (At delay)]
               | None => []
               end,
      snd s)).
Proof.
  destruct s as [steps libs]. destruct element as [el|]; cbn;
    rewrite ?app_nil_r; reflexivity.
Qed.

Lemma jamboree_splitParagraph_reduced (env : Env)
    (elements : option (list Elem)) (delay : Q) (s : list Step * Libs) :
  Jamboree.splitParagraph env true elements delay s
  = (None,
     (fst s ++ match elements with
               | Some (e :: l) =>
                   [StepFrom (Elems (e :: l)) Jamboree.fade_vars (At delay)]
               | _ => []
               end,
      snd s)).
Proof.
  destruct s as [steps libs]. destruct elements as [[|e l]|]; cbn;
    rewrite ?app_nil_r; reflexivity.
Qed.

(** The first revision splits every heading it finds, whatever the host
    prefers. *)
Lemma legacy_reveal_heading_splits (h : Elem) (at_ : Q) (s : list Step * Libs) :
  length (splitCreated (snd (exec (Legacy.reveal_heading (Some h) at_) s)))
  = S (length (splitCreated (snd s))).
Proof.
  destruct s as [steps libs]. cbn. rewrite length_app. cbn. lia.
Qed.

(** C7. With [reducedMotion] set, a heading or paragraph reveal adds one
    fade tween on the elements themselves (nothing when there is no
    element) and returns [null]; no handler of the registry, run on any
    section, calls [SplitText.create]. The helpers of jamboree.js behave
    the same. *)
Theorem reduced_motion_reveals_fade (env : Env) (cfg : Script.Config)
    (page : Page) :
  Script.reducedMotion cfg = true ->
  (forall element delay s,
     Script.splitHeading cfg page element delay s
     = (None,
        (fst s ++ match element with
                  | Some el =>
                      [StepFrom (Elems [el]) Script.fade_vars (At delay)]
                  | None => []
                  end,
         snd s)))
  /\ (forall elements delay s,
        Script.splitParagraph env cfg elements delay s
        = (None,
           (fst s ++ match elements with
                     | Some (e :: l) =>
                         [StepFrom (Elems (e :: l)) Script.fade_vars (At delay)]
                     | _ => []
                     end,
            snd s)))
  /\ (forall kind h section s,
        Script.animationMap_get env cfg page kind = Script.Own h ->
        splitCreated (snd (exec (h section) s)) = splitCreated (snd s))
  /\ (forall element delay s,
        Jamboree.splitHeading true element delay s
        = (None,
           (fst s ++ match element with
                     | Some el =>
                         [StepFrom (Elems [el]) Jamboree.fade_vars (At delay)]
                     | None => []
                     end,
            snd s)))
  /\ (forall elements delay s,
        Jamboree.splitParagraph env true elements delay s
        = (None,
           (fst s ++ match elements with
                     | Some (e :: l) =>
                         [StepFrom (Elems (e :: l)) Jamboree.fade_vars (At delay)]
                     | _ => []
                     end,
            snd s))).
Proof.
  intros Hrm.
  assert (low : Script.isLowEndDevice cfg = true).
  { unfold Script.isLowEndDevice. rewrite Hrm. apply orb_true_r. }
  split; [intros; apply splitHeading_low_end, low|].
  split; [intros; apply splitParagraph_low_end, low|].
  split.
  { intros kind h section s Hh.
    apply (unsplit_registered env cfg page low kind h section Hh). }
  split; [intros; apply jamboree_splitHeading_reduced|].
  intros; apply jamboree_splitParagraph_reduced.
Qed.

Lemma reduced_motion_reveals_fade_witness :
  Script.splitHeading reduced_cfg (bare_page "cta") (Some 3%nat) 0.5 ([], no_libs)
  = (None, ([StepFrom (Elems [3%nat]) Script.fade_vars (At 0.5)], no_libs))
  /\ splitCreated
       (snd (exec (Script.animateCTA desktop reduced_cfg (bare_page "cta") 1)
               ([], no_libs))) = [].
Proof.
  destruct (reduced_motion_reveals_fade desktop reduced_cfg (bare_page "cta")
              eq_refl) as (Hh & _ & Hmap & _).
  split.
  - apply Hh.
  - apply (Hmap (Some "cta")). reflexivity.
Defined.

(** ** The throttle *)

Section ScriptThrottle.

Context {A U : Type}.
Variable fps : Q.
Variable callback : A -> U -> U.

Abbreviation step := (Script.throttle_step fps callback).
Abbreviation run := (fold_left (Script.throttle_step fps callback)).



(** What the test of the throttle means when the numbers are finite:
    the rounded difference is at least the rounded quotient. *)
Lemma due_spec now last d i :
  round64 (now - last) = DFin d -> Script.interval fps = DFin i ->
  (Script.due fps now last = true <-> (i <= d)%Q).
Proof.
  intros Hd Hi. unfold Script.due. cbn [js_sub]. rewrite Hd, Hi.
  apply Qle_bool_iff.
Qed.

(** The quotient is rounded: at 90 frames a second [interval] is a
    double below [1000 / 90], and a frame that comes exactly that double
    after the last execution passes the test. *)
Lemma interval_is_rounded :
  match Script.interval 90 with
  | DFin i => (i < 1000 / 90)%Q /\ Script.due 90 i 0 = true
  | _ => False
  end.
Proof. vm_compute. split; reflexivity. Qed.

Lemma wrapped_one_pending (args : A) (t : Script.Throttle A) :
  one_pending t -> one_pending (Script.wrapped args t).
Proof.
  unfold one_pending, Script.wrapped.
  destruct (Script.requestId t) as [h|] eqn:E; cbn.
  - rewrite E. exact id.
  - intros ->. exists args. reflexivity.
Qed.



(** A frame with one registered callback. *)
Lemma frame_pending h args now t s :
  Script.rafQueue t = [(h, args)] ->
  Script.frame fps callback now (t, s)
  = if Script.due fps now (Script.lastTime t) then
      ({| Script.requestId := None; Script.lastTime := now;
          Script.rafQueue := []; Script.rafNext := Script.rafNext t;
          Script.ran := Script.ran t ++ [(now, args)] |},
       callback args s)
    else
      ({| Script.requestId := None; Script.lastTime := Script.lastTime t;
          Script.rafQueue := []; Script.rafNext := Script.rafNext t;
          Script.ran := Script.ran t |},
       s).
Proof.
  intros Hq. unfold Script.frame. rewrite Hq. cbn.
  destruct (Script.due fps now (Script.lastTime t)); reflexivity.
Qed.

(** A frame with nothing registered. *)
Lemma frame_idle now t s :
  Script.requestId t = None -> Script.rafQueue t = [] ->
  Script.frame fps callback now (t, s) = (t, s).
Proof.
  intros Hr Hq. unfold Script.frame. rewrite Hq. cbn.
  destruct t; cbn in *; subst; reflexivity.
Qed.






(** A frame keeps whatever the callback keeps. *)
Lemma frame_preserves (P : U -> Prop) now ts :
  (forall a s, P s -> P (callback a s)) ->
  P (snd ts) -> P (snd (Script.frame fps callback now ts)).
Proof.
  intros Hcb. destruct ts as [t s]. unfold Script.frame. cbn [snd].
  generalize ({| Script.requestId := Script.requestId t;
                 Script.lastTime := Script.lastTime t;
                 Script.rafQueue := [];
                 Script.rafNext := Script.rafNext t;
                 Script.ran := Script.ran t |}).
  generalize (Script.rafQueue t). intros q. revert s.
  induction q as [|[h a] q IH]; intros s t' Hs; cbn; [exact Hs|].
  unfold Script.onFrame.
  destruct (Script.due fps now (Script.lastTime t')); apply IH; auto.
Qed.

End ScriptThrottle.

Section JamboreeThrottle.

Context {A U : Type}.
Variable callback : A -> U -> U.

Abbreviation jrun := (fold_left (Jamboree.throttle_step callback)).

Lemma jframe_pending h args now t s :
  Jamboree.rafQueue t = [(h, args)] ->
  Jamboree.frame callback now (t, s)
  = ({| Jamboree.requestId := None; Jamboree.rafQueue := [];
        Jamboree.rafNext := Jamboree.rafNext t;
        Jamboree.ran := Jamboree.ran t ++ [(now, args)] |},
     callback args s).
Proof. intros Hq. unfold Jamboree.frame. rewrite Hq. reflexivity. Qed.

Lemma jframe_idle now t s :
  Jamboree.requestId t = None -> Jamboree.rafQueue t = [] ->
  Jamboree.frame callback now (t, s) = (t, s).
Proof.
  intros Hr Hq. unfold Jamboree.frame. rewrite Hq. cbn.
  destruct t; cbn in *; subst; reflexivity.
Qed.

Lemma jstep_invariant (ts : Jamboree.Throttle A * U) ev :
  jone_pending (fst ts) ->
  jone_pending (fst (Jamboree.throttle_step callback ts ev)).
Proof.
  destruct ts as [t s]. intros Hp.
  destruct ev as [args|now]; cbn [Jamboree.throttle_step fst snd] in *.
  - unfold jone_pending, Jamboree.wrapped in *.
    destruct (Jamboree.requestId t) as [h|] eqn:E; cbn.
    + rewrite E. exact Hp.
    + rewrite Hp. exists args. reflexivity.
  - unfold jone_pending in Hp.
    destruct (Jamboree.requestId t) as [h|] eqn:E.
    + destruct Hp as [args Hq]. rewrite (jframe_pending h args now t s Hq).
      reflexivity.
    + rewrite (jframe_idle now t s E Hp). unfold jone_pending. cbn.
      rewrite E. exact Hp.
Qed.




Lemma jframe_preserves (P : U -> Prop) now ts :
  (forall a s, P s -> P (callback a s)) ->
  P (snd ts) -> P (snd (Jamboree.frame callback now ts)).
Proof.
  intros Hcb. destruct ts as [t s]. unfold Jamboree.frame. cbn [snd].
  generalize ({| Jamboree.requestId := Jamboree.requestId t;
                 Jamboree.rafQueue := [];
                 Jamboree.rafNext := Jamboree.rafNext t;
                 Jamboree.ran := Jamboree.ran t |}).
  generalize (Jamboree.rafQueue t). intros q. revert s.
  induction q as [|[h a] q IH]; intros s t' Hs; cbn; [exact Hs|].
  apply IH; auto.
Qed.

End JamboreeThrottle.




(** ** The menu *)

Lemma openNav_in_sync els m : in_sync m -> in_sync (openNav els m).
Proof.
  unfold in_sync, openNav. destruct (isOpen m) eqn:E; cbn.
  - rewrite E. exact id.
  - intros _. split; reflexivity.
Qed.

Lemma closeNav_in_sync els m : in_sync m -> in_sync (closeNav els m).
Proof.
  unfold in_sync, closeNav. destruct (isOpen m) eqn:E; cbn.
  - intros _. split; discriminate.
  - rewrite E. exact id.
Qed.

Lemma toggle_in_sync els m : in_sync m -> in_sync (toggle els m).
Proof.
  unfold toggle. destruct (isOpen m);
    [apply closeNav_in_sync|apply openNav_in_sync].
Qed.

Lemma keydown_in_sync els key m : in_sync m -> in_sync (keydown els key m).
Proof.
  unfold keydown. destruct (_ && _); [apply closeNav_in_sync|exact id].
Qed.

Lemma keydown_closed els key m : isOpen m = false -> keydown els key m = m.
Proof.
  intros H. unfold keydown. rewrite H, andb_false_r. reflexivity.
Qed.

Lemma toggle_one_transition els m :
  one_transition els m -> one_transition els (toggle els m).
Proof.
  unfold one_transition, toggle, openNav, closeNav.
  destruct (isOpen m); cbn; intros H; [right; right|right; left]; reflexivity.
Qed.

Lemma keydown_one_transition els key m :
  one_transition els m -> one_transition els (keydown els key m).
Proof.
  unfold one_transition, keydown, closeNav.
  destruct (_ && _); [|exact id].
  destruct (isOpen m); cbn; [|exact id]. intros _. right; right; reflexivity.
Qed.

Lemma script_menu_run_preserves (P : Menu -> Prop) els evs s :
  (forall m, P m -> P (toggle els m)) ->
  (forall key m, P m -> P (keydown els key m)) ->
  P (snd s) -> P (snd (Script.menu_run els evs s)).
Proof.
  intros Ht Hk. unfold Script.menu_run. revert s.
  induction evs as [|ev evs IH]; intros s H; cbn [fold_left]; [exact H|].
  apply IH. destruct ev as [e|now|key]; cbn [Script.menu_step snd].
  - exact H.
  - apply frame_preserves; [intros _; exact Ht|exact H].
  - apply Hk, H.
Qed.

Lemma jamboree_menu_run_preserves (P : Menu -> Prop) els evs s :
  (forall m, P m -> P (toggle els m)) ->
  (forall key m, P m -> P (keydown els key m)) ->
  P (snd s) -> P (snd (Jamboree.menu_run els evs s)).
Proof.
  intros Ht Hk. unfold Jamboree.menu_run. revert s.
  induction evs as [|ev evs IH]; intros s H; cbn [fold_left]; [exact H|].
  apply IH. destruct ev as [e|now|key]; cbn [Jamboree.menu_step snd].
  - exact H.
  - apply jframe_preserves; [intros _; exact Ht|exact H].
  - apply Hk, H.
Qed.

(** C10. When the markup does not start with [data-nav="open"], after
    any clicks, frames and key presses the attribute is ["open"] exactly
    when [isOpen] is set, in script.js and in jamboree.js; and a key
    press (Escape included) while [isOpen] is unset leaves the attribute,
    the flag, the timeline and the throttle as they were. *)
Theorem data_nav_tracks_isOpen (els : MenuElements) (attr0 : option string)
    (cls0 : bool) (aria0 : option string) (evs : list MenuEvent) :
  attr0 <> Some "open" ->
  let start := initMenu els attr0 cls0 aria0 in
  let s := Script.menu_run els evs (Script.rafThrottle nat, start) in
  let j := Jamboree.menu_run els evs (Jamboree.rafThrottle nat, start) in
  (data_nav (snd s) = Some "open" <-> isOpen (snd s) = true)
  /\ (data_nav (snd j) = Some "open" <-> isOpen (snd j) = true)
  /\ (isOpen (snd s) = false -> Script.menu_step els s (KeyDown "Escape") = s)
  /\ (isOpen (snd j) = false -> Jamboree.menu_step els j (KeyDown "Escape") = j).
Proof.
  intros Hattr. cbn zeta.
  assert (H0 : in_sync (initMenu els attr0 cls0 aria0)).
  { unfold in_sync, initMenu. cbn. split; [intros E; contradiction|discriminate]. }
  split; [apply (script_menu_run_preserves in_sync);
          auto using toggle_in_sync, keydown_in_sync|].
  split; [apply (jamboree_menu_run_preserves in_sync);
          auto using toggle_in_sync, keydown_in_sync|].
  split.
  - destruct (Script.menu_run _ _ _) as [t m]. cbn. intros E.
    rewrite keydown_closed by exact E. reflexivity.
  - destruct (Jamboree.menu_run _ _ _) as [t m]. cbn. intros E.
    rewrite keydown_closed by exact E. reflexivity.
Qed.

Lemma data_nav_tracks_isOpen_witness :
  let start := initMenu sample_menu (Some "closed") false None in
  let evs := [Click 1; Frame 1000; KeyDown "Escape"; KeyDown "Escape"] in
  let s := Script.menu_run sample_menu evs (Script.rafThrottle nat, start) in
  Some "closed" <> Some "open"
  /\ (data_nav (snd s) = Some "open" <-> isOpen (snd s) = true)
  /\ isOpen (snd s) = false.
Proof.
  cbn zeta.
  assert (Hne : Some "closed" <> Some "open") by discriminate.
  split; [exact Hne|].
  split; [|reflexivity].
  exact (proj1 (data_nav_tracks_isOpen sample_menu (Some "closed") false None
                  [Click 1; Frame 1000; KeyDown "Escape"; KeyDown "Escape"]
                  Hne)).
Defined.

(** C5, as stated, fails: a second click that arrives before the frame
    of the first is dropped by the throttle, and so is one whose frame
    comes less than [1000 / 30] ms after the first ran; the menu stays
    open. *)
Lemma rapid_second_toggle_is_dropped :
  let start := initMenu sample_menu (Some "closed") false None in
  let same_frame :=
    Script.menu_run sample_menu [Click 1; Click 2; Frame 1000]
      (Script.rafThrottle nat, start) in
  let next_frame :=
    Script.menu_run sample_menu [Click 1; Frame 1000; Click 2; Frame 1016]
      (Script.rafThrottle nat, start) in
  (isOpen (snd same_frame) = true
   /\ data_nav (snd same_frame) = Some "open"
   /\ is_opened (snd same_frame) = true
   /\ aria_label (snd same_frame) = Some "Close menu")
  /\ (isOpen (snd next_frame) = true
      /\ data_nav (snd next_frame) = Some "open").
Proof. cbn zeta. repeat split. Qed.

(** A click on an idle throttle and the frame that follows: the toggle
    runs when the frame passes the test of the throttle, and is
    discarded otherwise. A key press in between acts at once. *)
Lemma script_click_key_frame els (t : Script.Throttle nat) m e keys now :
  Script.requestId t = None -> Script.rafQueue t = [] ->
  Script.menu_run els (Click e :: map KeyDown keys ++ [Frame now]) (t, m)
  = let m' := fold_left (fun m key => keydown els key m) keys m in
    if Script.due 30 now (Script.lastTime t) then
      ({| Script.requestId := None; Script.lastTime := now;
          Script.rafQueue := []; Script.rafNext := S (Script.rafNext t);
          Script.ran := Script.ran t ++ [(now, e)] |},
       toggle els m')
    else
      ({| Script.requestId := None; Script.lastTime := Script.lastTime t;
          Script.rafQueue := []; Script.rafNext := S (Script.rafNext t);
          Script.ran := Script.ran t |},
       m').
Proof.
  intros Hr Hq. unfold Script.menu_run.
  cbn [fold_left Script.menu_step fst snd]. rewrite fold_left_app.
  assert (Hw : Script.wrapped e t
               = {| Script.requestId := Some (Script.rafNext t);
                    Script.lastTime := Script.lastTime t;
                    Script.rafQueue := [(Script.rafNext t, e)];
                    Script.rafNext := S (Script.rafNext t);
                    Script.ran := Script.ran t |}).
  { unfold Script.wrapped. rewrite Hr, Hq. reflexivity. }
  rewrite Hw. generalize dependent m.
  induction keys as [|key keys IH]; intros m.
  - cbn [map fold_left Script.menu_step fst snd].
    rewrite (frame_pending 30 (fun _ : nat => toggle els) (Script.rafNext t) e)
      by reflexivity.
    reflexivity.
  - cbn [map fold_left Script.menu_step fst snd]. apply IH.
Qed.

Lemma script_menu_one_pending els evs (s : Script.Throttle nat * Menu) :
  one_pending (fst s) -> one_pending (fst (Script.menu_run els evs s)).
Proof.
  unfold Script.menu_run. revert s.
  induction evs as [|ev evs IH]; intros [t m] H; cbn [fold_left]; [exact H|].
  apply IH. destruct ev as [e|now|key]; cbn [Script.menu_step fst snd] in *.
  - apply wrapped_one_pending, H.
  - unfold one_pending in H.
    destruct (Script.requestId t) as [h|] eqn:E.
    + destruct H as [args Hq].
      rewrite (frame_pending 30 (fun _ : nat => toggle els) h args now t m Hq).
      destruct (Script.due 30 now (Script.lastTime t)); reflexivity.
    + rewrite (frame_idle 30 (fun _ : nat => toggle els) now t m E H).
      unfold one_pending. cbn [fst]. rewrite E. exact H.
  - exact H.
Qed.

Lemma toggle_closed els m :
  isOpen m = false ->
  isOpen (toggle els m) = true /\ data_nav (toggle els m) = Some "open"
  /\ menu_tl (toggle els m) = open_steps els [].
Proof.
  intros H. unfold toggle, openNav. rewrite H. cbn. repeat split.
Qed.

Lemma toggle_open els m :
  isOpen m = true ->
  isOpen (toggle els m) = false /\ data_nav (toggle els m) = Some "closed"
  /\ menu_tl (toggle els m) = close_steps els []
  /\ (forall b, menuButton els = Some b ->
      is_opened (toggle els m) = false
      /\ aria_label (toggle els m) = Some "Open menu").
Proof.
  intros H. unfold toggle, closeNav. rewrite H. cbn.
  repeat split; rewrite H0; reflexivity.
Qed.

(** C5, amended. From any closed state the menu can get into, with no
    toggle pending, two toggles end closed when the throttle lets both
    through: each click is followed by its own frame, and each frame
    passes the test of the throttle, the first against the last
    execution so far and the second against the first. The attribute,
    the button class and the label are then those of the closed state.
    After any events the one timeline holds only the steps of the latest
    transition, each transition having cleared it first. *)
Theorem two_executed_toggles_close_the_menu (els : MenuElements)
    (attr0 : option string) (cls0 : bool) (aria0 : option string)
    (before : list MenuEvent) (e1 e2 : nat) (t1 t2 : Q)
    (evs : list MenuEvent) :
  let start := (Script.rafThrottle nat, initMenu els attr0 cls0 aria0) in
  let s0 := Script.menu_run els before start in
  isOpen (snd s0) = false ->
  Script.requestId (fst s0) = None ->
  Script.due 30 t1 (Script.lastTime (fst s0)) = true ->
  Script.due 30 t2 t1 = true ->
  let opened := snd (Script.menu_run els [Click e1; Frame t1] s0) in
  let closed :=
    snd (Script.menu_run els [Click e1; Frame t1; Click e2; Frame t2] s0) in
  (isOpen opened = true /\ data_nav opened = Some "open"
   /\ menu_tl opened = open_steps els [])
  /\ (isOpen closed = false /\ data_nav closed = Some "closed"
      /\ menu_tl closed = close_steps els []
      /\ (forall b, menuButton els = Some b ->
          is_opened closed = false /\ aria_label closed = Some "Open menu"))
  /\ (let m := snd (Script.menu_run els evs start) in
      menu_tl m = [] \/ menu_tl m = open_steps els []
      \/ menu_tl m = close_steps els []).
Proof.
  cbn zeta. intros Hclosed Hidle H1 H2.
  pose proof (script_menu_one_pending els before
                (Script.rafThrottle nat, initMenu els attr0 cls0 aria0)
                eq_refl) as Hp.
  destruct (Script.menu_run els before _) as [t m].
  cbn [fst snd] in *. unfold one_pending in Hp. rewrite Hidle in Hp.
  assert (Hfirst :
    Script.menu_run els [Click e1; Frame t1] (t, m)
    = ({| Script.requestId := None; Script.lastTime := t1;
          Script.rafQueue := []; Script.rafNext := S (Script.rafNext t);
          Script.ran := Script.ran t ++ [(t1, e1)] |},
       toggle els m)).
  { pose proof (script_click_key_frame els t m e1 [] t1 Hidle Hp) as Hf.
    cbn [map app fold_left] in Hf. cbn zeta in Hf. rewrite H1 in Hf.
    exact Hf. }
  destruct (toggle_closed els m Hclosed) as (Ho1 & Ho2 & Ho3).
  split; [|split].
  - rewrite Hfirst. cbn [snd]. repeat split; assumption.
  - change [Click e1; Frame t1; Click e2; Frame t2]
      with ([Click e1; Frame t1] ++ [Click e2; Frame t2]).
    unfold Script.menu_run in *. rewrite fold_left_app, Hfirst.
    pose proof (script_click_key_frame els
                  {| Script.requestId := None; Script.lastTime := t1;
                     Script.rafQueue := [];
                     Script.rafNext := S (Script.rafNext t);
                     Script.ran := Script.ran t ++ [(t1, e1)] |}
                  (toggle els m) e2 [] t2 eq_refl eq_refl) as Hsecond.
    unfold Script.menu_run in Hsecond. cbn [map app] in Hsecond.
    rewrite Hsecond. cbn zeta. cbn [Script.lastTime fold_left].
    rewrite H2. cbn [snd].
    apply toggle_open, Ho1.
  - apply (script_menu_run_preserves (one_transition els)).
    + apply toggle_one_transition.
    + apply keydown_one_transition.
    + left. reflexivity.
Qed.

Lemma two_executed_toggles_close_the_menu_witness :
  let start :=
    (Script.rafThrottle nat, initMenu sample_menu (Some "closed") false None) in
  let s0 :=
    Script.menu_run sample_menu
      [Click 1; Frame 1000; Click 2; Frame 1100] start in
  let closed :=
    snd (Script.menu_run sample_menu
           [Click 3; Frame 1200; Click 4; Frame 1300] s0) in
  isOpen (snd s0) = false
  /\ isOpen closed = false /\ data_nav closed = Some "closed"
  /\ menu_tl closed = close_steps sample_menu [].
Proof.
  cbn zeta. split; [vm_compute; reflexivity|].
  destruct (two_executed_toggles_close_the_menu sample_menu (Some "closed")
              false None [Click 1; Frame 1000; Click 2; Frame 1100]
              3 4 1200 1300 [])
    as (_ & (Ha & Hb & Hc & _) & _).
  - vm_compute. reflexivity.
  - vm_compute. reflexivity.
  - vm_compute. reflexivity.
  - vm_compute. reflexivity.
  - split; [exact Ha|]. split; [exact Hb|exact Hc].
Defined.

(** ** The batch processor *)

Section Batches.

Context {A : Type}.
Variable items : list A.

Lemma take_min_length (n : nat) (l : list A) :
  take (n `min` length l) l = take n l.
Proof.
  destruct (Nat.le_gt_cases n (length l)) as [H|H].
  - rewrite Nat.min_l by exact H. reflexivity.
  - rewrite Nat.min_r by lia. rewrite !take_ge by lia. reflexivity.
Qed.

(** Within the array and with a size that is not negative, [slice] is
    [take] after [drop]. *)
Lemma js_slice_forward (i size : nat) :
  Script.js_slice items (Z.of_nat i) (Z.of_nat i + Z.of_nat size)
  = take size (drop i items).
Proof.
  unfold Script.js_slice.
  assert (H1 : (Z.of_nat i <? 0)%Z = false) by (apply Z.ltb_ge; lia).
  assert (H2 : (Z.of_nat i + Z.of_nat size <? 0)%Z = false)
    by (apply Z.ltb_ge; lia).
  rewrite H1, H2.
  destruct (Nat.le_gt_cases i (length items)) as [H|H].
  - rewrite (Z.min_l (Z.of_nat i)) by lia. rewrite Nat2Z.id.
    rewrite <- (take_min_length size (drop i items)), length_drop.
    f_equal. lia.
  - rewrite (Z.min_r (Z.of_nat i)) by lia. rewrite Nat2Z.id.
    rewrite Z.min_r by lia. rewrite Z.sub_diag. cbn.
    rewrite (drop_ge items i) by lia. rewrite take_nil. reflexivity.
Qed.

(** With a size that is not positive, [slice] yields a prefix from index
    [0] and nothing from a negative index. *)
Lemma js_slice_backward (i size : Z) :
  (i <= 0)%Z -> (size <= 0)%Z ->
  (i = 0%Z /\ exists m, Script.js_slice items i (i + size) = take m items)
  \/ ((i < 0)%Z /\ Script.js_slice items i (i + size) = []).
Proof.
  intros Hi Hs. unfold Script.js_slice. cbv zeta.
  destruct (Z.eq_dec i 0%Z) as [->|Hne].
  - left. split; [reflexivity|]. cbv zeta. cbn [Z.ltb Z.compare].
    replace (0 `min` Z.of_nat (length items))%Z with 0%Z by lia.
    cbn [Z.to_nat drop]. eexists. reflexivity.
  - right. split; [lia|].
    assert (H1 : (i <? 0)%Z = true) by (apply Z.ltb_lt; lia).
    assert (H2 : (i + size <? 0)%Z = true) by (apply Z.ltb_lt; lia).
    rewrite H1, H2.
    replace (Z.to_nat (Z.max (Z.of_nat (length items) + (i + size)) 0
                       - Z.max (Z.of_nat (length items) + i) 0)) with 0%nat
      by lia.
    reflexivity.
Qed.

Variable batchSize : Z.

Abbreviation after := (Script.batch_after items batchSize).

Lemma batch_after_S n :
  after (S n) = Script.batch_frame items batchSize (after n).
Proof. reflexivity. Qed.

(** The items handed to the processor are those of the batches, in
    order. *)
Lemma visited_concat n :
  Script.visited (after n) = concat (Script.batches (after n)).
Proof.
  induction n as [|n IH].
  - unfold Script.batch_after, Script.processBatch. cbn [Nat.iter].
    destruct (0 <? _)%Z; cbn; [rewrite app_nil_r|]; reflexivity.
  - rewrite batch_after_S. unfold Script.batch_frame.
    destruct (Script.scheduled (after n)); [|exact IH].
    unfold Script.processNext. cbn. rewrite concat_app, IH. cbn.
    rewrite app_nil_r. reflexivity.
Qed.

(** *** Sizes that are not positive *)

Lemma processNext_stalled (b : Script.Batch A) :
  (batchSize <= 0)%Z -> stalled items b ->
  stalled items (Script.processNext items batchSize b).
Proof.
  intros Hs (Hi & H0 & m & Hm). unfold stalled, Script.processNext. cbn.
  destruct (js_slice_backward (Script.index b) batchSize Hi Hs)
    as [[Hz [m' Hm']]|[Hneg Hnil]].
  - rewrite Hm', (H0 Hz). cbn. split; [lia|]. split; [|eauto].
    intros E. assert (batchSize = 0%Z) as -> by lia.
    rewrite Hz in Hm'. rewrite <- Hm'. change (0 + 0)%Z with 0%Z.
    unfold Script.js_slice. cbv zeta. cbn [Z.ltb Z.compare].
    replace (0 `min` Z.of_nat (length items))%Z with 0%Z by lia.
    reflexivity.
  - rewrite Hnil, app_nil_r. split; [lia|]. split; [lia|eauto].
Qed.

Lemma after_stalled n : (batchSize <= 0)%Z -> stalled items (after n).
Proof.
  intros Hs.
  assert (H0 : stalled items {| Script.index := 0; Script.scheduled := false;
                          Script.visited := []; Script.batches := [] |}).
  { split; [reflexivity|]. split; [reflexivity|]. exists 0%nat. reflexivity. }
  induction n as [|n IH].
  - unfold Script.batch_after, Script.processBatch. cbn [Nat.iter].
    destruct (0 <? _)%Z; [apply processNext_stalled; assumption|exact H0].
  - rewrite batch_after_S. unfold Script.batch_frame.
    destruct (Script.scheduled (after n)); [|exact IH].
    apply processNext_stalled; assumption.
Qed.

(** *** Positive sizes *)

Lemma processNext_chunked size c (b : Script.Batch A) :
  batchSize = Z.of_nat size ->
  Script.index b = Z.of_nat (c * size) ->
  Script.visited b = take (c * size) items ->
  length (Script.batches b) = c ->
  (forall i batch, Script.batches b !! i = Some batch ->
                   batch = take size (drop (i * size) items)) ->
  chunked items size c (Script.processNext items batchSize b).
Proof.
  intros -> Hi Hv Hl Hb. exists (S c). unfold Script.processNext. cbn.
  rewrite Hi, js_slice_forward, Hv.
  split; [lia|].
  split; [rewrite take_take_drop; f_equal; lia|].
  split; [rewrite length_app, Hl; cbn; lia|].
  split.
  { intros i batch Hlk. apply lookup_app_Some in Hlk as [Hlk|[Hge Hlk]].
    - apply Hb, Hlk.
    - apply list_lookup_singleton_Some in Hlk as [Hidx <-].
      replace i with c by lia. reflexivity. }
  split; [f_equal; lia|].
  split; [lia|reflexivity].
Qed.

Lemma after_chunked size n :
  (0 < size)%nat -> batchSize = Z.of_nat size -> chunked items size n (after n).
Proof.
  intros Hpos Hs. induction n as [|n IH].
  - unfold Script.batch_after, Script.processBatch. cbn [Nat.iter].
    destruct (0 <? Z.of_nat (length items))%Z eqn:E.
    + apply (processNext_chunked size 0); try reflexivity; [exact Hs|].
      intros i batch Hlk. cbn in Hlk. rewrite lookup_nil in Hlk. discriminate.
    + exists 0%nat.
      split; [reflexivity|]. split; [reflexivity|]. split; [reflexivity|].
      split; [intros i batch Hlk; cbn in Hlk; rewrite lookup_nil in Hlk;
              discriminate|].
      split; [symmetry; exact E|].
      split; [lia|discriminate].
  - rewrite batch_after_S. unfold Script.batch_frame.
    destruct IH as (c & Hi & Hv & Hl & Hb & Hsch & Hle & Hc).
    destruct (Script.scheduled (after n)) eqn:E.
    + specialize (Hc eq_refl). rewrite Hc in *.
      apply (processNext_chunked size (S n)); assumption.
    + exists c. rewrite E. repeat split; try assumption; try lia; discriminate.
Qed.

(** The synchronous part: the first slice, and a frame requested when
    the input is longer. *)
Lemma processBatch_first size :
  (0 < size)%nat -> batchSize = Z.of_nat size ->
  Script.visited (Script.processBatch items batchSize) = take size items
  /\ Script.scheduled (Script.processBatch items batchSize)
     = (batchSize <? Z.of_nat (length items))%Z.
Proof.
  intros Hpos ->. unfold Script.processBatch.
  destruct (0 <? Z.of_nat (length items))%Z eqn:E.
  - unfold Script.processNext. cbn [Script.visited Script.scheduled Script.index].
    change 0%Z with (Z.of_nat 0). rewrite js_slice_forward.
    split; reflexivity.
  - apply Z.ltb_ge in E. destruct items as [|x l]; [|cbn in E; lia].
    cbn [Script.visited Script.scheduled]. rewrite take_nil.
    split; [reflexivity|]. symmetry. apply Z.ltb_ge. cbn. lia.
Qed.

End Batches.

(** C6. Whatever the batch size, the items handed to the processor after
    any number of frames are a prefix of the input (each position at most
    once, in input order) and are the batches taken so far, in order. For
    a positive size, the [i]-th batch is the slice of that size at offset
    [i * size] (shorter only where the input ends); the synchronous call
    handles the first slice alone and asks for a frame when more
    remains; each frame handles one more slice; and once the frames cover
    the input every item has been visited and nothing is scheduled. *)
Theorem processBatch_slices_in_order {A : Type} (items : list A)
    (batchSize : Z) (n : nat) :
  let b := Script.batch_after items batchSize n in
  let size := Z.to_nat batchSize in
  (exists m, Script.visited b = take m items)
  /\ Script.visited b = concat (Script.batches b)
  /\ ((0 < batchSize)%Z ->
      (forall i batch, Script.batches b !! i = Some batch ->
                       batch = take size (drop (i * size) items))
      /\ Script.visited (Script.processBatch items batchSize) = take size items
      /\ Script.scheduled (Script.processBatch items batchSize)
         = (batchSize <? Z.of_nat (length items))%Z
      /\ (length (Script.batches b) <= S n)%nat
      /\ (Script.scheduled b = true -> length (Script.batches b) = S n)
      /\ ((length items <= S n * size)%nat ->
          Script.visited b = items /\ Script.scheduled b = false)).
Proof.
  cbn zeta. split; [|split].
  - destruct (Z.lt_ge_cases 0 batchSize) as [Hpos|Hneg].
    + destruct (after_chunked items batchSize (Z.to_nat batchSize) n)
        as (c & _ & Hv & _); [lia|lia|]. eauto.
    + destruct (after_stalled items batchSize n Hneg) as (_ & _ & H). exact H.
  - apply visited_concat.
  - intros Hpos.
    assert (Hsz : (0 < Z.to_nat batchSize)%nat) by lia.
    assert (Hb : batchSize = Z.of_nat (Z.to_nat batchSize)) by lia.
    destruct (after_chunked items batchSize _ n Hsz Hb)
      as (c & Hi & Hv & Hl & Hbat & Hsch & Hle & Hc).
    destruct (processBatch_first items batchSize _ Hsz Hb) as [Hv0 Hsch0].
    split; [exact Hbat|].
    split; [exact Hv0|].
    split; [exact Hsch0|].
    split; [lia|].
    split; [intros E; rewrite Hl; apply Hc, E|].
    intros Hcover.
    destruct (Script.scheduled (Script.batch_after items batchSize n)) eqn:E.
    + specialize (Hc eq_refl). rewrite Hc in *. symmetry in Hsch.
      apply Z.ltb_lt in Hsch. lia.
    + split; [|reflexivity]. rewrite Hv. apply take_ge.
      symmetry in Hsch. apply Z.ltb_ge in Hsch. lia.
Qed.

Lemma processBatch_slices_in_order_witness :
  let b := Script.batch_after [1; 2; 3; 4; 5; 6; 7]%nat 3 2 in
  Script.batches b = [[1; 2; 3]; [4; 5; 6]; [7]]%nat
  /\ Script.visited b = [1; 2; 3; 4; 5; 6; 7]%nat
  /\ Script.scheduled b = false.
Proof.
  cbn zeta.
  destruct (processBatch_slices_in_order [1; 2; 3; 4; 5; 6; 7]%nat 3 2)
    as (_ & _ & H).
  assert (Hpos : (0 < 3)%Z) by lia.
  destruct (H Hpos) as (_ & _ & _ & _ & _ & Hdone).
  assert (Hcover : (length [1; 2; 3; 4; 5; 6; 7]%nat <= 3 * Z.to_nat 3)%nat)
    by (cbn; lia).
  destruct (Hdone Hcover) as [Hv Hs].
  split; [reflexivity|]. split; [exact Hv|exact Hs].
Defined.

(** * Further properties of the code *)

(** ** Selectors *)

Lemma append_cancel_l (p a b : string) : p +:+ a = p +:+ b -> a = b.
Proof.
  induction p as [|c p IH]; cbn; [exact id|].
  intros H. injection H as H. exact (IH H).
Qed.

Lemma length_append (a b : string) :
  String.length (a +:+ b) = (String.length a + String.length b)%nat.
Proof. induction a as [|c a IH]; simpl; [reflexivity|]. f_equal. exact IH. Qed.

Lemma append_cancel_r (s a b : string) : a +:+ s = b +:+ s -> a = b.
Proof.
  revert b. induction a as [|c a IH]; intros [|c' b] H.
  - reflexivity.
  - exfalso. apply (f_equal String.length) in H.
    change (String.length s = S (String.length (b +:+ s))) in H.
    rewrite length_append in H. lia.
  - exfalso. apply (f_equal String.length) in H.
    change (S (String.length (a +:+ s)) = String.length s) in H.
    rewrite length_append in H. lia.
  - change (String c (a +:+ s) = String c' (b +:+ s)) in H.
    injection H as -> H. f_equal. exact (IH _ H).
Qed.

(** Selectors of distinct kinds are distinct. *)
Lemma attr_sel_inj (name k k' : string) :
  attr_sel name k = attr_sel name k' -> k = k'.
Proof.
  unfold attr_sel. intros H.
  apply append_cancel_l, append_cancel_l, append_cancel_l, append_cancel_l in H.
  exact (append_cancel_r _ _ _ H).
Qed.

Lemma hero_page_coherent (kind : string) (e : Elem) :
  In e (querySelectorAll hero_page
          (attr_sel "data-animation-trigger" kind) None) ->
  animationTrigger hero_page e = Some kind.
Proof.
  cbn [hero_page querySelectorAll animationTrigger].
  destruct (String.eqb _ _) eqn:E; [|intros []].
  apply String.eqb_eq, attr_sel_inj in E. subst kind.
  intros [<-|[]]. reflexivity.
Qed.

(** ** Debounce *)

Section Timers.

Context {A : Type}.

Lemma clearTimeout_armed (id : nat) (due : Q) (args : A) (n : nat) :
  clearTimeout (Some id) {| pending := [(id, (due, args))]; timerNext := n |}
  = {| pending := []; timerNext := n |}.
Proof. unfold clearTimeout. cbn. rewrite Nat.eqb_refl. reflexivity. Qed.

Lemma clearTimeout_empty (id : option nat) (n : nat) :
  clearTimeout id {| pending := @nil (nat * (Q * A)); timerNext := n |}
  = {| pending := []; timerNext := n |}.
Proof. destruct id; reflexivity. Qed.

Lemma last_cons (l : list A) (x d : A) : List.last (x :: l) d = List.last l x.
Proof.
  revert x d. induction l as [|y l IH]; intros x d; [reflexivity|].
  change (List.last (x :: y :: l) d) with (List.last (y :: l) d).
  rewrite !IH. reflexivity.
Qed.

Lemma not_yet_due (t wait now : Q) :
  (now < t + wait)%Q -> Qle_bool (t + wait) now = false.
Proof.
  intros H. destruct (Qle_bool (t + wait) now) eqn:E; [|reflexivity].
  apply Qle_bool_iff in E. exfalso. apply (Qlt_not_le _ _ H E).
Qed.

Lemma now_due (t wait now : Q) :
  (t + wait <= now)%Q -> Qle_bool (t + wait) now = true.
Proof. apply Qle_bool_iff. Qed.

End Timers.

Section ScriptDebounce.

Context {A U : Type}.
Variable func : A -> U -> U.
Variable wait : Q.
Variable immediate : bool.

Abbreviation dstep := (Script.debounce_step func wait immediate).

(** A call while a timer is pending replaces the timer and runs nothing. *)
Lemma debounced_armed t a now b d u :
  armed wait t a d ->
  exists d', Script.debounced func wait immediate now b (d, u) = (d', u)
             /\ armed wait now b d'.
Proof.
  intros (id & Ht & Hp).
  destruct d as [to [pend nxt]]. cbn [timeout host pending timerNext] in *. subst.
  unfold Script.debounced. cbn [timeout host].
  rewrite clearTimeout_armed. cbn. rewrite andb_false_r.
  eexists. split; [reflexivity|]. exists nxt. split; reflexivity.
Qed.

(** The clock reaching a time before the timer is due changes nothing. *)
Lemma elapse_armed_early t a now d u :
  armed wait t a d -> (now < t + wait)%Q ->
  Script.elapse func immediate now (d, u) = (d, u).
Proof.
  intros (id & Ht & Hp) Hnow.
  destruct d as [to [pend nxt]]. cbn [timeout host pending timerNext] in *. subst.
  unfold Script.elapse, due_timers, without_due, is_due.
  cbn [timeout host pending timerNext List.filter fst snd].
  rewrite (not_yet_due t wait now Hnow). reflexivity.
Qed.

(** The timer fires: [timeout] is reset, and [func] runs unless the
    function is of the immediate kind. *)
Lemma elapse_armed_due t a now d u :
  armed wait t a d -> (t + wait <= now)%Q ->
  Script.elapse func immediate now (d, u)
  = ({| timeout := None;
        host := {| pending := []; timerNext := timerNext (host d) |} |},
     if immediate then u else func a u).
Proof.
  intros (id & Ht & Hp) Hnow.
  destruct d as [to [pend nxt]]. cbn [timeout host pending timerNext] in *. subst.
  unfold Script.elapse, due_timers, without_due, is_due.
  cbn [timeout host pending timerNext List.filter fst snd].
  rewrite (now_due t wait now Hnow). reflexivity.
Qed.

(** The rest of a burst, from an armed state. *)
Lemma burst_armed (calls : list (Q * A)) t a d u :
  armed wait t a d -> tight wait t calls ->
  exists d',
    fold_left dstep (burst_events calls) (d, u) = (d', u)
    /\ armed wait (fst (List.last calls (t, a))) (snd (List.last calls (t, a))) d'.
Proof.
  revert t a d. induction calls as [|[t' a'] calls IH]; intros t a d Ha Ht.
  - exists d. split; [reflexivity|exact Ha].
  - destruct Ht as [Hlt Ht].
    cbn [burst_events flat_map app fold_left fst snd Script.debounce_step].
    rewrite (elapse_armed_early t a t' d u Ha Hlt).
    destruct (debounced_armed t a t' a' d u Ha) as (d1 & -> & Ha1).
    destruct (IH t' a' d1 Ha1 Ht) as (d2 & Hrun & Ha2).
    exists d2. split; [exact Hrun|].
    rewrite last_cons. exact Ha2.
Qed.

(** The first call of a burst, from an idle state. *)
Lemma first_call_idle t a d u :
  timeout d = None -> pending (host d) = [] ->
  exists d',
    fold_left dstep [Elapse t; Invoke t a] (d, u)
    = (d', if immediate then func a u else u)
    /\ armed wait t a d'.
Proof.
  intros Ht Hp.
  destruct d as [to [pend nxt]]. cbn [timeout host pending timerNext] in *. subst.
  unfold Script.elapse, due_timers, without_due, Script.debounced. cbn.
  rewrite andb_true_r.
  eexists. split; [reflexivity|]. exists nxt. split; reflexivity.
Qed.

End ScriptDebounce.

(** X1. From an idle debounced function, a burst of
    calls each less than [wait] after the one before, followed by [wait]
    of silence, runs [func] exactly once: with the arguments of the last
    call and after the silence, or, for the immediate kind, with the
    arguments of the first call and at that call. Afterwards no timer is
    pending and [timeout] is [null]. *)
Theorem debounce_runs_once_per_burst {A U : Type} (func : A -> U -> U)
    (wait : Q) (immediate : bool) (t1 : Q) (a1 : A) (rest : list (Q * A))
    (T : Q) (d : Debounce A) (u : U) :
  timeout d = None ->
  pending (host d) = [] ->
  tight wait t1 rest ->
  (fst (List.last rest (t1, a1)) + wait <= T)%Q ->
  let during :=
    fold_left (Script.debounce_step func wait immediate)
      (burst_events ((t1, a1) :: rest)) (d, u) in
  let after := Script.debounce_step func wait immediate during (Elapse T) in
  snd during = (if immediate then func a1 u else u)
  /\ snd after
     = (if immediate then func a1 u
        else func (snd (List.last rest (t1, a1))) u)
  /\ timeout (fst after) = None
  /\ pending (host (fst after)) = [].
Proof.
  intros Ht Hp Htight Hsilence. cbn zeta.
  change (burst_events ((t1, a1) :: rest))
    with ([Elapse t1; Invoke t1 a1] ++ burst_events rest).
  rewrite fold_left_app.
  destruct (first_call_idle func wait immediate t1 a1 d u Ht Hp)
    as (d1 & -> & Ha1).
  destruct (burst_armed func wait immediate rest t1 a1 d1
              (if immediate then func a1 u else u) Ha1 Htight)
    as (d2 & -> & Ha2).
  cbn [snd Script.debounce_step].
  rewrite (elapse_armed_due func wait immediate _ _ T d2 _ Ha2 Hsilence).
  cbn [fst snd timeout host pending].
  destruct immediate; repeat split.
Qed.

Lemma debounce_runs_once_per_burst_witness :
  let record := fun (a : nat) (log : list nat) => log ++ [a] in
  snd (fold_left (Script.debounce_step record 250 false)
         (burst_events [(0%Q, 1%nat); (100%Q, 2%nat); (300%Q, 3%nat)]
          ++ [Elapse 550])
         (no_debounce nat, [])) = [3%nat]
  /\ snd (fold_left (Script.debounce_step record 250 true)
            (burst_events [(0%Q, 1%nat); (100%Q, 2%nat); (300%Q, 3%nat)]
             ++ [Elapse 550])
            (no_debounce nat, [])) = [1%nat].
Proof.
  cbn zeta. rewrite !fold_left_app. cbn [fold_left].
  assert (Htight : tight 250 0 [(100%Q, 2%nat); (300%Q, 3%nat)]).
  { cbn. repeat split. }
  assert (Hsilence :
            (fst (List.last [(100%Q, 2%nat); (300%Q, 3%nat)] (0%Q, 1%nat)) + 250
             <= 550)%Q).
  { cbn. apply Qle_bool_iff. reflexivity. }
  split.
  - exact (proj1 (proj2 (debounce_runs_once_per_burst
                           (fun (a : nat) (log : list nat) => log ++ [a])
                           250 false 0 1%nat _ 550 (no_debounce nat) []
                           eq_refl eq_refl Htight Hsilence))).
  - exact (proj1 (proj2 (debounce_runs_once_per_burst
                           (fun (a : nat) (log : list nat) => log ++ [a])
                           250 true 0 1%nat _ 550 (no_debounce nat) []
                           eq_refl eq_refl Htight Hsilence))).
Defined.

Section JamboreeDebounce.

Context {A U : Type}.
Variable func : A -> U -> U.
Variable wait : Q.

Abbreviation jdstep := (Jamboree.debounce_step func wait).

Lemma jdebounced_armed t (a : A) now (b : A) d (u : U) :
  armed wait t a d ->
  exists d', Jamboree.debounced wait now b (d, u) = (d', u)
             /\ armed wait now b d'.
Proof.
  intros (id & Ht & Hp).
  destruct d as [to [pend nxt]]. cbn [timeout host pending timerNext] in *. subst.
  unfold Jamboree.debounced. cbn [timeout host].
  rewrite clearTimeout_armed. cbn.
  eexists. split; [reflexivity|]. exists nxt. split; reflexivity.
Qed.

Lemma jelapse_armed_early t (a : A) now d (u : U) :
  armed wait t a d -> (now < t + wait)%Q ->
  Jamboree.elapse func now (d, u) = (d, u).
Proof.
  intros (id & Ht & Hp) Hnow.
  destruct d as [to [pend nxt]]. cbn [timeout host pending timerNext] in *. subst.
  unfold Jamboree.elapse, due_timers, without_due, is_due.
  cbn [timeout host pending timerNext List.filter fst snd].
  rewrite (not_yet_due t wait now Hnow). reflexivity.
Qed.

(** The timer fires and [func] runs; [timeout] keeps the spent handle. *)
Lemma jelapse_armed_due t a now d u :
  armed wait t a d -> (t + wait <= now)%Q ->
  Jamboree.elapse func now (d, u)
  = ({| timeout := timeout d;
        host := {| pending := []; timerNext := timerNext (host d) |} |},
     func a u).
Proof.
  intros (id & Ht & Hp) Hnow.
  destruct d as [to [pend nxt]]. cbn [timeout host pending timerNext] in *. subst.
  unfold Jamboree.elapse, due_timers, without_due, is_due.
  cbn [timeout host pending timerNext List.filter fst snd].
  rewrite (now_due t wait now Hnow). reflexivity.
Qed.

Lemma jburst_armed (calls : list (Q * A)) t a d u :
  armed wait t a d -> tight wait t calls ->
  exists d',
    fold_left jdstep (burst_events calls) (d, u) = (d', u)
    /\ armed wait (fst (List.last calls (t, a))) (snd (List.last calls (t, a))) d'.
Proof.
  revert t a d. induction calls as [|[t' a'] calls IH]; intros t a d Ha Ht.
  - exists d. split; [reflexivity|exact Ha].
  - destruct Ht as [Hlt Ht].
    cbn [burst_events flat_map app fold_left fst snd Jamboree.debounce_step].
    rewrite (jelapse_armed_early t a t' d u Ha Hlt).
    destruct (jdebounced_armed t a t' a' d u Ha) as (d1 & -> & Ha1).
    destruct (IH t' a' d1 Ha1 Ht) as (d2 & Hrun & Ha2).
    exists d2. split; [exact Hrun|].
    rewrite last_cons. exact Ha2.
Qed.

Lemma jfirst_call_idle t a d u :
  pending (host d) = [] ->
  exists d',
    fold_left jdstep [Elapse t; Invoke t a] (d, u) = (d', u)
    /\ armed wait t a d'.
Proof.
  intros Hp.
  destruct d as [to [pend nxt]]. cbn [timeout host pending timerNext] in *. subst.
  unfold Jamboree.elapse, due_timers, without_due, Jamboree.debounced.
  cbn [fold_left Jamboree.debounce_step]. unfold Jamboree.elapse.
  unfold due_timers, without_due. cbn [host pending timeout List.filter fold_left timerNext].
  unfold Jamboree.debounced. cbn [timeout host]. rewrite clearTimeout_empty. cbn.
  eexists. split; [reflexivity|]. exists nxt. split; reflexivity.
Qed.

End JamboreeDebounce.

(** X2. From a debounced function with no timer
    pending, a burst of calls each less than [wait] after the one before
    runs nothing, and [wait] of silence later [func] has run exactly once,
    with the arguments of the last call; no timer is left pending. *)
Theorem jamboree_debounce_runs_last_call {A U : Type} (func : A -> U -> U)
    (wait : Q) (t1 : Q) (a1 : A) (rest : list (Q * A)) (T : Q)
    (d : Debounce A) (u : U) :
  pending (host d) = [] ->
  tight wait t1 rest ->
  (fst (List.last rest (t1, a1)) + wait <= T)%Q ->
  let during :=
    fold_left (Jamboree.debounce_step func wait)
      (burst_events ((t1, a1) :: rest)) (d, u) in
  let after := Jamboree.debounce_step func wait during (Elapse T) in
  snd during = u
  /\ snd after = func (snd (List.last rest (t1, a1))) u
  /\ pending (host (fst after)) = [].
Proof.
  intros Hp Htight Hsilence. cbn zeta.
  change (burst_events ((t1, a1) :: rest))
    with ([Elapse t1; Invoke t1 a1] ++ burst_events rest).
  rewrite fold_left_app.
  destruct (jfirst_call_idle func wait t1 a1 d u Hp) as (d1 & -> & Ha1).
  destruct (jburst_armed func wait rest t1 a1 d1 u Ha1 Htight)
    as (d2 & -> & Ha2).
  cbn [snd Jamboree.debounce_step].
  rewrite (jelapse_armed_due func wait _ _ T d2 _ Ha2 Hsilence).
  repeat split.
Qed.

Lemma jamboree_debounce_runs_last_call_witness :
  let record := fun (a : nat) (log : list nat) => log ++ [a] in
  snd (fold_left (Jamboree.debounce_step record 250)
         (burst_events [(0%Q, 1%nat); (100%Q, 2%nat); (300%Q, 3%nat)]
          ++ [Elapse 550])
         (no_debounce nat, [])) = [3%nat].
Proof.
  cbn zeta. rewrite !fold_left_app. cbn [fold_left].
  assert (Htight : tight 250 0 [(100%Q, 2%nat); (300%Q, 3%nat)]).
  { cbn. repeat split. }
  assert (Hsilence :
            (fst (List.last [(100%Q, 2%nat); (300%Q, 3%nat)] (0%Q, 1%nat)) + 250
             <= 550)%Q).
  { cbn. apply Qle_bool_iff. reflexivity. }
  exact (proj1 (proj2 (jamboree_debounce_runs_last_call
                         (fun (a : nat) (log : list nat) => log ++ [a])
                         250 0 1%nat _ 550 (no_debounce nat) []
                         eq_refl Htight Hsilence))).
Defined.

(** ** The resize listener *)

Section Resize.

(** The listener with its timer pending, set at [t]. *)
Lemma handleResize_armed t now r st :
  armed 250 t tt (Script.resizeTimer r) ->
  exists r', Script.handleResize now (r, st) = (r', st)
             /\ armed 250 now tt (Script.resizeTimer r')
             /\ Script.is_resizing r' = true
             /\ Script.refreshes r' = Script.refreshes r.
Proof.
  intros (id & Ht & Hp).
  destruct r as [[to [pend nxt]] flag n].
  cbn [Script.resizeTimer timeout host pending timerNext] in *. subst.
  unfold Script.handleResize. cbn [Script.resizeTimer timeout host].
  rewrite clearTimeout_armed. cbn.
  eexists. split; [reflexivity|]. split; [|split; reflexivity].
  exists nxt. split; reflexivity.
Qed.

Lemma resize_elapse_early t now r st :
  armed 250 t tt (Script.resizeTimer r) -> (now < t + 250)%Q ->
  Script.resize_elapse now (r, st) = (r, st).
Proof.
  intros (id & Ht & Hp) Hnow.
  destruct r as [[to [pend nxt]] flag n].
  cbn [Script.resizeTimer timeout host pending timerNext] in *. subst.
  unfold Script.resize_elapse, due_timers, without_due, is_due.
  cbn [Script.resizeTimer Script.is_resizing Script.refreshes timeout host
       pending timerNext List.filter fst snd].
  rewrite (not_yet_due t 250 now Hnow). reflexivity.
Qed.

Lemma resize_elapse_due t now r st :
  armed 250 t tt (Script.resizeTimer r) -> (t + 250 <= now)%Q ->
  exists r', Script.resize_elapse now (r, st) = (r', Script.clear_domCache st)
             /\ Script.is_resizing r' = false
             /\ Script.refreshes r' = S (Script.refreshes r)
             /\ pending (host (Script.resizeTimer r')) = [].
Proof.
  intros (id & Ht & Hp) Hnow.
  destruct r as [[to [pend nxt]] flag n].
  cbn [Script.resizeTimer timeout host pending timerNext] in *. subst.
  unfold Script.resize_elapse, due_timers, without_due, is_due.
  cbn [Script.resizeTimer Script.is_resizing Script.refreshes timeout host
       pending timerNext List.filter fst snd].
  rewrite (now_due t 250 now Hnow). cbn.
  eexists. split; [reflexivity|]. repeat split.
Qed.

Lemma resize_burst (calls : list (Q * unit)) t r st :
  armed 250 t tt (Script.resizeTimer r) -> tight 250 t calls ->
  Script.is_resizing r = true ->
  exists r',
    fold_left Script.resize_step (burst_events calls) (r, st) = (r', st)
    /\ armed 250 (fst (List.last calls (t, tt))) tt (Script.resizeTimer r')
    /\ Script.is_resizing r' = true
    /\ Script.refreshes r' = Script.refreshes r.
Proof.
  revert t r. induction calls as [|[t' []] calls IH]; intros t r Ha Ht Hflag.
  - exists r. repeat split; try assumption.
  - destruct Ht as [Hlt Ht].
    cbn [burst_events flat_map app fold_left fst snd Script.resize_step].
    rewrite (resize_elapse_early t t' r st Ha Hlt).
    destruct (handleResize_armed t t' r st Ha) as (r1 & -> & Ha1 & Hf1 & Hn1).
    destruct (IH t' r1 Ha1 Ht Hf1) as (r2 & Hrun & Ha2 & Hf2 & Hn2).
    exists r2. split; [exact Hrun|].
    rewrite last_cons. split; [exact Ha2|]. split; [exact Hf2|]. congruence.
Qed.

Lemma first_resize t r st :
  pending (host (Script.resizeTimer r)) = [] ->
  exists r',
    fold_left Script.resize_step [Elapse t; Invoke t tt] (r, st) = (r', st)
    /\ armed 250 t tt (Script.resizeTimer r')
    /\ Script.is_resizing r' = true
    /\ Script.refreshes r' = Script.refreshes r.
Proof.
  intros Hp. destruct r as [[to [pend nxt]] flag n].
  cbn [Script.resizeTimer timeout host pending timerNext] in *. subst.
  cbn [fold_left Script.resize_step].
  unfold Script.resize_elapse, due_timers, without_due.
  cbn [Script.resizeTimer Script.is_resizing Script.refreshes timeout host
       pending timerNext List.filter fold_left].
  unfold Script.handleResize. cbn [Script.resizeTimer timeout host].
  rewrite clearTimeout_empty. cbn.
  eexists. split; [reflexivity|]. split; [|split; reflexivity].
  exists nxt. split; reflexivity.
Qed.

End Resize.

(** X3. A burst of [resize] events, each less than 250 ms after the
    one before, keeps ['is-resizing'] on the body and refreshes nothing;
    250 ms after the last one the class is removed, [ScrollTrigger.refresh]
    has been called exactly once, [utils.domCache] is empty and the rest
    of the session is untouched. *)
Theorem resize_burst_refreshes_once (t1 : Q) (rest : list (Q * unit)) (T : Q)
    (r : Script.Resizing) (st : Script.State) :
  pending (host (Script.resizeTimer r)) = [] ->
  tight 250 t1 rest ->
  (fst (List.last rest (t1, tt)) + 250 <= T)%Q ->
  let during :=
    fold_left Script.resize_step (burst_events ((t1, tt) :: rest)) (r, st) in
  let after := Script.resize_step during (Elapse T) in
  (Script.is_resizing (fst during) = true
   /\ Script.refreshes (fst during) = Script.refreshes r
   /\ snd during = st)
  /\ (Script.is_resizing (fst after) = false
      /\ Script.refreshes (fst after) = S (Script.refreshes r)
      /\ snd after = Script.clear_domCache st
      /\ Script.domCache (snd after) = ∅).
Proof.
  intros Hp Htight Hsilence. cbn zeta.
  change (burst_events ((t1, tt) :: rest))
    with ([Elapse t1; Invoke t1 tt] ++ burst_events rest).
  rewrite fold_left_app.
  destruct (first_resize t1 r st Hp) as (r1 & -> & Ha1 & Hf1 & Hn1).
  destruct (resize_burst rest t1 r1 st Ha1 Htight Hf1)
    as (r2 & -> & Ha2 & Hf2 & Hn2).
  cbn [fst snd Script.resize_step].
  destruct (resize_elapse_due _ T r2 st Ha2 Hsilence)
    as (r3 & -> & Hf3 & Hn3 & _).
  cbn [fst snd]. repeat split; try assumption; congruence.
Qed.

Lemma resize_burst_refreshes_once_witness :
  let after :=
    fold_left Script.resize_step
      (burst_events [(1000%Q, tt); (1100%Q, tt)] ++ [Elapse 1350])
      (Script.not_resizing, Script.initial) in
  Script.is_resizing (fst after) = false
  /\ Script.refreshes (fst after) = 1%nat.
Proof.
  cbn zeta. rewrite fold_left_app. cbn [fold_left].
  assert (Htight : tight 250 1000 [(1100%Q, tt)]) by (cbn; repeat split).
  assert (Hsilence : (fst (List.last [(1100%Q, tt)] (1000%Q, tt)) + 250 <= 1350)%Q).
  { cbn. apply Qle_bool_iff. reflexivity. }
  destruct (resize_burst_refreshes_once 1000 [(1100%Q, tt)] 1350
              Script.not_resizing Script.initial eq_refl Htight Hsilence)
    as (_ & Hf & Hn & _).
  split; [exact Hf|exact Hn].
Defined.

(** ** The cache of element lookups *)

(** X4. A cached lookup that misses and finds an element stores it
    under a key made of the selector and of whether the parent is the
    document; from then on every cached lookup with that selector and a
    parent of the same sort gets the stored element back without looking
    at the document, even on a changed document or under another parent
    element. A lookup that finds nothing leaves the cache as it was, and
    so does a lookup without the cache. *)
Theorem qs_cache_answers_from_first_hit (page page' : Page) (selector : string)
    (parent parent' : option Elem) (domCache : gmap string Elem) (e : Elem) :
  domCache !! Script.qs_key selector parent = None ->
  querySelector page selector parent = Some e ->
  (parent = None <-> parent' = None) ->
  let first := Script.qs_useCache page selector parent true domCache in
  first = (Some e, <[Script.qs_key selector parent := e]> domCache)
  /\ Script.qs_useCache page' selector parent' true (snd first)
     = (Some e, snd first)
  /\ (forall sel par, querySelector page sel par = None ->
        domCache !! Script.qs_key sel par = None ->
        Script.qs_useCache page sel par true domCache = (None, domCache))
  /\ (forall sel par,
        Script.qs_useCache page sel par false domCache
        = (querySelector page sel par, domCache)).
Proof.
  intros Hmiss Hfound Hsort. cbn zeta.
  assert (Hfirst : Script.qs_useCache page selector parent true domCache
                   = (Some e, <[Script.qs_key selector parent := e]> domCache)).
  { unfold Script.qs_useCache. rewrite Hmiss, Hfound. reflexivity. }
  split; [exact Hfirst|]. split; [|split].
  - rewrite Hfirst. cbn [snd].
    assert (Hkey : Script.qs_key selector parent' = Script.qs_key selector parent).
    { unfold Script.qs_key. destruct parent, parent'; try reflexivity.
      - destruct Hsort as [_ H]. discriminate (H eq_refl).
      - destruct Hsort as [H _]. discriminate (H eq_refl). }
    unfold Script.qs_useCache. rewrite Hkey, lookup_insert_eq. reflexivity.
  - intros sel par Hnone Hm. unfold Script.qs_useCache.
    rewrite Hm, Hnone. reflexivity.
  - intros sel par. unfold Script.qs_useCache. cbn.
    destruct (querySelector page sel par); reflexivity.
Qed.

Lemma qs_cache_answers_from_first_hit_witness :
  Script.qs_useCache button_page "[data-btn='clip']" (Some 1%nat) true ∅
  = (Some 2%nat, <[Script.qs_key "[data-btn='clip']" (Some 1%nat) := 2%nat]> ∅)
  /\ fst (Script.qs_useCache (bare_page "faq") "[data-btn='clip']" (Some 9%nat)
            true
            (snd (Script.qs_useCache button_page "[data-btn='clip']"
                    (Some 1%nat) true ∅)))
     = Some 2%nat.
Proof.
  destruct (qs_cache_answers_from_first_hit button_page (bare_page "faq")
              "[data-btn='clip']" (Some 1%nat) (Some 9%nat) ∅ 2%nat)
    as (H1 & H2 & _).
  - reflexivity.
  - reflexivity.
  - split; discriminate.
  - split; [exact H1|]. rewrite H2. reflexivity.
Defined.

(** ** The hover ripple *)

Lemma representable_1 : representable 1.
Proof. exists 1%Q. split; [vm_compute; reflexivity|reflexivity]. Qed.

Lemma representable_100 : representable 100.
Proof. exists 100%Q. split; [vm_compute; reflexivity|reflexivity]. Qed.

(** The offset of a point inside a box of positive size, in percent of
    the size and computed as the handlers do, is a finite number between
    0 and 100. *)
Lemma percent_inside (x left width : Q) :
  (0 < width)%Q -> representable width ->
  (left <= x)%Q -> (x <= left + width)%Q ->
  exists p,
    js_mul (js_div (js_sub (DFin x) (DFin left)) (DFin width)) (DFin 100)
    = DFin p
    /\ (0 <= p)%Q /\ (p <= 100)%Q.
Proof.
  intros Hw Hrep Hl Hr. cbn [js_sub].
  destruct (round64_between (x - left) width) as (d1 & -> & H10 & H11);
    [lra|lra|exact Hrep|].
  cbn [js_div].
  assert (Ew : Qeq_bool width 0 = false).
  { destruct (Qeq_bool width 0) eqn:E; [|reflexivity].
    apply Qeq_bool_eq in E. lra. }
  rewrite Ew.
  destruct (round64_between (d1 / width) 1) as (d2 & -> & H20 & H21).
  - apply Qle_shift_div_l; [exact Hw|]. lra.
  - apply Qle_shift_div_r; [exact Hw|]. lra.
  - exact representable_1.
  - cbn [js_mul].
    destruct (round64_between (d2 * 100) 100) as (d3 & -> & H30 & H31).
    + apply Qmult_le_0_compat; [exact H20|discriminate].
    + apply Qle_trans with (1 * 100)%Q; [|discriminate].
      apply Qmult_le_compat_r; [exact H21|discriminate].
    + exact representable_100.
    + exists d3. split; [reflexivity|]. split; assumption.
Qed.

(** X5. When the pointer is inside a wrapper of positive size that has a
    clip layer, entering shows the layer and grows a circle from radius 0
    to 141.4 percent, and leaving shrinks a circle to radius 0 with
    [overwrite] set; the centre of both circles is the pointer, that is
    its offset from the left and the top of the wrapper in percent of the
    wrapper's width and height, computed in double arithmetic, and it
    lies between 0 and 100 percent on both axes. *)
Theorem ripple_is_centred_inside_the_wrapper (page : Page) (layout : Layout)
    (e : MouseEvent) (wrap clipEl : Elem) :
  closest_wrap layout (event_target e) = Some wrap ->
  querySelector page "[data-btn='clip']" (Some wrap) = Some clipEl ->
  let rect := getBoundingClientRect layout wrap in
  (0 < rect_width rect)%Q -> (0 < rect_height rect)%Q ->
  representable (rect_width rect) -> representable (rect_height rect) ->
  (rect_left rect <= clientX e)%Q ->
  (clientX e <= rect_left rect + rect_width rect)%Q ->
  (rect_top rect <= clientY e)%Q ->
  (clientY e <= rect_top rect + rect_height rect)%Q ->
  let x :=
    js_mul
      (js_div (js_sub (DFin (clientX e)) (DFin (rect_left rect)))
         (DFin (rect_width rect)))
      (DFin 100) in
  let y :=
    js_mul
      (js_div (js_sub (DFin (clientY e)) (DFin (rect_top rect)))
         (DFin (rect_height rect)))
      (DFin 100) in
  handleButtonEnter page layout e
  = [ RippleSet clipEl [("display", VStr "flex")];
      RippleFromTo clipEl
        {| circle_radius := 0; circle_x := x; circle_y := y |}
        {| circle_radius := 141.4; circle_x := x; circle_y := y |}
        0.4 "power2.out" ]
  /\ handleButtonLeave page layout e
     = [ RippleTo clipEl
           {| circle_radius := 0; circle_x := x; circle_y := y |}
           true 0.4 "power2.out" ]
  /\ exists px py,
       x = DFin px /\ y = DFin py
       /\ (0 <= px)%Q /\ (px <= 100)%Q /\ (0 <= py)%Q /\ (py <= 100)%Q.
Proof.
  intros Hwrap Hclip rect Hw Hh Hrw Hrh Hl Hr Ht Hb x y.
  split; [|split].
  - unfold handleButtonEnter. rewrite Hwrap, Hclip. reflexivity.
  - unfold handleButtonLeave. rewrite Hwrap, Hclip. reflexivity.
  - destruct (percent_inside (clientX e) (rect_left rect) (rect_width rect)
                Hw Hrw Hl Hr) as (px & Hx & Hx0 & Hx1).
    destruct (percent_inside (clientY e) (rect_top rect) (rect_height rect)
                Hh Hrh Ht Hb) as (py & Hy & Hy0 & Hy1).
    exists px, py. repeat split; assumption.
Qed.

Lemma ripple_is_centred_inside_the_wrapper_witness :
  let e := {| event_target := 3%nat; clientX := 60; clientY := 30 |} in
  handleButtonEnter button_page button_layout e
  = [ RippleSet 2%nat [("display", VStr "flex")];
      RippleFromTo 2%nat
        {| circle_radius := 0; circle_x := DFin 25; circle_y := DFin 20 |}
        {| circle_radius := 141.4; circle_x := DFin 25; circle_y := DFin 20 |}
        0.4 "power2.out" ]
  /\ handleButtonLeave button_page button_layout e
     = [ RippleTo 2%nat
           {| circle_radius := 0; circle_x := DFin 25; circle_y := DFin 20 |}
           true 0.4 "power2.out" ].
Proof.
  cbn zeta.
  destruct (ripple_is_centred_inside_the_wrapper button_page button_layout
              {| event_target := 3%nat; clientX := 60; clientY := 30 |}
              1%nat 2%nat) as (Henter & Hleave & _).
  - reflexivity.
  - reflexivity.
  - reflexivity.
  - reflexivity.
  - exists 200%Q. split; [vm_compute; reflexivity|reflexivity].
  - exists 50%Q. split; [vm_compute; reflexivity|reflexivity].
  - vm_compute. discriminate.
  - vm_compute. discriminate.
  - vm_compute. discriminate.
  - vm_compute. discriminate.
  - split.
    + rewrite Henter. vm_compute. reflexivity.
    + rewrite Hleave. vm_compute. reflexivity.
Defined.



(** ** Handlers and missing elements *)

Section EmptySection.

Variable env : Env.
Variable page : Page.
Variable section : Elem.
Hypothesis nothing_found :
  forall selector, querySelectorAll page selector (Some section) = [].

Lemma script_handlers_skip_all (cfg : Script.Config) :
  Forall (fun kh => forall s, exec (snd kh section) s = s)
    (Script.animationMap env cfg page).
Proof.
  unfold Script.animationMap.
  repeat first [apply List.Forall_cons | apply List.Forall_nil].
  all: intros s; cbn [snd].
  all: unfold Script.animateHeroMain, Script.animateStackedContent,
    Script.animateImageSplit, Script.animateIconsGrid, Script.animateCTA,
    Script.animateFooter, Script.animateDownload, Script.animateHeroBanner,
    Script.animateLandingPageHero, Script.animateTabs,
    Script.animateFeaturedTestimonials, Script.animateFAQ,
    Script.qs, Script.qsa, querySelector.
  all: rewrite ?nothing_found; reflexivity.
Qed.

Lemma jamboree_handlers_skip_all (reducedMotion : bool) :
  Forall (fun c => forall s, exec (Jamboree.handler c section) s = s)
    (Jamboree.animationConfigs env reducedMotion page).
Proof.
  unfold Jamboree.animationConfigs.
  repeat first [apply List.Forall_cons | apply List.Forall_nil].
  all: intros s; cbn [Jamboree.handler Jamboree.config].
  all: unfold Jamboree.animateHeroMain, Jamboree.animateStackedContent,
    Jamboree.animateImageSplit, Jamboree.animateIconsGrid, Jamboree.animateCTA,
    Jamboree.animateFooter, Jamboree.animateDownload,
    Jamboree.animateHeroBanner, Jamboree.animateLandingPageHero,
    Jamboree.qs, Jamboree.qsa, querySelector.
  all: rewrite ?nothing_found; reflexivity.
Qed.

End EmptySection.

(** X7. A section in which none of the selectors of the handlers
    finds anything is not an error: every handler of [animationMap]
    (script.js) and of [animationConfigs] (jamboree.js) returns having
    added no tween, split no text and made no library call. *)
Theorem handlers_skip_missing_elements (env : Env) (cfg : Script.Config)
    (reducedMotion : bool) (page : Page) (section : Elem) :
  (forall selector, querySelectorAll page selector (Some section) = []) ->
  (forall kind h s,
     Script.animationMap_get env cfg page kind = Script.Own h ->
     exec (h section) s = s)
  /\ (forall c s,
        In c (Jamboree.animationConfigs env reducedMotion page) ->
        exec (Jamboree.handler c section) s = s).
Proof.
  intros Hnone. split.
  - intros kind h s. unfold Script.animationMap_get.
    destruct (Script.assoc _ _) as [h'|] eqn:E.
    + intros [= <-]. revert s.
      pose proof (script_handlers_skip_all env page section Hnone cfg) as Hall.
      revert E. generalize (Script.animationMap env cfg page) Hall.
      intros l Hl. induction Hl as [|[k x] l Hx _ IH]; cbn; [discriminate|].
      destruct (String.eqb _ k); [|exact IH].
      intros [= <-]. exact Hx.
    + destruct (existsb _ _); discriminate.
  - intros c s Hin.
    pose proof (jamboree_handlers_skip_all env page section Hnone reducedMotion)
      as Hall.
    rewrite List.Forall_forall in Hall. apply Hall, Hin.
Qed.

Lemma handlers_skip_missing_elements_witness :
  exec (Script.animateFAQ (bare_page "faq") 5%nat) ([], no_libs) = ([], no_libs).
Proof.
  apply (proj1 (handlers_skip_missing_elements desktop desktop_cfg false
                  (bare_page "faq") 5%nat (fun _ => eq_refl))
           (Some "faq")).
  reflexivity.
Defined.

(** ** Splitting a heading once *)

Lemma splitHeading_fresh (cfg : Script.Config) (page : Page) (el : Elem)
    (d : Q) (steps : list Step) (libs : Libs) :
  Script.isLowEndDevice cfg = false ->
  splitTexts libs !! el = None ->
  let split :=
    {| split_id := length (splitCreated libs);
       split_targets := [el];
       split_type :=
         if (Script.maxSplitChars cfg <? textLength page el)%nat then "words"
         else "chars, lines, words";
       split_mask := "chars" |} in
  Script.splitHeading cfg page (Some el) d (steps, libs)
  = (Some split,
     (steps ++ [StepFrom (Fragments (split_id split) "chars || words")
                  Script.chars_vars (At d)],
      {| splitTexts := <[el := split]> (splitTexts libs);
         splitCreated := splitCreated libs ++ [split];
         classAdded :=
           (classAdded libs
            ++ [(Fragments (split_id split) "chars", "split-char")])
           ++ [(Fragments (split_id split) "masks", "split-mask")];
         gsapSet := gsapSet libs |})).
Proof.
  intros Hlow Hmiss. cbn zeta. unfold Script.splitHeading. rewrite Hlow.
  unfold bind, splitTexts_get. rewrite Hmiss. reflexivity.
Qed.

Lemma splitHeading_cached (cfg : Script.Config) (page : Page) (el : Elem)
    (d : Q) (steps : list Step) (libs : Libs) (split : Split) :
  Script.isLowEndDevice cfg = false ->
  splitTexts libs !! el = Some split ->
  Script.splitHeading cfg page (Some el) d (steps, libs)
  = (Some split,
     (steps ++ [StepFrom (Fragments (split_id split) "chars")
                  Script.chars_vars (At d)],
      libs)).
Proof.
  intros Hlow Hhit. unfold Script.splitHeading. rewrite Hlow.
  unfold bind, splitTexts_get. rewrite Hhit. reflexivity.
Qed.

(** X8. Off the low-end path, the first reveal of a heading
    splits it once, by words when its text is longer than [maxSplitChars]
    and by characters, lines and words otherwise, and remembers the split;
    a second reveal of the same element returns that split, adds its
    tween on the same fragments and does not call [SplitText.create]
    again. *)
Theorem heading_is_split_once (cfg : Script.Config) (page : Page) (el : Elem)
    (d1 d2 : Q) (s : list Step * Libs) :
  Script.isLowEndDevice cfg = false ->
  splitTexts (snd s) !! el = None ->
  let split :=
    {| split_id := length (splitCreated (snd s));
       split_targets := [el];
       split_type :=
         if (Script.maxSplitChars cfg <? textLength page el)%nat then "words"
         else "chars, lines, words";
       split_mask := "chars" |} in
  let first := Script.splitHeading cfg page (Some el) d1 s in
  let second := Script.splitHeading cfg page (Some el) d2 (snd first) in
  fst first = Some split
  /\ fst second = Some split
  /\ splitCreated (snd (snd second)) = splitCreated (snd s) ++ [split]
  /\ splitTexts (snd (snd second)) !! el = Some split
  /\ fst (snd second)
     = fst s
       ++ [ StepFrom (Fragments (split_id split) "chars || words")
              Script.chars_vars (At d1);
            StepFrom (Fragments (split_id split) "chars")
              Script.chars_vars (At d2) ].
Proof.
  intros Hlow Hmiss. destruct s as [steps libs]. cbn [snd fst] in *.
  cbn zeta. rewrite (splitHeading_fresh cfg page el d1 steps libs Hlow Hmiss).
  cbn [fst snd].
  rewrite (splitHeading_cached cfg page el d2 _ _ _ Hlow (lookup_insert_eq _ _ _)).
  cbn [fst snd splitCreated splitTexts split_id].
  rewrite <- app_assoc. repeat split. apply lookup_insert_eq.
Qed.

Lemma heading_is_split_once_witness :
  let first :=
    Script.splitHeading desktop_cfg (bare_page "cta") (Some 3%nat) 0.5
      ([], no_libs) in
  let second :=
    Script.splitHeading desktop_cfg (bare_page "cta") (Some 3%nat) 0.2
      (snd first) in
  fst second = fst first
  /\ length (splitCreated (snd (snd second))) = 1%nat.
Proof.
  cbn zeta.
  destruct (heading_is_split_once desktop_cfg (bare_page "cta") 3%nat 0.5 0.2
              ([], no_libs)) as (H1 & H2 & H3 & _).
  - reflexivity.
  - reflexivity.
  - split.
    + rewrite H1. exact H2.
    + rewrite H3. reflexivity.
Defined.

(** ** The choice of strategy *)

(** X9. On a host that has [window.matchMedia] and reports [cores]
    logical cores, [init] wires nothing when [window.gsap] is missing, and
    raises when one of the two plug-in identifiers is not declared. With
    the library and its plug-ins loaded it wires the sections with the
    simple fades exactly when there are at most four cores or reduced
    motion is preferred; otherwise with the observer when
    [IntersectionObserver] exists, and with ScrollTrigger when it does
    not. *)
Theorem strategy_by_capability (env : Env) (g : Script.Globals) (cores : Z)
    (rm : bool) :
  hardwareConcurrency env = VNumber (Finite cores) ->
  matchMedia_reduce env = Some rm ->
  exists cfg,
    Script.CONFIG env = Script.Ok cfg
    /\ Script.init g cfg
       = if negb (Script.has_gsap g) then Script.GsapNotFound
         else if negb (Script.has_ScrollTrigger g)
              then Script.NotDefined "ScrollTrigger"
         else if negb (Script.has_SplitText g)
              then Script.NotDefined "SplitText"
         else Script.Wired
                (if (cores <=? 4)%Z || rm then Script.SimpleAnimations
                 else if hasIntersectionObserver env
                      then Script.IntersectionObserverAnimations
                      else Script.ScrollTriggerAnimations).
Proof.
  intros Hc Hm. unfold Script.CONFIG. rewrite Hm, Hc.
  eexists. split; [reflexivity|].
  unfold Script.init, Script.init_strategy, Script.isLowEndDevice. cbn.
  unfold js_le, IsLessThan. cbn.
  assert (E : (cores <=? 4)%Z = negb (4 <? cores)%Z) by apply Z.leb_antisym.
  rewrite E. destruct (4 <? cores)%Z; reflexivity.
Qed.

Lemma strategy_by_capability_witness :
  exists cfg,
    Script.CONFIG desktop = Script.Ok cfg
    /\ Script.init all_loaded cfg
       = Script.Wired Script.IntersectionObserverAnimations
    /\ Script.init without_gsap cfg = Script.GsapNotFound.
Proof.
  destruct (strategy_by_capability desktop all_loaded 8 false)
    as (cfg & Hc & Hs); [reflexivity|reflexivity|].
  destruct (strategy_by_capability desktop without_gsap 8 false)
    as (cfg' & Hc' & Hs'); [reflexivity|reflexivity|].
  exists cfg. split; [exact Hc|]. split; [exact Hs|].
  rewrite Hc in Hc'. injection Hc' as <-. exact Hs'.
Defined.

(** ** The observer strategy *)

Section Observer.

Variable env : Env.
Variable cfg : Script.Config.
Variable page : Page.

Lemma assoc_of_member {B : Type} (key : string) (v : B) (l : list (string * B)) :
  In (key, v) l -> exists v', Script.assoc key l = Some v'.
Proof.
  induction l as [|[k x] l IH]; cbn; [contradiction|].
  intros [[= -> ->]|Hin].
  - rewrite String.eqb_refl. eauto.
  - destruct (String.eqb key k); eauto.
Qed.

Lemma registered_kind_has_handler (kind : string) (h : Script.Handler) :
  In (kind, h) (Script.animationMap env cfg page) ->
  exists h', Script.animationMap_get env cfg page (Some kind) = Script.Own h'.
Proof.
  intros Hin. destruct (assoc_of_member kind h _ Hin) as [h' E].
  exists h'. unfold Script.animationMap_get. cbv zeta.
  change (default "undefined" (Some kind)) with kind. rewrite E.
  reflexivity.
Qed.

End Observer.

(** X10. [initIntersectionObserverAnimations] makes a new observer,
    stores it under ['main'] and leaves every earlier observer as it was;
    the new observer watches exactly the elements matched by the
    attribute selector of one of the kinds of [animationMap]. When the
    attribute an element carries is the one its selector matched, every
    watched element has a handler of its own in [animationMap]. *)
Theorem observer_watches_the_registered_kinds (env : Env) (cfg : Script.Config)
    (page : Page) (st : Script.State) :
  let st' := Script.initIntersectionObserverAnimations env cfg page st in
  exists obs o,
    Script.observer_heap st !! obs = None
    /\ Script.observers st' !! "main" = Some obs
    /\ Script.observer_heap st' !! obs = Some o
    /\ Script.disconnected o = false
    /\ (forall k, k <> obs ->
          Script.observer_heap st' !! k = Script.observer_heap st !! k)
    /\ (forall e, e ∈ Script.observed o <->
          exists kind h,
            In (kind, h) (Script.animationMap env cfg page)
            /\ In e (querySelectorAll page
                       (attr_sel "data-animation-trigger" kind) None))
    /\ ((forall kind e,
           In e (querySelectorAll page
                   (attr_sel "data-animation-trigger" kind) None) ->
           animationTrigger page e = Some kind) ->
        forall e, e ∈ Script.observed o ->
          exists h, Script.animationMap_get env cfg page
                      (animationTrigger page e) = Script.Own h).
Proof.
  cbn zeta. unfold Script.initIntersectionObserverAnimations.
  set (obs := fresh (dom (Script.observer_heap st))).
  assert (Hfresh : Script.observer_heap st !! obs = None).
  { apply not_elem_of_dom. apply is_fresh. }
  assert (Hobs : forall e,
            e ∈ (list_to_set (Script.observed_elements env cfg page) : gset nat)
            <-> exists kind h,
                  In (kind, h) (Script.animationMap env cfg page)
                  /\ In e (querySelectorAll page
                             (attr_sel "data-animation-trigger" kind) None)).
  { intros e. rewrite elem_of_list_to_set, list_elem_of_In.
    unfold Script.observed_elements. rewrite in_flat_map. split.
    - intros [[kind h] [Hin He]]. exists kind, h. split; assumption.
    - intros (kind & h & Hin & He). exists (kind, h). split; assumption. }
  exists obs. eexists. cbn [Script.observers Script.observer_heap].
  split; [exact Hfresh|].
  split; [apply lookup_insert_eq|].
  split; [apply lookup_insert_eq|].
  split; [reflexivity|].
  split; [intros k Hk; rewrite lookup_insert_ne by congruence; reflexivity|].
  cbn [Script.observed].
  split; [exact Hobs|].
  intros Hcoherent e He. apply Hobs in He as (kind & h & Hin & Hmatch).
  rewrite (Hcoherent kind e Hmatch).
  apply (registered_kind_has_handler env cfg page kind h Hin).
Qed.

Lemma observer_watches_the_registered_kinds_witness :
  let st' :=
    Script.initIntersectionObserverAnimations desktop desktop_cfg hero_page
      Script.initial in
  exists obs o h,
    Script.observers st' !! "main" = Some obs
    /\ Script.observer_heap st' !! obs = Some o
    /\ 7%nat ∈ Script.observed o
    /\ Script.animationMap_get desktop desktop_cfg hero_page
         (animationTrigger hero_page 7%nat) = Script.Own h.
Proof.
  cbn zeta.
  destruct (observer_watches_the_registered_kinds desktop desktop_cfg hero_page
              Script.initial)
    as (obs & o & _ & Hm & Ho & _ & _ & Hobs & Hreg).
  assert (H7 : 7%nat ∈ Script.observed o).
  { apply Hobs. eexists _, _. split; [left; reflexivity|].
    left. reflexivity. }
  destruct (Hreg hero_page_coherent 7%nat H7) as (h & Hh).
  exists obs, o, h. repeat split; assumption.
Defined.

(** X11. When an observed section of a registered kind first
    intersects, the callback makes it visible, caches its timeline and
    takes it off the observer; the other watched elements and the other
    observers are untouched. An entry that does not intersect changes
    nothing, so the section is still watched afterwards. *)
Theorem observer_fires_once_per_section (env : Env) (cfg : Script.Config)
    (page : Page) (obs : nat) (o : Script.Observer) (sec : Elem)
    (h : Script.Handler) (st : Script.State) :
  Script.observer_heap st !! obs = Some o ->
  Script.animations st !! sec = None ->
  Script.animationMap_get env cfg page (animationTrigger page sec)
  = Script.Own h ->
  let st' :=
    final (Script.on_entry env cfg page obs
             {| Script.target := sec; Script.isIntersecting := true |} st) in
  (exists o',
     Script.observer_heap st' !! obs = Some o'
     /\ (sec ∉ Script.observed o')
     /\ (forall x, x <> sec -> (x ∈ Script.observed o' <-> x ∈ Script.observed o)))
  /\ (forall k, k <> obs ->
        Script.observer_heap st' !! k = Script.observer_heap st !! k)
  /\ Script.visibility st' !! sec = Some "visible"
  /\ is_Some (Script.animations st' !! sec)
  /\ Script.on_entry env cfg page obs
       {| Script.target := sec; Script.isIntersecting := false |} st
     = Normal st.
Proof.
  intros Hheap Hfresh Hown. cbn zeta.
  unfold Script.on_entry. cbn [Script.target Script.isIntersecting].
  rewrite Hfresh, Hown. cbn [truthy negb andb].
  unfold Script.run_handler. cbn [Script.gsap_timeline Script.reveal
    Script.libs tl_steps fst snd].
  destruct (exec _ _) as [steps libs']. cbn [final].
  unfold Script.unobserve, Script.animations_set.
  cbn [Script.observer_heap Script.visibility Script.animations].
  split; [|split; [|split; [|split]]].
  - eexists. split.
    + rewrite lookup_alter_eq. cbn [Script.reveal Script.observer_heap].
      rewrite Hheap. reflexivity.
    + cbn [Script.observed]. split.
      * intros Hin. apply elem_of_difference in Hin as [_ Hin].
        apply Hin, elem_of_singleton. reflexivity.
      * intros x Hx. rewrite elem_of_difference, elem_of_singleton. tauto.
  - intros k Hk. rewrite lookup_alter_ne by congruence. reflexivity.
  - cbn [Script.reveal Script.visibility]. apply lookup_insert_eq.
  - rewrite lookup_insert_eq. eauto.
  - reflexivity.
Qed.

Lemma observer_fires_once_per_section_witness :
  let st' :=
    final (Script.on_entry desktop desktop_cfg (bare_page "faq") 0
             {| Script.target := 5%nat; Script.isIntersecting := true |}
             watching) in
  Script.visibility st' !! 5%nat = Some "visible"
  /\ is_Some (Script.animations st' !! 5%nat).
Proof.
  cbn zeta.
  destruct (observer_fires_once_per_section desktop desktop_cfg
              (bare_page "faq") 0
              {| Script.observed := {[ 5%nat ]}; Script.disconnected := false |}
              5%nat (Script.animateFAQ (bare_page "faq")) watching)
    as (_ & _ & Hv & Ha & _).
  - reflexivity.
  - reflexivity.
  - reflexivity.
  - split; [exact Hv|exact Ha].
Defined.

(** ** The strategies agree *)

Section Agreement.

Variable env : Env.
Variable cfg : Script.Config.
Variable page : Page.

(** The two tables of script.js list the same kinds, in the same order,
    with the same handlers. *)
Lemma tables_agree (i : nat) (c : Script.AnimationConfig) (kind : string)
    (h : Script.Handler) :
  Script.animationConfigs env cfg page !! i = Some c ->
  Script.animationMap env cfg page !! i = Some (kind, h) ->
  Script.selector c = attr_sel "data-animation-trigger" kind
  /\ Script.handler c = h
  /\ Script.animationMap_get env cfg page (Some kind) = Script.Own h.
Proof.
  unfold Script.animationConfigs, Script.animationMap.
  do 12 (destruct i as [|i];
         [cbn [lookup list_lookup]; intros [= <-] [= <- <-];
          split; [reflexivity|]; split; reflexivity|]).
  cbn. discriminate.
Qed.

End Agreement.

(** X12. For a section of a registered kind that is not cached yet,
    the observer callback and the batch callback of ScrollTrigger build
    and cache the very same timeline and leave the same split state, and
    [setupScrollTrigger] builds the same steps (its timeline differs by
    the scrollTrigger options only). *)
Theorem strategies_build_the_same_timeline (env : Env) (cfg : Script.Config)
    (page : Page) (i : nat) (c : Script.AnimationConfig) (kind : string)
    (h : Script.Handler) (obs : nat) (sec : Elem) (st : Script.State) :
  Script.animationConfigs env cfg page !! i = Some c ->
  Script.animationMap env cfg page !! i = Some (kind, h) ->
  animationTrigger page sec = Some kind ->
  Script.animations st !! sec = None ->
  let by_observer :=
    final (Script.on_entry env cfg page obs
             {| Script.target := sec; Script.isIntersecting := true |} st) in
  let by_batch := Script.batch_section c st sec in
  let by_setup := Script.setupScrollTrigger sec c st in
  Script.animations by_observer = Script.animations by_batch
  /\ Script.libs by_observer = Script.libs by_batch
  /\ Script.libs by_setup = Script.libs by_batch
  /\ exists tl tl',
       Script.animations by_batch !! sec = Some tl
       /\ Script.animations by_setup !! sec = Some tl'
       /\ tl_steps tl' = tl_steps tl
       /\ tl_id tl' = tl_id tl.
Proof.
  intros Hc Hm Hkind Hfresh.
  destruct (tables_agree env cfg page i c kind h Hc Hm) as (_ & Hh & Hget).
  cbn zeta. unfold Script.on_entry, Script.batch_section,
    Script.setupScrollTrigger.
  cbn [Script.target Script.isIntersecting]. rewrite Hfresh, Hkind, Hget, Hh.
  cbn [truthy negb andb].
  unfold Script.run_handler.
  cbn [Script.gsap_timeline Script.reveal Script.libs tl_steps fst snd
       Script.created].
  destruct (exec _ _) as [steps libs'].
  cbn [final Script.unobserve Script.animations_set Script.animations
       Script.libs].
  split; [reflexivity|]. split; [reflexivity|]. split; [reflexivity|].
  eexists. eexists.
  split; [apply lookup_insert_eq|]. split; [apply lookup_insert_eq|].
  split; reflexivity.
Qed.

Lemma strategies_build_the_same_timeline_witness :
  let page := bare_page "faq" in
  let by_observer :=
    final (Script.on_entry desktop desktop_cfg page 0
             {| Script.target := 5%nat; Script.isIntersecting := true |}
             watching) in
  let by_batch :=
    Script.batch_section
      (Script.config "faq" (Script.animateFAQ page) None) watching 5%nat in
  Script.animations by_observer = Script.animations by_batch.
Proof.
  cbn zeta.
  destruct (strategies_build_the_same_timeline desktop desktop_cfg
              (bare_page "faq") 11
              (Script.config "faq" (Script.animateFAQ (bare_page "faq")) None)
              "faq" (Script.animateFAQ (bare_page "faq")) 0 5%nat watching)
    as (H & _).
  - reflexivity.
  - reflexivity.
  - reflexivity.
  - reflexivity.
  - exact H.
Defined.

(** ** Initialising a whole page *)

Section JamboreeInit.

Lemma setupAnimation_keeps_cached (s s' : Elem) (c : Jamboree.AnimationConfig)
    (st : Jamboree.State) :
  is_Some (Jamboree.animationCache st !! s) ->
  is_Some (Jamboree.animationCache (Jamboree.setupAnimation s' c st) !! s).
Proof.
  intros Hs. destruct (Jamboree.animationCache st !! s') as [x|] eqn:E.
  - rewrite setupAnimation_cached by (rewrite E; eauto). exact Hs.
  - destruct (setupAnimation_fresh s' c st E) as (tl & -> & _).
    destruct (decide (s' = s)) as [->|Hne].
    + rewrite lookup_insert_eq. eauto.
    + rewrite lookup_insert_ne by exact Hne. exact Hs.
Qed.

Lemma setupAnimation_caches (s : Elem) (c : Jamboree.AnimationConfig)
    (st : Jamboree.State) :
  is_Some (Jamboree.animationCache (Jamboree.setupAnimation s c st) !! s).
Proof.
  destruct (Jamboree.animationCache st !! s) as [x|] eqn:E.
  - rewrite setupAnimation_cached by (rewrite E; eauto). rewrite E. eauto.
  - destruct (setupAnimation_fresh s c st E) as (tl & -> & _).
    rewrite lookup_insert_eq. eauto.
Qed.

Lemma setups_keeps_cached (s : Elem) l (st : Jamboree.State) :
  is_Some (Jamboree.animationCache st !! s) ->
  is_Some (Jamboree.animationCache (Jamboree.setups l st) !! s).
Proof.
  unfold Jamboree.setups. revert st.
  induction l as [|[s' c] l IH]; intros st H; cbn; [exact H|].
  apply IH, setupAnimation_keeps_cached, H.
Qed.

Lemma setups_caches_all l (st : Jamboree.State) :
  Forall (fun sc => is_Some (Jamboree.animationCache (Jamboree.setups l st)
                               !! fst sc)) l.
Proof.
  revert st. induction l as [|[s c] l IH]; intros st; [constructor|].
  constructor.
  - cbn [fst]. change (Jamboree.setups ((s, c) :: l) st)
      with (Jamboree.setups l (Jamboree.setupAnimation s c st)).
    apply setups_keeps_cached, setupAnimation_caches.
  - apply IH.
Qed.

Lemma setups_noop l (st : Jamboree.State) :
  Forall (fun sc => is_Some (Jamboree.animationCache st !! fst sc)) l ->
  Jamboree.setups l st = st.
Proof.
  unfold Jamboree.setups. induction 1 as [|[s c] l Hs _ IH]; [reflexivity|].
  cbn. rewrite setupAnimation_cached by exact Hs. exact IH.
Qed.

(** A section of the list that starts fresh ends up settled. *)
Lemma setups_settles l (st : Jamboree.State) (s : Elem) :
  In s (map fst l) ->
  Jamboree.animationCache st !! s = None ->
  Jamboree.constructed_for s st = 0%nat ->
  exists tl, jsettled s tl (Jamboree.setups l st)
             /\ Jamboree.visibility (Jamboree.setups l st) !! s = Some "visible".
Proof.
  revert st. induction l as [|[s' c] l IH]; intros st Hin Hf Hc; [contradiction|].
  change (Jamboree.setups ((s', c) :: l) st)
    with (Jamboree.setups l (Jamboree.setupAnimation s' c st)).
  assert (Hvis : forall st0, Jamboree.visibility st0 !! s = Some "visible" ->
            Jamboree.visibility (Jamboree.setups l st0) !! s = Some "visible").
  { clear. unfold Jamboree.setups. induction l as [|[s1 c1] l IH];
      intros st0 H; cbn; [exact H|]. apply IH.
    unfold Jamboree.setupAnimation.
    destruct (truthy _); [exact H|]. destruct (exec _ _). cbn.
    destruct (decide (s1 = s)) as [->|Hne].
    - apply lookup_insert_eq.
    - rewrite lookup_insert_ne by exact Hne. exact H. }
  destruct (decide (s' = s)) as [->|Hne].
  - destruct (setupAnimation_fresh s c st Hf) as (tl & Ha & Hcr).
    exists tl. split.
    + apply setups_settled. split.
      * rewrite Ha. apply lookup_insert_eq.
      * unfold Jamboree.constructed_for in *.
        rewrite Hcr, constructed_for_snoc, Hc, decide_True by reflexivity.
        reflexivity.
    + apply Hvis. unfold Jamboree.setupAnimation. rewrite Hf. cbn.
      destruct (exec _ _). cbn. apply lookup_insert_eq.
  - destruct Hin as [Heq|Hin]; [cbn in Heq; congruence|].
    apply IH; [exact Hin| |].
    + destruct (Jamboree.animationCache st !! s') as [x|] eqn:E.
      * rewrite setupAnimation_cached by (rewrite E; eauto). exact Hf.
      * destruct (setupAnimation_fresh s' c st E) as (tl & -> & _).
        rewrite lookup_insert_ne by exact Hne. exact Hf.
    + destruct (Jamboree.animationCache st !! s') as [x|] eqn:E.
      * rewrite setupAnimation_cached by (rewrite E; eauto). exact Hc.
      * destruct (setupAnimation_fresh s' c st E) as (tl & _ & Hcr).
        unfold Jamboree.constructed_for in *.
        rewrite Hcr, constructed_for_snoc, Hc, decide_False by exact Hne.
        reflexivity.
Qed.

Lemma kill_all_keeps_cache (st : Jamboree.State) :
  Jamboree.animationCache (Jamboree.kill_all st) = Jamboree.animationCache st.
Proof. reflexivity. Qed.

End JamboreeInit.

(** X13. [initAnimations] run a second time changes
    nothing. Run on a fresh session it leaves every section matched by
    one of the nine selectors visible and cached, with exactly one
    timeline constructed for it, however often the section is matched. *)
Theorem initAnimations_is_idempotent (env : Env) (reducedMotion : bool)
    (page : Page) (st : Jamboree.State) :
  let init := Jamboree.initAnimations env reducedMotion page in
  init (init st) = init st
  /\ forall c s,
       In c (Jamboree.animationConfigs env reducedMotion page) ->
       In s (querySelectorAll page (Jamboree.selector c) None) ->
       exists tl,
         Jamboree.animationCache (init Jamboree.initial) !! s = Some tl
         /\ Jamboree.constructed_for s (init Jamboree.initial) = 1%nat
         /\ Jamboree.visibility (init Jamboree.initial) !! s = Some "visible".
Proof.
  cbn zeta. unfold Jamboree.initAnimations. split.
  - apply setups_noop, setups_caches_all.
  - intros c s Hc Hs.
    destruct (setups_settles
                (Jamboree.sections_of page
                   (Jamboree.animationConfigs env reducedMotion page))
                Jamboree.initial s) as (tl & [Ha Hn] & Hv).
    + unfold Jamboree.sections_of. rewrite in_map_iff.
      exists (s, c). split; [reflexivity|].
      rewrite in_flat_map. exists c. split; [exact Hc|].
      rewrite in_map_iff. exists s. split; [reflexivity|exact Hs].
    + reflexivity.
    + reflexivity.
    + exists tl. split; [exact Ha|]. split; [exact Hn|exact Hv].
Qed.

Lemma initAnimations_is_idempotent_witness :
  let init := Jamboree.initAnimations desktop false hero_page in
  init (init Jamboree.initial) = init Jamboree.initial
  /\ Jamboree.constructed_for 7%nat (init Jamboree.initial) = 1%nat.
Proof.
  cbn zeta.
  destruct (initAnimations_is_idempotent desktop false hero_page
              Jamboree.initial) as [Hi Hc].
  split; [exact Hi|].
  destruct (Hc (List.hd hero_config
                  (Jamboree.animationConfigs desktop false hero_page)) 7%nat)
    as (tl & _ & H & _).
  - left. reflexivity.
  - left. reflexivity.
  - exact H.
Defined.

(** X14. [cleanupAnimations] kills every
    ScrollTrigger before it raises, and leaves the cache as it was; so an
    [initAnimations] that follows finds every section cached and changes
    nothing: all triggers stay dead and no timeline is built again. *)
Theorem init_after_cleanup_revives_nothing (env : Env) (reducedMotion : bool)
    (page : Page) (st : Jamboree.State) :
  let init := Jamboree.initAnimations env reducedMotion page in
  let cleaned := final (Jamboree.cleanupAnimations (init st)) in
  Forall (fun t => st_alive t = false) (Jamboree.scrollTriggers cleaned)
  /\ Jamboree.animationCache cleaned = Jamboree.animationCache (init st)
  /\ init cleaned = cleaned.
Proof.
  cbn zeta. change (final (Jamboree.cleanupAnimations ?s))
    with (Jamboree.kill_all s).
  split; [|split].
  - cbn [Jamboree.kill_all Jamboree.scrollTriggers].
    apply List.Forall_forall. intros t Hin.
    apply in_map_iff in Hin as (t0 & <- & _). reflexivity.
  - reflexivity.
  - unfold Jamboree.initAnimations. apply setups_noop.
    eapply List.Forall_impl; [|apply setups_caches_all].
    intros sc H. rewrite kill_all_keeps_cache. exact H.
Qed.

Section ScriptInit.

Variable page : Page.

Abbreviation setup1 :=
  (fun (st : Script.State) (sc : Elem * Script.AnimationConfig) =>
     Script.setupScrollTrigger (fst sc) (snd sc) st).

Lemma setup_sections_flat configs st :
  fold_left (Script.setup_sections page) configs st
  = fold_left setup1 (flat_sections page configs) st.
Proof.
  revert st. induction configs as [|c configs IH]; intros st; [reflexivity|].
  cbn [fold_left flat_sections flat_map]. rewrite fold_left_app, IH.
  f_equal. unfold Script.setup_sections.
  generalize (querySelectorAll page (Script.selector c) None). intros l.
  revert st. induction l as [|s l IHl]; intros st; [reflexivity|].
  cbn. apply IHl.
Qed.

Lemma setupScrollTrigger_keeps_cached s s' c st :
  is_Some (Script.animations st !! s) ->
  is_Some (Script.animations (Script.setupScrollTrigger s' c st) !! s).
Proof.
  intros Hs. destruct (Script.animations st !! s') as [x|] eqn:E.
  - rewrite setupScrollTrigger_cached by (rewrite E; eauto). exact Hs.
  - destruct (setupScrollTrigger_fresh s' c st E) as (tl & -> & _).
    destruct (decide (s' = s)) as [->|Hne].
    + rewrite lookup_insert_eq. eauto.
    + rewrite lookup_insert_ne by exact Hne. exact Hs.
Qed.

Lemma setupScrollTrigger_caches s c st :
  is_Some (Script.animations (Script.setupScrollTrigger s c st) !! s).
Proof.
  destruct (Script.animations st !! s) as [x|] eqn:E.
  - rewrite setupScrollTrigger_cached by (rewrite E; eauto). rewrite E. eauto.
  - destruct (setupScrollTrigger_fresh s c st E) as (tl & -> & _).
    rewrite lookup_insert_eq. eauto.
Qed.

Lemma setup_all_keeps_cached s l st :
  is_Some (Script.animations st !! s) ->
  is_Some (Script.animations (fold_left setup1 l st) !! s).
Proof.
  revert st. induction l as [|[s' c] l IH]; intros st H; cbn; [exact H|].
  apply IH, setupScrollTrigger_keeps_cached, H.
Qed.

Lemma setup_all_caches_all l st :
  Forall (fun sc => is_Some (Script.animations (fold_left setup1 l st)
                               !! fst sc)) l.
Proof.
  revert st. induction l as [|[s c] l IH]; intros st; [constructor|].
  constructor.
  - cbn [fst fold_left snd].
    apply setup_all_keeps_cached, setupScrollTrigger_caches.
  - apply IH.
Qed.

Lemma setup_all_noop l st :
  Forall (fun sc => is_Some (Script.animations st !! fst sc)) l ->
  fold_left setup1 l st = st.
Proof.
  induction 1 as [|[s c] l Hs _ IH]; [reflexivity|].
  cbn. rewrite setupScrollTrigger_cached by exact Hs. exact IH.
Qed.

Lemma setup_all_visible s l st :
  Script.visibility st !! s = Some "visible" ->
  Script.visibility (fold_left setup1 l st) !! s = Some "visible".
Proof.
  revert st. induction l as [|[s1 c1] l IH]; intros st H; cbn; [exact H|].
  apply IH. destruct (Script.animations st !! s1) as [x|] eqn:E.
  - rewrite setupScrollTrigger_cached by (rewrite E; eauto). exact H.
  - destruct (setupScrollTrigger_fresh s1 c1 st E) as (tl & _ & _ & _ & -> & _).
    destruct (decide (s1 = s)) as [->|Hne].
    + apply lookup_insert_eq.
    + rewrite lookup_insert_ne by exact Hne. exact H.
Qed.

Lemma setup_all_settles l st s :
  In s (map fst l) ->
  Script.animations st !! s = None ->
  Script.constructed_for s st = 0%nat ->
  exists tl, settled s tl (fold_left setup1 l st)
             /\ Script.visibility (fold_left setup1 l st) !! s = Some "visible".
Proof.
  revert st. induction l as [|[s' c] l IH]; intros st Hin Hf Hc; [contradiction|].
  cbn [fold_left fst snd].
  destruct (decide (s' = s)) as [->|Hne].
  - pose proof (setupScrollTrigger_fresh s c st Hf) as Hinit.
    destruct (initialised_settled s st _ Hf Hc Hinit) as (tl & Hs).
    exists tl. split.
    + revert Hs. generalize (Script.setupScrollTrigger s c st). clear.
      intros st0 Hs. revert st0 Hs.
      induction l as [|[s1 c1] l IH]; intros st0 Hs; cbn; [exact Hs|].
      apply IH, setupScrollTrigger_settled, Hs.
    + apply setup_all_visible.
      destruct Hinit as (tl' & _ & _ & _ & -> & _). apply lookup_insert_eq.
  - destruct Hin as [Heq|Hin]; [cbn in Heq; congruence|].
    apply IH; [exact Hin| |].
    + destruct (Script.animations st !! s') as [x|] eqn:E.
      * rewrite setupScrollTrigger_cached by (rewrite E; eauto). exact Hf.
      * destruct (setupScrollTrigger_fresh s' c st E) as (tl & -> & _).
        rewrite lookup_insert_ne by exact Hne. exact Hf.
    + destruct (Script.animations st !! s') as [x|] eqn:E.
      * rewrite setupScrollTrigger_cached by (rewrite E; eauto). exact Hc.
      * destruct (setupScrollTrigger_fresh s' c st E) as (tl & _ & _ & Hcr & _).
        unfold Script.constructed_for in *.
        rewrite Hcr, constructed_for_snoc, Hc, decide_False by exact Hne.
        reflexivity.
Qed.

Lemma batch_all_builds_nothing configs st :
  let st' := fold_left (Script.batch_sections page) configs st in
  Script.animations st' = Script.animations st
  /\ Script.created st' = Script.created st
  /\ Script.visibility st' = Script.visibility st
  /\ Script.libs st' = Script.libs st
  /\ Script.scrollTriggers st'
     = Script.scrollTriggers st
       ++ flat_map
            (fun c => map (fun el => {| st_trigger := el;
                                        st_start := Script.start_of c;
                                        st_alive := true |})
                        (querySelectorAll page (Script.selector c) None))
            configs.
Proof.
  cbn zeta. revert st. induction configs as [|c configs IH]; intros st.
  - cbn. rewrite app_nil_r. repeat split.
  - cbn [fold_left flat_map].
    destruct (IH (Script.batch_sections page st c)) as (Ha & Hc & Hv & Hl & Ht).
    rewrite Ha, Hc, Hv, Hl, Ht. cbn [Script.batch_sections Script.animations
      Script.created Script.visibility Script.libs Script.scrollTriggers].
    rewrite app_assoc. repeat split.
Qed.

End ScriptInit.

(** X15. The fallback branch of
    [initScrollTriggerAnimations] run a second time changes nothing, and
    on a fresh session it leaves every section matched by one of the
    twelve selectors visible and cached with exactly one timeline. The
    batch branch builds nothing at start-up: caches, styles and splits
    are as before. *)
Theorem initScrollTriggerAnimations_is_idempotent (env : Env)
    (cfg : Script.Config) (page : Page) (st : Script.State) :
  let fallback := Script.initScrollTriggerAnimations env cfg page false in
  let batch := Script.initScrollTriggerAnimations env cfg page true in
  fallback (fallback st) = fallback st
  /\ (forall c s,
        In c (Script.animationConfigs env cfg page) ->
        In s (querySelectorAll page (Script.selector c) None) ->
        exists tl,
          Script.animations (fallback Script.initial) !! s = Some tl
          /\ Script.constructed_for s (fallback Script.initial) = 1%nat
          /\ Script.visibility (fallback Script.initial) !! s = Some "visible")
  /\ Script.animations (batch st) = Script.animations st
  /\ Script.created (batch st) = Script.created st
  /\ Script.visibility (batch st) = Script.visibility st
  /\ Script.libs (batch st) = Script.libs st.
Proof.
  cbn zeta. unfold Script.initScrollTriggerAnimations.
  split; [|split].
  - rewrite !setup_sections_flat. apply setup_all_noop, setup_all_caches_all.
  - intros c s Hc Hs. rewrite setup_sections_flat.
    destruct (setup_all_settles
                (flat_sections page (Script.animationConfigs env cfg page))
                Script.initial s) as (tl & [Ha Hn] & Hv).
    + unfold flat_sections. rewrite in_map_iff.
      exists (s, c). split; [reflexivity|].
      rewrite in_flat_map. exists c. split; [exact Hc|].
      rewrite in_map_iff. exists s. split; [reflexivity|exact Hs].
    + reflexivity.
    + reflexivity.
    + exists tl. split; [exact Ha|]. split; [exact Hn|exact Hv].
  - destruct (batch_all_builds_nothing page
                (Script.animationConfigs env cfg page) st)
      as (Ha & Hc & Hv & Hl & Ht).
    split; [exact Ha|]. split; [exact Hc|]. split; [exact Hv|].
    exact Hl.
Qed.

Lemma initScrollTriggerAnimations_is_idempotent_witness :
  let fallback :=
    Script.initScrollTriggerAnimations desktop desktop_cfg hero_page false in
  fallback (fallback Script.initial) = fallback Script.initial
  /\ Script.constructed_for 7%nat (fallback Script.initial) = 1%nat.
Proof.
  cbn zeta.
  destruct (initScrollTriggerAnimations_is_idempotent desktop desktop_cfg
              hero_page Script.initial) as (Hi & Hc & _).
  split; [exact Hi|].
  destruct (Hc (List.hd faq_config
                  (Script.animationConfigs desktop desktop_cfg hero_page))
              7%nat) as (tl & _ & H & _).
  - left. reflexivity.
  - left. reflexivity.
  - exact H.
Defined.

(** ** The simple strategy *)

Section Simple.

Variable page : Page.

Lemma simple_fold (sections : list Elem) (st : Script.State) (tw : list Step) :
  let r := fold_left Script.simple_section sections (st, tw) in
  Script.animations (fst r) = Script.animations st
  /\ Script.created (fst r) = Script.created st
  /\ Script.libs (fst r) = Script.libs st
  /\ Script.observer_heap (fst r) = Script.observer_heap st
  /\ snd r = tw ++ map Script.simple_tween sections
  /\ Script.scrollTriggers (fst r)
     = Script.scrollTriggers st
       ++ map (fun s => {| st_trigger := s; st_start := "top 80%";
                           st_alive := true |}) sections
  /\ (forall s, In s sections \/ Script.visibility st !! s = Some "visible" ->
                Script.visibility (fst r) !! s = Some "visible").
Proof.
  cbn zeta. revert st tw. induction sections as [|x l IH]; intros st tw.
  - cbn. rewrite !app_nil_r. repeat split. intros s [[]|H]. exact H.
  - change (fold_left Script.simple_section (x :: l) (st, tw))
      with (fold_left Script.simple_section l
              (Script.simple_section (st, tw) x)).
    destruct (Script.simple_section (st, tw) x) as [st1 tw1] eqn:E.
    unfold Script.simple_section in E. cbn [fst snd] in E.
    injection E as <- <-.
    match goal with |- context [fold_left _ l (?a, ?b)] =>
      destruct (IH a b) as (Ha & Hc & Hl & Ho & Ht & Hs & Hv) end.
    rewrite Ha, Hc, Hl, Ho, Ht, Hs.
    cbn [Script.reveal Script.animations Script.created Script.libs
         Script.observer_heap Script.scrollTriggers Script.visibility map].
    rewrite <- !app_assoc. repeat split.
    intros s Hs'. apply Hv.
    cbn [Script.visibility Script.reveal].
    destruct (decide (x = s)) as [->|Hne].
    + right. apply lookup_insert_eq.
    + rewrite lookup_insert_ne by exact Hne.
      destruct Hs' as [[Heq|Hin]|Hvis]; [contradiction|left; exact Hin|right; exact Hvis].
Qed.

End Simple.

(** X16. The simple strategy makes every element that carries a
    [data-animation-trigger] attribute visible, whatever its kind, gives
    each one fade tween with a one-shot ScrollTrigger at ["top 80%"], and
    neither builds a timeline nor caches or splits anything. *)
Theorem initSimpleAnimations_reveals_every_section (page : Page)
    (st : Script.State) :
  let sections := querySelectorAll page "[data-animation-trigger]" None in
  let r := Script.initSimpleAnimations page st in
  (forall s, In s sections -> Script.visibility (fst r) !! s = Some "visible")
  /\ snd r = map Script.simple_tween sections
  /\ Script.scrollTriggers (fst r)
     = Script.scrollTriggers st
       ++ map (fun s => {| st_trigger := s; st_start := "top 80%";
                           st_alive := true |}) sections
  /\ Script.animations (fst r) = Script.animations st
  /\ Script.created (fst r) = Script.created st
  /\ Script.libs (fst r) = Script.libs st.
Proof.
  cbn zeta. unfold Script.initSimpleAnimations.
  destruct (simple_fold
              (querySelectorAll page "[data-animation-trigger]" None) st [])
    as (Ha & Hc & Hl & _ & Ht & Hs & Hv).
  split; [intros s Hin; apply Hv; left; exact Hin|].
  split; [exact Ht|]. split; [exact Hs|].
  split; [exact Ha|]. split; [exact Hc|exact Hl].
Qed.

(** ** The menu of the first revision *)

Section LegacyMenu.

Variable els : MenuElements.

Abbreviation is_open n := (bool_decide (Legacy.nav_data_nav n = Some "open")).

Lemma legacy_click_flips n :
  is_open (Legacy.click els n) = negb (is_open n).
Proof.
  unfold Legacy.click.
  destruct (decide (Legacy.nav_data_nav n = Some "open")) as [H|H].
  - rewrite (bool_decide_eq_true_2 _ H). reflexivity.
  - rewrite (bool_decide_eq_false_2 _ H). reflexivity.
Qed.

Lemma legacy_click_button b n :
  menuButton els = Some b ->
  let n' := Legacy.click els n in
  Legacy.nav_is_opened n' = is_open n'
  /\ Legacy.nav_aria_label n'
     = Some (if is_open n' then "Close menu" else "Open menu").
Proof.
  intros Hb. cbn zeta. unfold Legacy.click.
  destruct (decide (Legacy.nav_data_nav n = Some "open")) as [H|H];
    cbn [Legacy.closeMenu Legacy.openMenu Legacy.nav_is_opened
         Legacy.nav_aria_label Legacy.nav_data_nav];
    rewrite Hb; split; reflexivity.
Qed.

Lemma legacy_click_no_button n :
  menuButton els = None ->
  let n' := Legacy.click els n in
  Legacy.nav_is_opened n' = Legacy.nav_is_opened n
  /\ Legacy.nav_aria_label n' = Legacy.nav_aria_label n.
Proof.
  intros Hb. cbn zeta. unfold Legacy.click.
  destruct (decide (Legacy.nav_data_nav n = Some "open")) as [H|H];
    cbn [Legacy.closeMenu Legacy.openMenu Legacy.nav_is_opened
         Legacy.nav_aria_label]; rewrite Hb; split; reflexivity.
Qed.

Lemma legacy_clicks_parity k n :
  is_open (Nat.iter k (Legacy.click els) n) = xorb (Nat.odd k) (is_open n).
Proof.
  induction k as [|k IH]; [reflexivity|].
  rewrite Nat.odd_succ, <- Nat.negb_odd.
  change (Nat.iter (S k) (Legacy.click els) n)
    with (Legacy.click els (Nat.iter k (Legacy.click els) n)).
  rewrite legacy_click_flips, IH.
  destruct (Nat.odd k), (is_open n); reflexivity.
Qed.

End LegacyMenu.

(** X17. In the first revision every click on a toggle takes
    effect: after [k] clicks the [data-nav] attribute is ["open"] exactly
    when [k] is odd and it was not ["open"] before, or [k] is even and it
    was. After at least one click the button, when there is one, carries
    the class and the label of that state; the Escape key leaves the
    attribute different from ["open"]; and a click clears the timeline
    before it adds its five closing or eight opening tweens. *)
Theorem legacy_clicks_alternate (els : MenuElements) (n : Legacy.NavState)
    (k : nat) :
  let opened (n : Legacy.NavState) :=
    bool_decide (Legacy.nav_data_nav n = Some "open") in
  let after := Nat.iter k (Legacy.click els) n in
  let after' := Legacy.click els after in
  opened after = xorb (Nat.odd k) (opened n)
  /\ match menuButton els with
     | Some _ =>
         Legacy.nav_is_opened after' = opened after'
         /\ Legacy.nav_aria_label after'
            = Some (if opened after' then "Close menu" else "Open menu")
     | None =>
         Legacy.nav_is_opened after' = Legacy.nav_is_opened after
         /\ Legacy.nav_aria_label after' = Legacy.nav_aria_label after
     end
  /\ opened (Legacy.keydown els "Escape" after) = false
  /\ length (Legacy.nav_tl after') = match opened after with
                                      | true => 5%nat | false => 8%nat end.
Proof.
  cbn zeta. split; [apply legacy_clicks_parity|]. split; [|split].
  - destruct (menuButton els) as [b|] eqn:Hb.
    + apply (legacy_click_button els b _ Hb).
    + apply (legacy_click_no_button els _ Hb).
  - unfold Legacy.keydown. cbn [String.eqb Ascii.eqb Bool.eqb andb].
    generalize (Nat.iter k (Legacy.click els) n). intros m.
    destruct (bool_decide (Legacy.nav_data_nav m = Some "open")) eqn:E;
      [reflexivity|exact E].
  - unfold Legacy.click.
    destruct (decide _) as [H|H].
    + rewrite (bool_decide_eq_true_2 _ H). reflexivity.
    + rewrite (bool_decide_eq_false_2 _ H). reflexivity.
Qed.

(** ** The Escape key and a toggle still to run *)

Lemma escape_closes (els : MenuElements) (m : Menu) :
  isOpen (keydown els "Escape" m) = false.
Proof.
  unfold keydown, closeNav. cbn [String.eqb Ascii.eqb Bool.eqb andb].
  destruct (isOpen m) eqn:E; cbn; [reflexivity|exact E].
Qed.

Lemma jamboree_click_key_frame els (t : Jamboree.Throttle nat) m e keys now :
  Jamboree.requestId t = None -> Jamboree.rafQueue t = [] ->
  snd (Jamboree.menu_run els (Click e :: map KeyDown keys ++ [Frame now])
         (t, m))
  = toggle els (fold_left (fun m key => keydown els key m) keys m).
Proof.
  intros Hr Hq. unfold Jamboree.menu_run.
  cbn [fold_left Jamboree.menu_step fst snd]. rewrite fold_left_app.
  assert (Hw : Jamboree.wrapped e t
               = {| Jamboree.requestId := Some (Jamboree.rafNext t);
                    Jamboree.rafQueue := [(Jamboree.rafNext t, e)];
                    Jamboree.rafNext := S (Jamboree.rafNext t);
                    Jamboree.ran := Jamboree.ran t |}).
  { unfold Jamboree.wrapped. rewrite Hr, Hq. reflexivity. }
  rewrite Hw. generalize dependent m.
  induction keys as [|key keys IH]; intros m.
  - cbn [map fold_left Jamboree.menu_step fst snd].
    rewrite (jframe_pending (fun _ : nat => toggle els)
               (Jamboree.rafNext t) e) by reflexivity.
    reflexivity.
  - cbn [map fold_left Jamboree.menu_step fst snd]. apply IH.
Qed.

Lemma jamboree_menu_one_pending els evs (s : Jamboree.Throttle nat * Menu) :
  jone_pending (fst s) -> jone_pending (fst (Jamboree.menu_run els evs s)).
Proof.
  unfold Jamboree.menu_run. revert s.
  induction evs as [|ev evs IH]; intros [t m] H; cbn [fold_left]; [exact H|].
  apply IH. destruct ev as [e|now|key]; cbn [Jamboree.menu_step fst snd] in *.
  - apply (jstep_invariant (fun _ : nat => toggle els) (t, m) (Call e)), H.
  - apply (jstep_invariant (fun _ : nat => toggle els) (t, m) (Paint now)), H.
  - exact H.
Qed.

(** X18. The Escape key closes the menu but does not cancel a toggle that
    a click has already queued for the next frame. From any state the
    menu can get into with no toggle pending, open or closed, a click,
    then Escape, then the frame leave the menu open when the frame passes
    the test of the throttle (in jamboree.js at every frame), the toggle
    finding the menu closed; when the frame fails the test the toggle is
    discarded and the menu stays closed, and so it does without the
    click. *)
Theorem escape_does_not_cancel_a_pending_toggle (els : MenuElements)
    (attr0 : option string) (cls0 : bool) (aria0 : option string)
    (before : list MenuEvent) (e : nat) (t : Q) :
  let start := initMenu els attr0 cls0 aria0 in
  let s0 := Script.menu_run els before (Script.rafThrottle nat, start) in
  let j0 := Jamboree.menu_run els before (Jamboree.rafThrottle nat, start) in
  let evs := [Click e; KeyDown "Escape"; Frame t] in
  let s := Script.menu_run els evs s0 in
  let j := Jamboree.menu_run els evs j0 in
  let quiet := Script.menu_run els [KeyDown "Escape"; Frame t] s0 in
  (Script.requestId (fst s0) = None ->
   (if Script.due 30 t (Script.lastTime (fst s0))
    then isOpen (snd s) = true /\ data_nav (snd s) = Some "open"
    else isOpen (snd s) = false)
   /\ isOpen (snd quiet) = false)
  /\ (Jamboree.requestId (fst j0) = None ->
      isOpen (snd j) = true /\ data_nav (snd j) = Some "open").
Proof.
  cbn zeta. split.
  - pose proof (script_menu_one_pending els before
                  (Script.rafThrottle nat, initMenu els attr0 cls0 aria0)
                  eq_refl) as Hp.
    destruct (Script.menu_run els before _) as [th m].
    cbn [fst snd] in *. intros Hidle.
    unfold one_pending in Hp. rewrite Hidle in Hp.
    pose proof (script_click_key_frame els th m e ["Escape"] t Hidle Hp) as Hs.
    cbn [map app fold_left] in Hs. cbn zeta in Hs. rewrite Hs.
    split.
    + destruct (Script.due 30 t (Script.lastTime th)); cbn [snd].
      * destruct (toggle_closed els _ (escape_closes els m)) as (H1 & H2 & _).
        split; assumption.
      * apply escape_closes.
    + unfold Script.menu_run. cbn [fold_left Script.menu_step fst snd].
      rewrite (frame_idle 30 (fun _ : nat => toggle els) t th _ Hidle Hp).
      apply escape_closes.
  - pose proof (jamboree_menu_one_pending els before
                  (Jamboree.rafThrottle nat, initMenu els attr0 cls0 aria0)
                  eq_refl) as Hp.
    destruct (Jamboree.menu_run els before _) as [th m].
    cbn [fst snd] in *. intros Hidle.
    unfold jone_pending in Hp. rewrite Hidle in Hp.
    pose proof (jamboree_click_key_frame els th m e ["Escape"] t Hidle Hp)
      as Hj.
    cbn [map app fold_left] in Hj. rewrite Hj.
    destruct (toggle_closed els _ (escape_closes els m)) as (H1 & H2 & _).
    split; assumption.
Qed.

Lemma escape_does_not_cancel_a_pending_toggle_witness :
  let start := initMenu sample_menu (Some "closed") false None in
  let s0 :=
    Script.menu_run sample_menu [Click 1; Frame 1000]
      (Script.rafThrottle nat, start) in
  isOpen (snd s0) = true
  /\ isOpen (snd (Script.menu_run sample_menu [Click 2; KeyDown "Escape"] s0))
     = false
  /\ isOpen (snd (Script.menu_run sample_menu
                    [Click 2; KeyDown "Escape"; Frame 1100] s0)) = true
  /\ isOpen (snd (Script.menu_run sample_menu
                    [Click 2; KeyDown "Escape"; Frame 1020] s0)) = false.
Proof.
  cbn zeta. split; [vm_compute; reflexivity|].
  split; [vm_compute; reflexivity|].
  pose proof (proj1 (escape_does_not_cancel_a_pending_toggle sample_menu
                       (Some "closed") false None [Click 1; Frame 1000]
                       2 1100)) as Hrun.
  pose proof (proj1 (escape_does_not_cancel_a_pending_toggle sample_menu
                       (Some "closed") false None [Click 1; Frame 1000]
                       2 1020)) as Hdrop.
  cbn zeta in Hrun, Hdrop.
  split.
  - assert (Hidle : Script.requestId
                      (fst (Script.menu_run sample_menu [Click 1; Frame 1000]
                              (Script.rafThrottle nat,
                               initMenu sample_menu (Some "closed") false None)))
                    = None) by (vm_compute; reflexivity).
    destruct (Hrun Hidle) as [H _].
    assert (Hdue : Script.due 30 1100
                     (Script.lastTime
                        (fst (Script.menu_run sample_menu [Click 1; Frame 1000]
                                (Script.rafThrottle nat,
                                 initMenu sample_menu (Some "closed") false
                                   None)))) = true)
      by (vm_compute; reflexivity).
    rewrite Hdue in H. exact (proj1 H).
  - assert (Hidle : Script.requestId
                      (fst (Script.menu_run sample_menu [Click 1; Frame 1000]
                              (Script.rafThrottle nat,
                               initMenu sample_menu (Some "closed") false None)))
                    = None) by (vm_compute; reflexivity).
    destruct (Hdrop Hidle) as [H _].
    assert (Hdue : Script.due 30 1020
                     (Script.lastTime
                        (fst (Script.menu_run sample_menu [Click 1; Frame 1000]
                                (Script.rafThrottle nat,
                                 initMenu sample_menu (Some "closed") false
                                   None)))) = false)
      by (vm_compute; reflexivity).
    rewrite Hdue in H. exact H.
Defined.
